(** * Ch00/WinMain.cpp: the window host, its message pump and its window procedure

    A shallow embedding of [WinMain] and [WndProc] of Ch00/WinMain.cpp and
    of the [Application] interface of Ch00/Application.h.

    The program is a sequence of calls into the window system, into
    OpenGL and into the [Application] object, around two globals
    ([gApplication], [gVertexArrayObject]).  It is embedded as a state
    monad over a [World] (the globals, the locals of [WinMain] that live
    across loop iterations, and the little of the window system the code
    talks to), which also collects the calls made, in order, and which
    fails on a call through a null [Application] pointer. *)

From Stdlib Require Import ZArith List String Ascii Bool Lia QArith.
From Stdlib Require Import DecimalString.
Import ListNotations.
Local Open Scope Z_scope.

(** ** Data *)

Definition HWND := Z.
Definition HDC := Z.
Definition HGLRC := Z.
Definition UINT := Z.
Definition WPARAM := Z.
Definition LPARAM := Z.
Definition LRESULT := Z.
Definition DWORD := Z.
Definition GLuint := Z.

(** Message identifiers of winuser.h used by the source, and the close
    command of the window menu. *)
Definition WM_DESTROY : UINT := 2.      (* 0x0002 *)
Definition WM_PAINT : UINT := 15.       (* 0x000F *)
Definition WM_CLOSE : UINT := 16.       (* 0x0010 *)
Definition WM_QUIT : UINT := 18.        (* 0x0012 *)
Definition WM_ERASEBKGND : UINT := 20.  (* 0x0014 *)
Definition WM_KEYDOWN : UINT := 256.    (* 0x0100 *)
Definition WM_SYSCOMMAND : UINT := 274. (* 0x0112 *)
Definition SC_CLOSE : WPARAM := 61536.  (* 0xF060 *)

(** [MSG]: the fields the code and the dispatcher read. *)
Record MSG := mkMSG {
  MSG_hwnd : HWND;
  message : UINT;
  wParam : WPARAM;
  lParam : LPARAM
}.

(** [MSG msg;] is declared without an initialiser: until [PeekMessage]
    stores into it, its content is indeterminate. *)
Inductive MsgBuf :=
| Indeterminate
| Stored (m : MSG).

Record RECT := mkRECT {
  RECT_left : Z;
  RECT_top : Z;
  RECT_right : Z;
  RECT_bottom : Z
}.

(** Values of C type [float] are kept as the expression that computes
    them; [exact] reads such an expression in exact arithmetic (binary32
    rounding is outside the model). *)
Inductive float :=
| FLit (q : Q)            (* a literal such as 0.001f *)
| FOfDWORD (n : Z)        (* conversion of an unsigned long *)
| FOfInt (n : Z)          (* (float) of an int *)
| FMul (a b : float)
| FDiv (a b : float).

Fixpoint exact (f : float) : Q :=
  match f with
  | FLit q => q
  | FOfDWORD n => inject_Z n
  | FOfInt n => inject_Z n
  | FMul a b => (exact a * exact b)%Q
  | FDiv a b => (exact a / exact b)%Q
  end.

(** 32-bit wrap-around. *)
Definition to_uint32 (z : Z) : Z := z mod 2 ^ 32.
Definition to_int32 (z : Z) : Z := (z + 2 ^ 31) mod 2 ^ 32 - 2 ^ 31.

Definition endl : string := String (ascii_of_nat 10) EmptyString.

(** The calls the program makes, and its stores to the two globals. *)
Inductive Event :=
(* Application.h, through gApplication *)
| App_Initialize (this : Z)
| App_Update (this : Z) (inDeltaTime : float)
| App_Render (this : Z) (inAspectRatio : float)
| App_Shutdown (this : Z)
| App_delete (this : Z)
| Store_gApplication (v : Z)
| Store_gVertexArrayObject (v : GLuint)
| cout (s : string)
(* window system *)
| Call_CreateWindowEx (x y nWidth nHeight : Z)
| Call_ShowWindow (hwnd : HWND)
| Call_UpdateWindow (hwnd : HWND)
| Call_TranslateMessage (m : MsgBuf)
| Call_DispatchMessage (m : MsgBuf)
| Call_DestroyWindow (hwnd : HWND)
| Call_DefWindowProc (hwnd : HWND) (iMsg : UINT) (wParam : WPARAM) (lParam : LPARAM)
| Call_GetDC (hwnd : HWND)
| Call_ReleaseDC (hwnd : HWND) (hdc : HDC)
| Call_PostQuitMessage (nExitCode : Z)
| Call_SwapBuffers (hdc : HDC)
(* OpenGL and WGL *)
| Call_wglMakeCurrent (hdc : HDC) (hglrc : HGLRC)
| Call_wglDeleteContext (hglrc : HGLRC)
| Call_wglSwapIntervalEXT (interval : Z)
| Call_glGenVertexArrays (n : Z)
| Call_glBindVertexArray (array : GLuint)
| Call_glDeleteVertexArrays (n : Z) (array : GLuint)
| Call_glViewport (x y width height : Z)
| Call_glEnable_DEPTH_TEST
| Call_glEnable_CULL_FACE
| Call_glPointSize (size : float)
| Call_glClearColor (r g b a : float)
| Call_glClear_COLOR_DEPTH_STENCIL
| Call_glFinish.

(** ** The world *)

Record World := mkWorld {
  (* the two globals of WinMain.cpp *)
  gApplication : Z;             (* Application*, 0 is the null pointer *)
  gVertexArrayObject : GLuint;
  (* locals of WinMain that are written inside the game loop *)
  lastTick : DWORD;
  msg : MsgBuf;
  clientWidth : Z;
  clientHeight : Z;
  (* the window system, as far as the code depends on it *)
  os_window : option HWND;      (* the window, while it exists *)
  os_queue : list MSG;          (* posted messages, oldest first *)
  os_dc : HDC;                  (* what GetDC hands out *)
  os_context : HGLRC            (* the current rendering context *)
}.

Definition set_gApplication (v : Z) (w : World) : World :=
  mkWorld v (gVertexArrayObject w) (lastTick w) (msg w) (clientWidth w)
    (clientHeight w) (os_window w) (os_queue w) (os_dc w) (os_context w).
Definition set_gVertexArrayObject (v : GLuint) (w : World) : World :=
  mkWorld (gApplication w) v (lastTick w) (msg w) (clientWidth w)
    (clientHeight w) (os_window w) (os_queue w) (os_dc w) (os_context w).
Definition set_lastTick (v : DWORD) (w : World) : World :=
  mkWorld (gApplication w) (gVertexArrayObject w) v (msg w) (clientWidth w)
    (clientHeight w) (os_window w) (os_queue w) (os_dc w) (os_context w).
Definition set_msg (v : MsgBuf) (w : World) : World :=
  mkWorld (gApplication w) (gVertexArrayObject w) (lastTick w) v (clientWidth w)
    (clientHeight w) (os_window w) (os_queue w) (os_dc w) (os_context w).
Definition set_clientWidth (v : Z) (w : World) : World :=
  mkWorld (gApplication w) (gVertexArrayObject w) (lastTick w) (msg w) v
    (clientHeight w) (os_window w) (os_queue w) (os_dc w) (os_context w).
Definition set_clientHeight (v : Z) (w : World) : World :=
  mkWorld (gApplication w) (gVertexArrayObject w) (lastTick w) (msg w)
    (clientWidth w) v (os_window w) (os_queue w) (os_dc w) (os_context w).
Definition set_os_window (v : option HWND) (w : World) : World :=
  mkWorld (gApplication w) (gVertexArrayObject w) (lastTick w) (msg w)
    (clientWidth w) (clientHeight w) v (os_queue w) (os_dc w) (os_context w).
Definition set_os_queue (v : list MSG) (w : World) : World :=
  mkWorld (gApplication w) (gVertexArrayObject w) (lastTick w) (msg w)
    (clientWidth w) (clientHeight w) (os_window w) v (os_dc w) (os_context w).
Definition set_os_dc (v : HDC) (w : World) : World :=
  mkWorld (gApplication w) (gVertexArrayObject w) (lastTick w) (msg w)
    (clientWidth w) (clientHeight w) (os_window w) (os_queue w) v (os_context w).
Definition set_os_context (v : HGLRC) (w : World) : World :=
  mkWorld (gApplication w) (gVertexArrayObject w) (lastTick w) (msg w)
    (clientWidth w) (clientHeight w) (os_window w) (os_queue w) (os_dc w) v.

(** ** The host monad: state, the calls made, and faults *)

Definition Host (A : Type) : Type := World -> option (A * World * list Event).

Definition ret {A} (a : A) : Host A := fun w => Some (a, w, []).

Definition bind {A B} (c : Host A) (k : A -> Host B) : Host B :=
  fun w =>
    match c w with
    | None => None
    | Some (a, w1, e1) =>
        match k a w1 with
        | None => None
        | Some (b, w2, e2) => Some (b, w2, e1 ++ e2)
        end
    end.

Declare Scope host_scope.
Delimit Scope host_scope with host.
Notation "x <- c ;; k" := (bind c (fun x => k))
  (at level 61, c at next level, right associativity) : host_scope.
Notation "c ;; k" := (bind c (fun _ => k))
  (at level 61, right associativity) : host_scope.
Local Open Scope host_scope.

Definition emit (e : Event) : Host unit := fun w => Some (tt, w, [e]).
Definition gets {A} (f : World -> A) : Host A := fun w => Some (f w, w, []).
Definition modify (f : World -> World) : Host unit := fun w => Some (tt, f w, []).

(** [gApplication->m(...)]: a call through the null pointer is a fault. *)
Definition call_gApplication (m : Z -> Event) : Host unit :=
  fun w => if gApplication w =? 0 then None
           else Some (tt, w, [m (gApplication w)]).

(** [delete gApplication;] (deleting the null pointer does nothing). *)
Definition delete_gApplication : Host unit :=
  fun w => if gApplication w =? 0 then Some (tt, w, [])
           else Some (tt, w, [App_delete (gApplication w)]).

Definition assign_gApplication (v : Z) : Host unit :=
  emit (Store_gApplication v) ;; modify (set_gApplication v).
Definition assign_gVertexArrayObject (v : GLuint) : Host unit :=
  emit (Store_gVertexArrayObject v) ;; modify (set_gVertexArrayObject v).

(** ** Window-system and WGL calls made by the window procedure *)

Definition GetDC (hwnd : HWND) : Host HDC :=
  emit (Call_GetDC hwnd) ;; gets os_dc.
Definition ReleaseDC (hwnd : HWND) (hdc : HDC) : Host unit :=
  emit (Call_ReleaseDC hwnd hdc).
Definition wglGetCurrentContext : Host HGLRC := gets os_context.
Definition wglMakeCurrent (hdc : HDC) (hglrc : HGLRC) : Host unit :=
  emit (Call_wglMakeCurrent hdc hglrc) ;; modify (set_os_context hglrc).
Definition wglDeleteContext (hglrc : HGLRC) : Host unit :=
  emit (Call_wglDeleteContext hglrc).

(** [PostQuitMessage(n)] posts WM_QUIT carrying [n] to the thread's queue. *)
Definition PostQuitMessage (nExitCode : Z) : Host unit :=
  emit (Call_PostQuitMessage nExitCode) ;;
  modify (fun w => set_os_queue (os_queue w ++ [mkMSG 0 WM_QUIT nExitCode 0]) w).

(** ** WndProc (WinMain.cpp, lines 284-335) *)

Section WindowProcedure.

(** [DestroyWindow] and [DefWindowProc] call back into the window
    procedure, so the procedure is written over them and the knot is
    tied below. *)
Variable DestroyWindow : HWND -> Host unit.
Variable DefWindowProc : HWND -> UINT -> WPARAM -> LPARAM -> Host LRESULT.

Definition WndProc_with (hwnd : HWND) (iMsg : UINT) (wp : WPARAM) (lp : LPARAM)
  : Host LRESULT :=
  if iMsg =? WM_CLOSE then
    app <- gets gApplication ;;
    (if negb (app =? 0) then
       call_gApplication App_Shutdown ;;
       delete_gApplication ;;
       assign_gApplication 0 ;;
       DestroyWindow hwnd
     else emit (cout ("Already shut down gApplication!" ++ endl))) ;;
    DefWindowProc hwnd iMsg wp lp
  else if iMsg =? WM_DESTROY then
    vao <- gets gVertexArrayObject ;;
    (if negb (vao =? 0) then
       hdc <- GetDC hwnd ;;
       hglrc <- wglGetCurrentContext ;;
       emit (Call_glBindVertexArray 0) ;;
       emit (Call_glDeleteVertexArrays 1 vao) ;;
       assign_gVertexArrayObject 0 ;;
       wglMakeCurrent 0 0 ;;
       wglDeleteContext hglrc ;;
       ReleaseDC hwnd hdc ;;
       PostQuitMessage 0
     else emit (cout ("Display multiple error msgs" ++ endl))) ;;
    DefWindowProc hwnd iMsg wp lp
  else if (iMsg =? WM_PAINT) || (iMsg =? WM_ERASEBKGND) then
    ret 0
  else
    DefWindowProc hwnd iMsg wp lp.

End WindowProcedure.

(** ** The window system behind the window procedure *)

Section DefaultProcessing.

(** [DefWindowProc] is the window system's default processing of a
    message.  The call is recorded, and of the default processing the
    model has the two reactions that run this program's handlers: for
    WM_CLOSE the window is destroyed, and for WM_SYSCOMMAND with the
    command SC_CLOSE (the four low bits of [wParam] are the system's,
    hence the mask 0xFFF0) WM_CLOSE is sent to the window.  What the
    window system does with other messages is not modelled. *)
Variable destroy_window : HWND -> Host unit.
Variable send_WM_CLOSE : HWND -> Host unit.

Definition DefWindowProc_with (hwnd : HWND) (iMsg : UINT) (wp : WPARAM) (lp : LPARAM)
  : Host LRESULT :=
  emit (Call_DefWindowProc hwnd iMsg wp lp) ;;
  (if iMsg =? WM_CLOSE then destroy_window hwnd
   else if (iMsg =? WM_SYSCOMMAND) && (Z.land wp 65520 =? SC_CLOSE)
        then send_WM_CLOSE hwnd
        else ret tt) ;;
  ret 0.

End DefaultProcessing.

Definition os_nothing (hwnd : HWND) : Host unit := ret tt.

(** While WM_DESTROY is being handled the window is already on its way
    out: a nested request to destroy it is recorded and fails, and
    default processing neither destroys nor closes it again. *)
Definition DestroyWindow_nested (hwnd : HWND) : Host unit :=
  emit (Call_DestroyWindow hwnd).

Definition WndProc_destroying : HWND -> UINT -> WPARAM -> LPARAM -> Host LRESULT :=
  WndProc_with DestroyWindow_nested (DefWindowProc_with os_nothing os_nothing).

(** Destroying the window: the window system sends WM_DESTROY to the
    window's procedure before it removes the window (the source: "emit a
    destroy window msg"); on a handle that names no window nothing is
    sent. *)
Definition os_destroy (hwnd : HWND) : Host unit :=
  win <- gets os_window ;;
  match win with
  | Some h =>
      if h =? hwnd then
        WndProc_destroying hwnd WM_DESTROY 0 0 ;;
        modify (set_os_window None)
      else ret tt
  | None => ret tt
  end.

(** [DestroyWindow(hwnd)], called by the program. *)
Definition DestroyWindow (hwnd : HWND) : Host unit :=
  emit (Call_DestroyWindow hwnd) ;; os_destroy hwnd.

(** The window procedure as it runs for a WM_CLOSE that default
    processing sends: its own default processing destroys the window. *)
Definition WndProc_closing : HWND -> UINT -> WPARAM -> LPARAM -> Host LRESULT :=
  WndProc_with DestroyWindow (DefWindowProc_with os_destroy os_nothing).

(** [SendMessage(hwnd, WM_CLOSE, 0, 0)] by the window system: the
    procedure of the window runs at once, if the window exists. *)
Definition os_send_WM_CLOSE (hwnd : HWND) : Host unit :=
  win <- gets os_window ;;
  match win with
  | Some h =>
      if h =? hwnd then WndProc_closing hwnd WM_CLOSE 0 0 ;; ret tt
      else ret tt
  | None => ret tt
  end.

Definition DefWindowProc : HWND -> UINT -> WPARAM -> LPARAM -> Host LRESULT :=
  DefWindowProc_with os_destroy os_send_WM_CLOSE.

Definition WndProc : HWND -> UINT -> WPARAM -> LPARAM -> Host LRESULT :=
  WndProc_with DestroyWindow DefWindowProc.

(** Counting calls in a trace. *)
Definition is_Shutdown (e : Event) : bool :=
  match e with App_Shutdown _ => true | _ => false end.
Definition is_delete (e : Event) : bool :=
  match e with App_delete _ => true | _ => false end.
Definition is_Update_or_Render (e : Event) : bool :=
  match e with App_Update _ _ | App_Render _ _ => true | _ => false end.
Definition is_DestroyWindow (e : Event) : bool :=
  match e with Call_DestroyWindow _ => true | _ => false end.
Definition is_teardown (e : Event) : bool :=
  match e with
  | Call_glBindVertexArray _ | Call_glDeleteVertexArrays _ _
  | Call_wglMakeCurrent _ _ | Call_wglDeleteContext _
  | Call_ReleaseDC _ _ | Call_PostQuitMessage _
  | Store_gVertexArrayObject _ => true
  | _ => false
  end.
Definition occurrences (p : Event -> bool) (evs : list Event) : nat :=
  List.length (filter p evs).

(** ** WinMain (WinMain.cpp, lines 60-277) *)

(** What the environment answers during start-up. *)
Record Startup := mkStartup {
  new_Application : Z;                 (* new Application() *)
  SM_CXSCREEN : Z;                     (* GetSystemMetrics(SM_CXSCREEN) *)
  SM_CYSCREEN : Z;                     (* GetSystemMetrics(SM_CYSCREEN) *)
  frame_left : Z;                      (* what AdjustWindowRectEx adds *)
  frame_top : Z;                       (*   around a client rectangle  *)
  frame_right : Z;                     (*   for the window style       *)
  frame_bottom : Z;
  CreateWindowEx_result : HWND;
  GetDC_result : HDC;
  wglCreateContextAttribsARB_result : HGLRC;
  swapControlSupported : bool;         (* strstr(...) != 0 *)
  wglSwapIntervalEXT_result : bool;
  wglGetSwapIntervalEXT_result : Z;
  glGenVertexArrays_result : GLuint;
  GetTickCount_start : DWORD
}.

(** What the environment answers during one pass of the game loop.
    [arrivals] is everything that has reached the queue since the
    previous peek, whoever posted it: another program, the window
    system, or TranslateMessage in the previous pass (the character
    message of a key stroke). *)
Record FrameInput := mkFrameInput {
  arrivals : list MSG;                 (* in the queue since the previous peek *)
  GetTickCount_result : DWORD;
  GetClientRect_result : RECT
}.

(** Lines 86-96: [SetRect] with the centred client rectangle; [/] on
    [int] truncates. *)
Definition SetRect_windowRect (screenWidth screenHeight clientWidth clientHeight : Z)
  : RECT :=
  mkRECT (screenWidth ÷ 2 - clientWidth ÷ 2)
         (screenHeight ÷ 2 - clientHeight ÷ 2)
         (screenWidth ÷ 2 + clientWidth ÷ 2)
         (screenHeight ÷ 2 + clientHeight ÷ 2).

(** [AdjustWindowRectEx]: grows a client rectangle by the frame of the
    style, giving the window rectangle. *)
Definition AdjustWindowRectEx (env : Startup) (r : RECT) : RECT :=
  mkRECT (RECT_left r - frame_left env) (RECT_top r - frame_top env)
         (RECT_right r + frame_right env) (RECT_bottom r + frame_bottom env).

(** The client area of a window created with outer size [nWidth] x
    [nHeight]: the inverse of [AdjustWindowRectEx] on sizes. *)
Definition client_size_of_window (env : Startup) (nWidth nHeight : Z) : Z * Z :=
  (nWidth - frame_left env - frame_right env,
   nHeight - frame_top env - frame_bottom env).

(** The position and size arguments of the [CreateWindowEx] call of
    lines 108-110. *)
Definition WinMain_CreateWindowEx_args (env : Startup) : Z * Z * Z * Z :=
  let screenWidth := SM_CXSCREEN env in
  let screenHeight := SM_CYSCREEN env in
  let clientWidth := 800 in
  let clientHeight := 600 in
  let windowRect :=
    SetRect_windowRect screenWidth screenHeight clientWidth clientHeight in
  let windowRect := AdjustWindowRectEx env windowRect in
  (RECT_left windowRect, RECT_top windowRect, screenWidth, screenHeight).

(** Lines 63-220.  Class registration, pixel format, the temporary
    context and the loader (lines 67-80, 120-166) neither read nor write
    anything modelled here beyond making the final context current. *)
Definition WinMain_startup (env : Startup) : Host (HWND * HDC * Z) :=
  assign_gApplication (new_Application env) ;;
  modify (set_clientWidth 800) ;;
  modify (set_clientHeight 600) ;;
  (let '(x, y, nWidth, nHeight) := WinMain_CreateWindowEx_args env in
   emit (Call_CreateWindowEx x y nWidth nHeight)) ;;
  let hwnd := CreateWindowEx_result env in
  modify (set_os_window (if hwnd =? 0 then None else Some hwnd)) ;;
  modify (set_os_dc (GetDC_result env)) ;;
  hdc <- GetDC hwnd ;;
  wglMakeCurrent hdc (wglCreateContextAttribsARB_result env) ;;
  vsynch <-
    (if swapControlSupported env then
       emit (Call_wglSwapIntervalEXT 1) ;;
       if wglSwapIntervalEXT_result env then
         emit (cout ("Enabled vsynch" ++ endl)) ;;
         ret (wglGetSwapIntervalEXT_result env)
       else
         emit (cout ("Couldn't enable vsynch " ++ endl)) ;; ret 0
     else
       emit (cout ("WGL_EXT_swap_control not enabled" ++ endl)) ;; ret 0) ;;
  emit (Call_glGenVertexArrays 1) ;;
  modify (set_gVertexArrayObject (glGenVertexArrays_result env)) ;;
  vao <- gets gVertexArrayObject ;;
  emit (Call_glBindVertexArray vao) ;;
  emit (Call_ShowWindow hwnd) ;;
  emit (Call_UpdateWindow hwnd) ;;
  call_gApplication App_Initialize ;;
  modify (set_lastTick (GetTickCount_start env)) ;;
  ret (hwnd, hdc, vsynch).

(** [PeekMessage(&msg, NULL, 0, 0, PM_REMOVE)]: never waits; takes the
    oldest pending message, if there is one, into [msg]. *)
Definition PeekMessage : Host bool :=
  q <- gets os_queue ;;
  match q with
  | [] => ret false
  | m :: rest =>
      modify (set_os_queue rest) ;; modify (set_msg (Stored m)) ;; ret true
  end.

(** Reading a field of [msg]; reading the indeterminate buffer is a fault. *)
Definition read_msg : Host MSG :=
  fun w => match msg w with
           | Stored m => Some (m, w, [])
           | Indeterminate => None
           end.

(** [TranslateMessage(&msg)]: the call is recorded; the character
    message it posts for a key stroke is among the [arrivals] of the
    next pass. *)
Definition TranslateMessage : Host unit :=
  b <- gets msg ;; emit (Call_TranslateMessage b).

(** [DispatchMessage(&msg)]: calls the window procedure of the window
    the message names, with the message's fields; a buffer that names no
    existing window reaches no procedure. *)
Definition DispatchMessage : Host unit :=
  b <- gets msg ;;
  emit (Call_DispatchMessage b) ;;
  win <- gets os_window ;;
  match b, win with
  | Stored m, Some h =>
      if h =? MSG_hwnd m then
        WndProc (MSG_hwnd m) (message m) (wParam m) (lParam m) ;; ret tt
      else ret tt
  | _, _ => ret tt
  end.

Definition os_post (ms : list MSG) : Host unit :=
  modify (fun w => set_os_queue (os_queue w ++ ms) w).

Inductive LoopCtl := Break | Continue.

(** Lines 224-231, "Process window events": [true] stands for [break]. *)
Definition process_window_events : Host bool :=
  got <- PeekMessage ;;
  quit <- (if got then m <- read_msg ;; ret (message m =? WM_QUIT)
           else ret false) ;;
  if quit then ret true
  else TranslateMessage ;; DispatchMessage ;; ret false.

(** Lines 233-237, "Update application based on the delta time". *)
Definition delta_time (thisTick lastTick : DWORD) : float :=
  FMul (FOfDWORD (to_uint32 (thisTick - lastTick))) (FLit (1 # 1000)).

Definition update_application (inp : FrameInput) : Host unit :=
  let thisTick := GetTickCount_result inp in
  last <- gets lastTick ;;
  let dt := delta_time thisTick last in
  modify (set_lastTick thisTick) ;;
  app <- gets gApplication ;;
  if negb (app =? 0) then call_gApplication (fun this => App_Update this dt)
  else ret tt.

(** Lines 239-259, "Render Application". *)
Definition render_application (inp : FrameInput) : Host unit :=
  app <- gets gApplication ;;
  if negb (app =? 0) then
    let clientRect := GetClientRect_result inp in
    modify (set_clientWidth (to_int32 (RECT_right clientRect - RECT_left clientRect))) ;;
    modify (set_clientHeight (to_int32 (RECT_bottom clientRect - RECT_top clientRect))) ;;
    cw <- gets clientWidth ;;
    ch <- gets clientHeight ;;
    emit (Call_glViewport 0 0 cw ch) ;;
    emit Call_glEnable_DEPTH_TEST ;;
    emit Call_glEnable_CULL_FACE ;;
    emit (Call_glPointSize (FLit 5)) ;;
    vao <- gets gVertexArrayObject ;;
    emit (Call_glBindVertexArray vao) ;;
    emit (Call_glClearColor (FLit (5 # 10)) (FLit (6 # 10)) (FLit (7 # 10)) (FLit 1)) ;;
    emit Call_glClear_COLOR_DEPTH_STENCIL ;;
    let aspect := FDiv (FOfInt cw) (FOfInt ch) in
    call_gApplication (fun this => App_Render this aspect)
  else ret tt.

(** Lines 261-266, presenting the buffer. *)
Definition present (hdc : HDC) (vsynch : Z) : Host unit :=
  app <- gets gApplication ;;
  if negb (app =? 0) then
    emit (Call_SwapBuffers hdc) ;;
    if negb (vsynch =? 0) then emit Call_glFinish else ret tt
  else ret tt.

(** One pass through the body of [while (true)] (lines 222-267). *)
Definition loop_body (hdc : HDC) (vsynch : Z) (inp : FrameInput) : Host LoopCtl :=
  os_post (arrivals inp) ;;
  quit <- process_window_events ;;
  if quit then ret Break
  else
    update_application inp ;;
    render_application inp ;;
    present hdc vsynch ;;
    ret Continue.

(** The loop over the answers of the environment for the passes made so
    far: [None] while the loop is still running when they are used up. *)
Fixpoint game_loop (hdc : HDC) (vsynch : Z) (inps : list FrameInput)
  : Host (option unit) :=
  match inps with
  | [] => ret None
  | inp :: rest =>
      c <- loop_body hdc vsynch inp ;;
      match c with
      | Break => ret (Some tt)
      | Continue => game_loop hdc vsynch rest
      end
  end.

(** Lines 269-276: the code after the loop and the value returned. *)
Definition WinMain_exit : Host Z :=
  app <- gets gApplication ;;
  (if negb (app =? 0) then
     emit (cout ("Expected application to be null on exit " ++ endl)) ;;
     delete_gApplication
   else ret tt) ;;
  m <- read_msg ;;
  ret (to_int32 (wParam m)).

(** [WinMain]: [Some code] once it has returned [code], [None] while the
    loop is still running at the end of [inps]. *)
Definition WinMain (env : Startup) (inps : list FrameInput) : Host (option Z) :=
  started <- WinMain_startup env ;;
  let '(hwnd, hdc, vsynch) := started in
  e <- game_loop hdc vsynch inps ;;
  match e with
  | None => ret None
  | Some _ => code <- WinMain_exit ;; ret (Some code)
  end.

(** The process before [WinMain] runs: both globals hold their
    initialiser 0, there is no window, nothing is pending. *)
Definition boot : World :=
  mkWorld 0 0 0 Indeterminate 0 0 None [] 0 0.

(** ** The life cycle of the Application object, read off a trace *)

(** A run through a trace with one bit of memory, "Shutdown has been
    called": [None] as soon as a call breaks the life cycle (a second
    Shutdown, or Update or Render after Shutdown). *)
Fixpoint lifecycle (shut : bool) (evs : list Event) : option bool :=
  match evs with
  | [] => Some shut
  | e :: rest =>
      if is_Shutdown e then
        if shut then None else lifecycle true rest
      else if is_Update_or_Render e then
        if shut then None else lifecycle shut rest
      else lifecycle shut rest
  end.

(** The trace between two worlds respects the life cycle, with
    "Shutdown has been called" exactly when [gApplication] is null. *)
Definition life_effect (w w' : World) (evs : list Event) : Prop :=
  lifecycle (gApplication w =? 0) evs = Some (gApplication w' =? 0).

(** The quit message [PostQuitMessage(0)] posts. *)
Definition quit0 : MSG := mkMSG 0 WM_QUIT 0 0.

(** What a call into the window system that may run the window procedure
    leaves behind: the loop's locals are untouched, the queue has only
    grown, by quit messages carrying 0, the trace respects the life
    cycle and holds no Update or Render. *)
Definition pump_effect (w w' : World) (evs : list Event) : Prop :=
  lastTick w' = lastTick w
  /\ msg w' = msg w
  /\ (exists posted,
        os_queue w' = os_queue w ++ posted /\ Forall (fun m => m = quit0) posted)
  /\ life_effect w w' evs
  /\ Forall (fun e => is_Update_or_Render e = false) evs.

(** Every pending quit message carries 0. *)
Definition quits_carry_0 (q : list MSG) : Prop :=
  Forall (fun m => message m = WM_QUIT -> wParam m = 0) q.

(** The environment posts no quit message of its own. *)
Definition is_quit (m : MSG) : bool := message m =? WM_QUIT.
Definition posts_no_quit (inps : list FrameInput) : bool :=
  forallb (fun inp => forallb (fun m => negb (is_quit m)) (arrivals inp)) inps.

(** The world in which translation and dispatch run, after the peek of
    a pass that found [pending] in the queue: the oldest message, if
    any, has moved into [msg]. *)
Definition after_peek (pending : list MSG) (w : World) : World :=
  match pending with
  | [] => set_os_queue [] w
  | m :: rest => set_msg (Stored m) (set_os_queue rest w)
  end.

(** A call of [PostQuitMessage] in a trace passes 0. *)
Definition quit_payload_0 (e : Event) : Prop :=
  match e with
  | Call_PostQuitMessage n => n = 0
  | _ => True
  end.

(** Every trace a computation can leave posts quit messages with 0 only. *)
Definition posts_only_0 {A} (c : Host A) : Prop :=
  forall w a w' evs, c w = Some (a, w', evs) -> Forall quit_payload_0 evs.

(** ** Sample environments, worlds and messages *)

Definition sample_env : Startup :=
  mkStartup 4096 1920 1080 8 31 8 8 77 5 9 true true 1 3 1000.

(** After start-up, nothing pending, nothing received yet. *)
Definition world_running : World :=
  mkWorld 4096 3 1000 Indeterminate 800 600 (Some 77) [] 5 9.
(** After the close request and the destruction of the window. *)
Definition world_closed : World :=
  mkWorld 0 0 1000 Indeterminate 800 600 None [] 5 0.

(** The Application is gone; the window and the vertex array are still
    there. *)
Definition world_app_gone : World :=
  mkWorld 0 3 1000 Indeterminate 800 600 (Some 77) [] 5 9.

Definition msg_close : MSG := mkMSG 77 WM_CLOSE 0 0.
Definition msg_destroy : MSG := mkMSG 77 WM_DESTROY 0 0.
Definition msg_close_command : MSG := mkMSG 77 WM_SYSCOMMAND SC_CLOSE 0.
Definition msg_key_A : MSG := mkMSG 77 WM_KEYDOWN 65 0.
Definition msg_key_B : MSG := mkMSG 77 WM_KEYDOWN 66 0.
Definition rect_800x600 : RECT := mkRECT 0 0 800 600.

(** Two key strokes are pending. *)
Definition world_two_keys : World :=
  mkWorld 4096 3 1000 Indeterminate 800 600 (Some 77) [msg_key_A; msg_key_B] 5 9.
(** A key stroke was handled in an earlier pass; nothing is pending. *)
Definition world_after_key : World :=
  mkWorld 4096 3 1000 (Stored msg_key_A) 800 600 (Some 77) [] 5 9.

(** A pass during which nothing arrives, and passes during which one
    message arrives, 16 ms after [world_running]. *)
Definition frame_idle : FrameInput := mkFrameInput [] 1016 rect_800x600.
Definition frame_quit : FrameInput := mkFrameInput [quit0] 1016 rect_800x600.
Definition frame_close : FrameInput := mkFrameInput [msg_close] 1016 rect_800x600.
Definition frame_destroy : FrameInput := mkFrameInput [msg_destroy] 1016 rect_800x600.

(** A run: an idle pass, the close request, and the pass after it. *)
Definition run_until_closed : list FrameInput :=
  [frame_idle; frame_close; frame_idle].

(** ** Reading runs: further projections of worlds and traces *)

(** The message [DispatchMessage] hands to the window procedure in a
    world, if any. *)
Definition reaches_WndProc (w : World) : option MSG :=
  match msg w, os_window w with
  | Stored m, Some h => if h =? MSG_hwnd m then Some m else None
  | _, _ => None
  end.

Definition head_is_quit (pending : list MSG) : bool :=
  match pending with
  | m :: _ => message m =? WM_QUIT
  | [] => false
  end.

(** 1 once [gApplication] is null, 1 once [gVertexArrayObject] is 0. *)
Definition deleted (w : World) : nat := if gApplication w =? 0 then 1 else 0.
Definition torn_down (w : World) : nat :=
  if gVertexArrayObject w =? 0 then 1 else 0.

Definition is_Initialize (e : Event) : bool :=
  match e with App_Initialize _ => true | _ => false end.
Definition is_Update (e : Event) : bool :=
  match e with App_Update _ _ => true | _ => false end.
Definition is_Render (e : Event) : bool :=
  match e with App_Render _ _ => true | _ => false end.
Definition is_PostQuit (e : Event) : bool :=
  match e with Call_PostQuitMessage _ => true | _ => false end.
Definition is_wglDeleteContext (e : Event) : bool :=
  match e with Call_wglDeleteContext _ => true | _ => false end.
Definition is_glDeleteVertexArrays (e : Event) : bool :=
  match e with Call_glDeleteVertexArrays _ _ => true | _ => false end.
Definition is_SwapBuffers (e : Event) : bool :=
  match e with Call_SwapBuffers _ => true | _ => false end.
Definition is_glFinish (e : Event) : bool :=
  match e with Call_glFinish => true | _ => false end.
Definition is_DefWindowProc (e : Event) : bool :=
  match e with Call_DefWindowProc _ _ _ _ => true | _ => false end.

(** The kinds of call the window procedure makes. *)
Definition handler_event (e : Event) : bool :=
  match e with
  | App_Shutdown _ | App_delete _ | Store_gApplication _
  | Store_gVertexArrayObject _ | cout _ | Call_DestroyWindow _
  | Call_DefWindowProc _ _ _ _ | Call_GetDC _ | Call_ReleaseDC _ _
  | Call_PostQuitMessage _ | Call_wglMakeCurrent _ _ | Call_wglDeleteContext _
  | Call_glBindVertexArray _ | Call_glDeleteVertexArrays _ _ => true
  | _ => false
  end.

(** The kinds of call the update, render and present blocks make. *)
Definition frame_event (e : Event) : bool :=
  match e with
  | App_Update _ _ | App_Render _ _ | Call_glViewport _ _ _ _
  | Call_glEnable_DEPTH_TEST | Call_glEnable_CULL_FACE | Call_glPointSize _
  | Call_glBindVertexArray _ | Call_glClearColor _ _ _ _
  | Call_glClear_COLOR_DEPTH_STENCIL | Call_SwapBuffers _ | Call_glFinish => true
  | _ => false
  end.

(** The kinds of call start-up makes before Initialize. *)
Definition startup_event (e : Event) : bool :=
  match e with
  | Store_gApplication _ | Call_CreateWindowEx _ _ _ _ | Call_GetDC _
  | Call_wglMakeCurrent _ _ | Call_wglSwapIntervalEXT _ | cout _
  | Call_glGenVertexArrays _ | Call_glBindVertexArray _
  | Call_ShowWindow _ | Call_UpdateWindow _ => true
  | _ => false
  end.

(** The object a call on the Application is made on. *)
Definition app_this (e : Event) : option Z :=
  match e with
  | App_Initialize p | App_Update p _ | App_Render p _
  | App_Shutdown p | App_delete p => Some p
  | _ => None
  end.
Definition on_object (p : Z) (e : Event) : Prop :=
  match app_this e with Some q => q = p | None => True end.

(** The delta times handed to Update and the buffers handed to
    DispatchMessage, in the order of the trace. *)
Definition Update_args (evs : list Event) : list float :=
  flat_map (fun e => match e with App_Update _ dt => [dt] | _ => [] end) evs.
Definition dispatched (evs : list Event) : list MsgBuf :=
  flat_map (fun e => match e with Call_DispatchMessage b => [b] | _ => [] end) evs.

(** The delta times of successive ticks, starting from [last]. *)
Fixpoint deltas (last : DWORD) (ticks : list DWORD) : list float :=
  match ticks with
  | [] => []
  | t :: rest => delta_time t last :: deltas t rest
  end.

(** Kinds of message. *)
Definition is_destroy (m : MSG) : bool := message m =? WM_DESTROY.

(** [p] holds of the message in the buffer, if there is one. *)
Definition buffer_all (p : MSG -> bool) (b : MsgBuf) : bool :=
  match b with
  | Indeterminate => true
  | Stored m => p m
  end.

(** The messages whose handling can lead to the close handler: a close
    request, and the close command, which default processing turns into
    one. *)
Definition closes (iMsg : UINT) (wp : WPARAM) : bool :=
  (iMsg =? WM_CLOSE) || ((iMsg =? WM_SYSCOMMAND) && (Z.land wp 65520 =? SC_CLOSE)).

(** What the window procedure does in one call, beyond [pump_effect]. *)
Definition handler_summary (iMsg : UINT) (wp : WPARAM) (w w' : World)
  (evs : list Event) : Prop :=
  forallb handler_event evs = true
  /\ (occurrences is_delete evs + deleted w = deleted w')%nat
  /\ (occurrences is_PostQuit evs + torn_down w = torn_down w')%nat
  /\ (occurrences is_wglDeleteContext evs = occurrences is_PostQuit evs
      /\ occurrences is_glDeleteVertexArrays evs = occurrences is_PostQuit evs)
  /\ os_queue w' = os_queue w ++ repeat quit0 (occurrences is_PostQuit evs)
  /\ (gApplication w' = gApplication w \/ gApplication w' = 0)
  /\ (forall p, gApplication w = p \/ gApplication w = 0 ->
                Forall (on_object p) evs)
  /\ (msg w' = msg w /\ lastTick w' = lastTick w)
  /\ (closes iMsg wp = false ->
      gApplication w' = gApplication w
      /\ os_window w' = os_window w
      /\ occurrences is_Shutdown evs = 0%nat)
  /\ (closes iMsg wp = false -> iMsg <> WM_DESTROY ->
      w' = w /\ occurrences is_DefWindowProc evs = List.length evs).

(** The value [vsynch] holds after lines 186-199. *)
Definition negotiated_vsynch (env : Startup) : Z :=
  if swapControlSupported env then
    if wglSwapIntervalEXT_result env then wglGetSwapIntervalEXT_result env else 0
  else 0.

(** A relation that counts the calls [p] in the trace against a measure
    of the world. *)
Definition counts (p : Event -> bool) (measure : World -> nat)
  (w w' : World) (evs : list Event) : Prop :=
  (occurrences p evs + measure w = measure w')%nat.

(** A world whose pending messages and stored message all satisfy [ok]
    and which satisfies [I]. *)
Definition filtered (ok : MSG -> bool) (I : World -> Prop) (w : World) : Prop :=
  I w /\ forallb ok (os_queue w) = true /\ buffer_all ok (msg w) = true.

(** WM_PAINT or WM_ERASEBKGND: the messages the procedure swallows. *)
Definition is_paint_or_erase (m : MSG) : bool :=
  (message m =? WM_PAINT) || (message m =? WM_ERASEBKGND).

(** The messages whose handling stays within this program's own
    handlers and cannot reach a close: WM_DESTROY (its default
    processing does nothing), WM_QUIT (never dispatched) and the two
    messages the procedure swallows. *)
Definition never_closes (m : MSG) : bool :=
  is_destroy m || is_quit m || is_paint_or_erase m.

(** Every message that arrives during the run satisfies [ok]. *)
Definition posts_only (ok : MSG -> bool) (inps : list FrameInput) : bool :=
  forallb (fun inp => forallb ok (arrivals inp)) inps.

(** A start-up in which glGenVertexArrays leaves the handle 0, and a run
    in which the window is destroyed without a close request. *)
Definition sample_env_no_vertex_array : Startup :=
  mkStartup 4096 1920 1080 8 31 8 8 77 5 9 true true 1 0 1000.
Definition run_destroyed : list FrameInput := [frame_destroy; frame_idle].

(** Three passes, 16, 16 and 33 ms apart, with a paint message arriving
    in the second. *)
Definition msg_paint : MSG := mkMSG 77 WM_PAINT 0 0.
Definition run_three_frames : list FrameInput :=
  [mkFrameInput [] 1016 rect_800x600;
   mkFrameInput [msg_paint] 1032 rect_800x600;
   mkFrameInput [] 1065 rect_800x600].

(** A 1000 x 650 display: the framed window (816 x 639) fits, yet its
    computed top edge is at -6. *)
Definition sample_env_small : Startup :=
  mkStartup 4096 1000 650 8 31 8 8 77 5 9 true true 1 3 1000.

(** A pass with a minimised window: the client rectangle is empty. *)
Definition frame_minimised : FrameInput := mkFrameInput [] 1016 (mkRECT 0 0 0 0).

(** A quit message carrying 7, posted from outside, and a run that
    receives it in its second pass. *)
Definition msg_quit_7 : MSG := mkMSG 0 WM_QUIT 7 0.
Definition run_quit_7 : list FrameInput :=
  [frame_idle; mkFrameInput [msg_quit_7] 1032 rect_800x600].

(** ** The protocol of calls on the Application *)

(** Where the Application stands between [new] and [delete]. *)
Inductive Phase := Unborn | Idle | Updated | Stopped | Gone.

(** One call moves the phase or breaks the protocol: Initialize first,
    then Update and Render in turn, Shutdown only between two frames,
    [delete] last. *)
Definition protocol_step (s : Phase) (e : Event) : option Phase :=
  match e with
  | App_Initialize _ => match s with Unborn => Some Idle | _ => None end
  | App_Update _ _ => match s with Idle => Some Updated | _ => None end
  | App_Render _ _ => match s with Updated => Some Idle | _ => None end
  | App_Shutdown _ => match s with Idle => Some Stopped | _ => None end
  | App_delete _ => match s with Idle | Stopped => Some Gone | _ => None end
  | _ => Some s
  end.

Fixpoint protocol (s : Phase) (evs : list Event) : option Phase :=
  match evs with
  | [] => Some s
  | e :: rest =>
      match protocol_step s e with
      | Some s' => protocol s' rest
      | None => None
      end
  end.

(** The phase [gApplication] stands for between two passes of the loop. *)
Definition in_phase (s : Phase) (w : World) : Prop :=
  (s = Idle /\ gApplication w <> 0) \/ (s = Gone /\ gApplication w = 0).

Definition follows_protocol (w w' : World) (evs : list Event) : Prop :=
  forall s, in_phase s w ->
            exists s', protocol s evs = Some s' /\ in_phase s' w'.

(** ** The rendering context *)

(** The contexts handed to [wglDeleteContext] and to [wglMakeCurrent],
    in the order of the trace. *)
Definition deleted_contexts (evs : list Event) : list HGLRC :=
  flat_map (fun e => match e with Call_wglDeleteContext h => [h] | _ => [] end) evs.
Definition made_current (evs : list Event) : list HGLRC :=
  flat_map (fun e => match e with Call_wglMakeCurrent _ h => [h] | _ => [] end) evs.

(** Either the context is left alone, or the one that was current is
    unbound and deleted, once, together with the vertex array. *)
Definition releases_context (w w' : World) (evs : list Event) : Prop :=
  (gVertexArrayObject w' = gVertexArrayObject w
   /\ deleted_contexts evs = [] /\ made_current evs = []
   /\ os_context w' = os_context w)
  \/ (gVertexArrayObject w <> 0 /\ gVertexArrayObject w' = 0
      /\ deleted_contexts evs = [os_context w] /\ made_current evs = [0]
      /\ os_context w' = 0).

(** The order of the calls on the context [c], read off a trace: while
    it is [Bound] the only WGL call allowed is wglMakeCurrent(NULL,
    NULL); the very next call must then be wglDeleteContext(c); once it
    is [Released] no WGL call is allowed any more. *)
Inductive ContextPhase := Bound | Unbound | Released.

Definition context_step (c : HGLRC) (s : ContextPhase) (e : Event)
  : option ContextPhase :=
  match e with
  | Call_wglMakeCurrent hdc h =>
      match s with
      | Bound => if (hdc =? 0) && (h =? 0) then Some Unbound else None
      | _ => None
      end
  | Call_wglDeleteContext h =>
      match s with
      | Unbound => if h =? c then Some Released else None
      | _ => None
      end
  | _ =>
      match s with
      | Unbound => None
      | _ => Some s
      end
  end.

Fixpoint context_order (c : HGLRC) (s : ContextPhase) (evs : list Event)
  : option ContextPhase :=
  match evs with
  | [] => Some s
  | e :: rest =>
      match context_step c s e with
      | Some s' => context_order c s' rest
      | None => None
      end
  end.

(** The phase the world stands for between two calls of the procedure. *)
Definition in_context_phase (c : HGLRC) (s : ContextPhase) (w : World) : Prop :=
  (s = Bound /\ os_context w = c)
  \/ (s = Released /\ os_context w = 0 /\ gVertexArrayObject w = 0).

Definition keeps_context_order (c : HGLRC) (w w' : World) (evs : list Event)
  : Prop :=
  forall s, in_context_phase c s w ->
            exists s', context_order c s evs = Some s' /\ in_context_phase c s' w'.

(** ** Presenting the frame *)

(** The order of SwapBuffers and glFinish, read off a trace: [due] says
    that glFinish is due as the very next call.  With [vsynch] non-zero
    every SwapBuffers makes glFinish due; glFinish is allowed only when
    due, and nothing else is allowed while it is due. *)
Definition present_step (vsynch : Z) (due : bool) (e : Event) : option bool :=
  match e with
  | Call_SwapBuffers _ => if due then None else Some (negb (vsynch =? 0))
  | Call_glFinish => if due then Some false else None
  | _ => if due then None else Some false
  end.

Fixpoint present_order (vsynch : Z) (due : bool) (evs : list Event) : option bool :=
  match evs with
  | [] => Some due
  | e :: rest =>
      match present_step vsynch due e with
      | Some due' => present_order vsynch due' rest
      | None => None
      end
  end.

(** ** Elapsed time *)

(** The delta time of a whole number of milliseconds, as line 235
    computes it, and the successive differences of a list of times. *)
Definition dt_of_ms (ms : Z) : float := FMul (FOfDWORD ms) (FLit (1 # 1000)).

Fixpoint gaps (last : Z) (times : list Z) : list Z :=
  match times with
  | [] => []
  | t :: rest => (t - last) :: gaps t rest
  end.

(** Times, in milliseconds since the system started, each at most one
    turn of the 32-bit counter after the one before. *)
Fixpoint steady (last : Z) (times : list Z) : bool :=
  match times with
  | [] => true
  | t :: rest => (last <=? t) && (t - last <? 2 ^ 32) && steady t rest
  end.

(** Two idle passes on either side of a roll-over of the counter. *)
Definition run_across_rollover : list FrameInput :=
  [mkFrameInput [] 4294967290 rect_800x600; mkFrameInput [] 10 rect_800x600].
Definition sample_env_late : Startup :=
  mkStartup 4096 1920 1080 8 31 8 8 77 5 9 true true 1 3 4294967280.

(** ** The report of the loader *)

(** Lines 165-166.  After [gladLoadGL] the program writes either the
    failure line or a version line.  The version line is built by adding
    [GLVersion.major] to the address of the literal, so the text is read
    from that character on; the literal holds [length s] characters and
    its terminator, and an offset outside that array is a fault.  The
    minor version is written in decimal. *)
Fixpoint string_from (n : nat) (s : string) : string :=
  match n, s with
  | O, _ => s
  | S n, String _ rest => string_from n rest
  | S _, EmptyString => EmptyString
  end.

Definition literal_plus (s : string) (k : Z) : option string :=
  if (0 <=? k) && (k <=? Z.of_nat (String.length s))
  then Some (string_from (Z.to_nat k) s)
  else None.

Definition print_int (n : Z) : string := NilZero.string_of_int (Z.to_int n).

Definition gladLoadGL_report (loaded : bool) (major minor : Z) : Host unit :=
  if negb loaded then emit (cout ("Couldn't initialize GLAD" ++ endl))
  else
    fun w =>
      match literal_plus "OpenGL Version:" major with
      | Some s => emit (cout (s ++ "." ++ print_int minor ++ endl)) w
      | None => None
      end.

(** ** Proofs *)

#[local] Arguments String.append : simpl never.

Ltac run_host :=
  unfold WndProc, DefWindowProc, os_send_WM_CLOSE, WndProc_closing,
    DestroyWindow, os_destroy, WndProc_destroying, os_nothing,
    DestroyWindow_nested, DefWindowProc_with, WndProc_with, PostQuitMessage, GetDC, ReleaseDC, wglGetCurrentContext,
    wglMakeCurrent, wglDeleteContext, assign_gApplication,
    assign_gVertexArrayObject, delete_gApplication, call_gApplication,
    bind, ret, emit, gets, modify; simpl.

(** Runs a computation symbolically, splitting on each guard it meets. *)
Ltac host_steps :=
  repeat (simpl;
          match goal with
          | H : (?x =? ?y) = _ |- context [?x =? ?y] => rewrite H
          | H : os_window ?w = _
            |- context [match os_window ?w with _ => _ end] => rewrite H
          | |- context [if negb (?x =? ?y) then _ else _] =>
              destruct (x =? y) eqn:?
          | |- context [if ?x =? ?y then _ else _] => destruct (x =? y) eqn:?
          | |- context [match os_window ?w with _ => _ end] =>
              destruct (os_window w) eqn:?
          | |- context [if ?b then _ else _] => destruct b eqn:?
          end).

(** *** The window procedure *)

(** C1, as stated, fails: with the Application already gone and the
    window still there, a close request is not a no-op apart from the
    diagnostic line.  The handler breaks out of the switch and hands
    WM_CLOSE to DefWindowProc, whose default processing destroys the
    window: the destroy handler runs, the render surface is torn down
    and the quit message is posted. *)
Lemma WndProc_WM_CLOSE_without_Application_destroys_window :
  gApplication world_app_gone = 0
  /\ os_window world_app_gone = Some 77
  /\ (exists w',
        WndProc 77 WM_CLOSE 0 0 world_app_gone =
          Some (0, w',
                [cout ("Already shut down gApplication!" ++ endl);
                 Call_DefWindowProc 77 WM_CLOSE 0 0;
                 Call_GetDC 77;
                 Call_glBindVertexArray 0;
                 Call_glDeleteVertexArrays 1 3;
                 Store_gVertexArrayObject 0;
                 Call_wglMakeCurrent 0 0;
                 Call_wglDeleteContext 9;
                 Call_ReleaseDC 77 5;
                 Call_PostQuitMessage 0;
                 Call_DefWindowProc 77 WM_DESTROY 0 0])
        /\ os_window w' = None
        /\ gVertexArrayObject w' = 0
        /\ os_queue w' = [quit0])
  /\ ~ (forall w hwnd wp lp,
          gApplication w = 0 ->
          exists r evs,
            WndProc hwnd WM_CLOSE wp lp w = Some (r, w, evs)
            /\ occurrences is_Shutdown evs = 0%nat
            /\ occurrences is_delete evs = 0%nat
            /\ occurrences is_DestroyWindow evs = 0%nat).
Proof.
  split; [reflexivity|]. split; [reflexivity|]. split.
  - eexists. split; [vm_compute; reflexivity|]. repeat split.
  - intro claim.
    destruct (claim world_app_gone 77 0 0 eq_refl) as (r & evs & Hrun & _).
    vm_compute in Hrun. discriminate.
Qed.

(** C1, amended.  WM_CLOSE with a live Application: Shutdown, delete,
    the store of the null pointer and the DestroyWindow request, in this
    order, each once, leaving [gApplication] null.  WM_CLOSE with
    [gApplication] already null: no Shutdown, no delete and no
    DestroyWindow call; the diagnostic line is written and the message
    goes to DefWindowProc (as it does in both branches), whose default
    processing destroys the window if it still exists, which runs the
    destroy handler; when the window is already gone nothing changes. *)
Theorem WndProc_WM_CLOSE :
  forall (w : World) (hwnd : HWND) (wp : WPARAM) (lp : LPARAM),
    (gApplication w <> 0 ->
     exists w' rest,
       WndProc hwnd WM_CLOSE wp lp w =
         Some (0, w',
               App_Shutdown (gApplication w) :: App_delete (gApplication w)
                 :: Store_gApplication 0 :: Call_DestroyWindow hwnd :: rest)
       /\ gApplication w' = 0
       /\ occurrences is_Shutdown rest = 0%nat
       /\ occurrences is_delete rest = 0%nat
       /\ occurrences is_DestroyWindow rest = 0%nat)
    /\ (gApplication w = 0 ->
        exists w' rest,
          WndProc hwnd WM_CLOSE wp lp w =
            Some (0, w',
                  cout ("Already shut down gApplication!" ++ endl)
                    :: Call_DefWindowProc hwnd WM_CLOSE wp lp :: rest)
          /\ os_destroy hwnd w = Some (tt, w', rest)
          /\ gApplication w' = 0
          /\ occurrences is_Shutdown rest = 0%nat
          /\ occurrences is_delete rest = 0%nat
          /\ occurrences is_DestroyWindow rest = 0%nat
          /\ (os_window w <> Some hwnd -> w' = w /\ rest = [])
          /\ (os_window w = Some hwnd -> os_window w' = None)).
Proof.
  intros w hwnd wp lp; split; intro H.
  - apply Z.eqb_neq in H.
    run_host. host_steps. all: eexists; eexists; repeat split.
  - run_host. rewrite H. host_steps.
    all: eexists; eexists; (split; [reflexivity|]).
    all: repeat match goal with
                | E : (_ =? _) = true |- _ => apply Z.eqb_eq in E
                | E : (_ =? _) = false |- _ => apply Z.eqb_neq in E
                end.
    all: repeat split; simpl; try assumption; try discriminate;
      try (intros; congruence);
      try (destruct w; simpl in *; congruence).
Qed.

Lemma WndProc_WM_CLOSE_witness :
  (exists w' rest,
     WndProc 77 WM_CLOSE 0 0 world_running =
       Some (0, w',
             App_Shutdown 4096 :: App_delete 4096
               :: Store_gApplication 0 :: Call_DestroyWindow 77 :: rest)
     /\ gApplication w' = 0
     /\ occurrences is_Shutdown rest = 0%nat
     /\ occurrences is_delete rest = 0%nat
     /\ occurrences is_DestroyWindow rest = 0%nat)
  /\ (exists w' rest,
        WndProc 77 WM_CLOSE 0 0 world_app_gone =
          Some (0, w',
                cout ("Already shut down gApplication!" ++ endl)
                  :: Call_DefWindowProc 77 WM_CLOSE 0 0 :: rest)
        /\ os_destroy 77 world_app_gone = Some (tt, w', rest)
        /\ gApplication w' = 0
        /\ occurrences is_Shutdown rest = 0%nat
        /\ occurrences is_delete rest = 0%nat
        /\ occurrences is_DestroyWindow rest = 0%nat
        /\ (os_window world_app_gone <> Some 77 -> w' = world_app_gone /\ rest = [])
        /\ (os_window world_app_gone = Some 77 -> os_window w' = None)).
Proof.
  split.
  - apply (proj1 (WndProc_WM_CLOSE world_running 77 0 0)). discriminate.
  - apply (proj2 (WndProc_WM_CLOSE world_app_gone 77 0 0)). reflexivity.
Defined.

(** C3.  WM_DESTROY while [gVertexArrayObject] is non-zero: the vertex
    array is unbound and deleted, the handle is set to 0, the current
    context is released and deleted, the device context is released and
    the quit message carrying 0 is posted, in this order; a WM_DESTROY
    handled in the world this leaves, or in any world whose handle is 0,
    writes the diagnostic line only: no tear-down call, no second quit
    message, no change of the world. *)
Theorem WndProc_WM_DESTROY_idempotent :
  forall (w : World) (hwnd : HWND) (wp : WPARAM) (lp : LPARAM),
    (gVertexArrayObject w <> 0 ->
     exists w',
       WndProc hwnd WM_DESTROY wp lp w =
         Some (0, w',
               [Call_GetDC hwnd;
                Call_glBindVertexArray 0;
                Call_glDeleteVertexArrays 1 (gVertexArrayObject w);
                Store_gVertexArrayObject 0;
                Call_wglMakeCurrent 0 0;
                Call_wglDeleteContext (os_context w);
                Call_ReleaseDC hwnd (os_dc w);
                Call_PostQuitMessage 0;
                Call_DefWindowProc hwnd WM_DESTROY wp lp])
       /\ gVertexArrayObject w' = 0
       /\ os_queue w' = os_queue w ++ [mkMSG 0 WM_QUIT 0 0]
       /\ forall wp' lp',
            WndProc hwnd WM_DESTROY wp' lp' w' =
              Some (0, w', [cout ("Display multiple error msgs" ++ endl);
                            Call_DefWindowProc hwnd WM_DESTROY wp' lp']))
    /\ (gVertexArrayObject w = 0 ->
        WndProc hwnd WM_DESTROY wp lp w =
          Some (0, w, [cout ("Display multiple error msgs" ++ endl);
                       Call_DefWindowProc hwnd WM_DESTROY wp lp])
        /\ occurrences is_teardown
             [cout ("Display multiple error msgs" ++ endl);
              Call_DefWindowProc hwnd WM_DESTROY wp lp] = 0%nat).
Proof.
  intros w hwnd wp lp; split; intro H.
  - apply Z.eqb_neq in H.
    run_host. host_steps. eexists; repeat split.
  - split; [| reflexivity].
    run_host. rewrite H. simpl. destruct w; reflexivity.
Qed.

Lemma WndProc_WM_DESTROY_idempotent_witness :
  (exists w',
     WndProc 77 WM_DESTROY 0 0 world_running =
       Some (0, w',
             [Call_GetDC 77;
              Call_glBindVertexArray 0;
              Call_glDeleteVertexArrays 1 3;
              Store_gVertexArrayObject 0;
              Call_wglMakeCurrent 0 0;
              Call_wglDeleteContext 9;
              Call_ReleaseDC 77 5;
              Call_PostQuitMessage 0;
              Call_DefWindowProc 77 WM_DESTROY 0 0])
     /\ gVertexArrayObject w' = 0
     /\ os_queue w' = [mkMSG 0 WM_QUIT 0 0]
     /\ forall wp' lp',
          WndProc 77 WM_DESTROY wp' lp' w' =
            Some (0, w', [cout ("Display multiple error msgs" ++ endl);
                          Call_DefWindowProc 77 WM_DESTROY wp' lp']))
  /\ WndProc 77 WM_DESTROY 0 0 world_closed =
       Some (0, world_closed,
             [cout ("Display multiple error msgs" ++ endl);
              Call_DefWindowProc 77 WM_DESTROY 0 0]).
Proof.
  split.
  - apply (proj1 (WndProc_WM_DESTROY_idempotent world_running 77 0 0)).
    discriminate.
  - apply (proj2 (WndProc_WM_DESTROY_idempotent world_closed 77 0 0)).
    reflexivity.
Defined.

(** *** Traces and the life cycle *)

Lemma lifecycle_app :
  forall e1 e2 s,
    lifecycle s (e1 ++ e2) =
      match lifecycle s e1 with
      | Some s' => lifecycle s' e2
      | None => None
      end.
Proof.
  induction e1 as [|e e1 IH]; intros e2 s; simpl; [reflexivity|].
  destruct (is_Shutdown e); [destruct s; auto|].
  destruct (is_Update_or_Render e); [destruct s; auto|]. auto.
Qed.

Lemma lifecycle_shut_quiet :
  forall evs s,
    lifecycle true evs = Some s ->
    Forall (fun e => is_Shutdown e = false /\ is_Update_or_Render e = false) evs.
Proof.
  induction evs as [|e evs IH]; intros s H; simpl in H; constructor.
  - destruct (is_Shutdown e); [discriminate|].
    destruct (is_Update_or_Render e); [discriminate|]. auto.
  - destruct (is_Shutdown e); [discriminate|].
    destruct (is_Update_or_Render e); [discriminate|]. eauto.
Qed.

Lemma quiet_no_Shutdown :
  forall evs,
    Forall (fun e => is_Shutdown e = false /\ is_Update_or_Render e = false) evs ->
    filter is_Shutdown evs = [].
Proof.
  induction 1 as [|x l [Hx _] _ IHl]; simpl; [reflexivity|].
  rewrite Hx. exact IHl.
Qed.

Lemma lifecycle_at_most_one_Shutdown :
  forall evs s s',
    lifecycle s evs = Some s' -> (occurrences is_Shutdown evs <= 1)%nat.
Proof.
  unfold occurrences.
  induction evs as [|e evs IH]; intros s s' H; simpl in *; [lia|].
  destruct (is_Shutdown e) eqn:E.
  - destruct s; [discriminate|].
    apply lifecycle_shut_quiet, quiet_no_Shutdown in H.
    simpl. rewrite H. simpl. lia.
  - destruct (is_Update_or_Render e); [destruct s; [discriminate|]|]; eauto.
Qed.

Lemma lifecycle_nothing_after_Shutdown :
  forall evs s s' pre e post,
    lifecycle s evs = Some s' ->
    evs = pre ++ e :: post ->
    is_Shutdown e = true ->
    Forall (fun e' => is_Shutdown e' = false /\ is_Update_or_Render e' = false) post.
Proof.
  intros evs s s' pre e post H -> He.
  rewrite lifecycle_app in H.
  destruct (lifecycle s pre) as [s1|]; [|discriminate].
  simpl in H. rewrite He in H. destruct s1; [discriminate|].
  eapply lifecycle_shut_quiet; eauto.
Qed.

Lemma life_effect_refl : forall w, life_effect w w [].
Proof. reflexivity. Qed.

Lemma life_effect_trans :
  forall w w1 w2 e1 e2,
    life_effect w w1 e1 -> life_effect w1 w2 e2 -> life_effect w w2 (e1 ++ e2).
Proof.
  unfold life_effect; intros * H1 H2. rewrite lifecycle_app, H1. exact H2.
Qed.

Lemma pump_effect_refl : forall w, pump_effect w w [].
Proof.
  intro w; repeat split; try constructor.
  exists (@nil MSG). rewrite app_nil_r. split; constructor.
Qed.

Lemma pump_effect_life : forall w w' evs, pump_effect w w' evs -> life_effect w w' evs.
Proof. intros * H; apply H. Qed.

(** *** What dispatching a message can do *)

Ltac solve_pump_effect :=
  unfold pump_effect, life_effect; simpl;
  repeat match goal with
         | H : (?x =? ?y) = _ |- context [?x =? ?y] => rewrite H
         end;
  simpl;
  split; [reflexivity |];
  split; [reflexivity |];
  split;
  [ first [ exists (@nil MSG); rewrite app_nil_r; split; [reflexivity | constructor]
          | exists (quit0 :: nil); split; [reflexivity | repeat constructor] ]
  | split; [reflexivity | repeat constructor] ].

Lemma WndProc_effect :
  forall hwnd iMsg wp lp w,
  exists r w' evs,
    WndProc hwnd iMsg wp lp w = Some (r, w', evs) /\ pump_effect w w' evs.
Proof.
  intros. run_host. host_steps.
  all: eexists; eexists; eexists; split; [reflexivity | solve_pump_effect].
Qed.

Lemma DispatchMessage_spec :
  forall w,
  exists w' evs,
    DispatchMessage w = Some (tt, w', Call_DispatchMessage (msg w) :: evs)
    /\ pump_effect w w' evs
    /\ (forall m,
          msg w = Stored m -> os_window w = Some (MSG_hwnd m) ->
          exists r,
            WndProc (MSG_hwnd m) (message m) (wParam m) (lParam m) w =
              Some (r, w', evs)).
Proof.
  intros w. unfold DispatchMessage, bind, gets, emit, ret; simpl.
  destruct (msg w) as [|m] eqn:Em.
  - exists w, []. split; [reflexivity|]. split; [apply pump_effect_refl|].
    discriminate.
  - destruct (os_window w) as [h|] eqn:Ew.
    + destruct (h =? MSG_hwnd m) eqn:Eh.
      * destruct (WndProc_effect (MSG_hwnd m) (message m) (wParam m) (lParam m) w)
          as (r & w1 & e1 & Hrun & Heff).
        rewrite Hrun. simpl. rewrite app_nil_r.
        exists w1, e1. split; [reflexivity|]. split; [exact Heff|].
        intros m' Hm' _. inversion Hm'; subst m'. eauto.
      * exists w, []. split; [reflexivity|]. split; [apply pump_effect_refl|].
        intros m' Hm' Hw. inversion Hm'; subst m'. inversion Hw; subst h.
        rewrite Z.eqb_refl in Eh. discriminate.
    + exists w, []. split; [reflexivity|]. split; [apply pump_effect_refl|].
      intros m' _ Hw. discriminate.
Qed.

(** *** The blocks of the loop body *)

Lemma translate_dispatch_spec :
  forall w,
  exists w' evs,
    (TranslateMessage ;; DispatchMessage ;; ret false) w =
      Some (false, w',
            Call_TranslateMessage (msg w) :: Call_DispatchMessage (msg w) :: evs)
    /\ pump_effect w w' evs
    /\ (forall m,
          msg w = Stored m -> os_window w = Some (MSG_hwnd m) ->
          exists r,
            WndProc (MSG_hwnd m) (message m) (wParam m) (lParam m) w =
              Some (r, w', evs)).
Proof.
  intro w.
  destruct (DispatchMessage_spec w) as (w' & evs & Hrun & Heff & Hproc).
  exists w', evs. split; [|split; assumption].
  unfold TranslateMessage, bind, gets, emit, ret; simpl.
  rewrite Hrun. simpl. rewrite app_nil_r. reflexivity.
Qed.

Lemma process_window_events_unfold :
  forall w,
    process_window_events w =
      match os_queue w with
      | [] => (TranslateMessage ;; DispatchMessage ;; ret false) w
      | m :: rest =>
          if message m =? WM_QUIT
          then Some (true, after_peek (m :: rest) w, [])
          else (TranslateMessage ;; DispatchMessage ;; ret false)
                 (after_peek (m :: rest) w)
      end.
Proof.
  intro w. unfold process_window_events, PeekMessage, read_msg.
  set (td := TranslateMessage ;; DispatchMessage ;; ret false).
  unfold bind, gets, modify, ret, after_peek; simpl.
  destruct (os_queue w) as [|m rest]; simpl.
  - destruct (td w) as [[[b w'] e]|]; reflexivity.
  - destruct (message m =? WM_QUIT); simpl; [reflexivity|].
    match goal with
    | |- context [td ?x] => destruct (td x) as [[[b w'] e]|]
    end; reflexivity.
Qed.

(** Lines 233-266 in one piece. *)
Lemma frame_spec :
  forall hdc vsynch inp w,
    (update_application inp ;; render_application inp ;;
     present hdc vsynch ;; ret Continue) w =
      if gApplication w =? 0 then
        Some (Continue, set_lastTick (GetTickCount_result inp) w, [])
      else
        let r := GetClientRect_result inp in
        let cw := to_int32 (RECT_right r - RECT_left r) in
        let ch := to_int32 (RECT_bottom r - RECT_top r) in
        Some (Continue,
              set_clientHeight ch
                (set_clientWidth cw (set_lastTick (GetTickCount_result inp) w)),
              [App_Update (gApplication w)
                 (delta_time (GetTickCount_result inp) (lastTick w));
               Call_glViewport 0 0 cw ch;
               Call_glEnable_DEPTH_TEST;
               Call_glEnable_CULL_FACE;
               Call_glPointSize (FLit 5);
               Call_glBindVertexArray (gVertexArrayObject w);
               Call_glClearColor (FLit (5 # 10)) (FLit (6 # 10)) (FLit (7 # 10))
                 (FLit 1);
               Call_glClear_COLOR_DEPTH_STENCIL;
               App_Render (gApplication w) (FDiv (FOfInt cw) (FOfInt ch));
               Call_SwapBuffers hdc]
              ++ (if vsynch =? 0 then [] else [Call_glFinish])).
Proof.
  intros. unfold update_application, render_application, present.
  run_host. host_steps; reflexivity.
Qed.

(** *** One pass of the loop *)

Lemma loop_body_unfold :
  forall hdc vsynch inp w,
    loop_body hdc vsynch inp w =
      match process_window_events (set_os_queue (os_queue w ++ arrivals inp) w) with
      | Some (true, w1, e1) => Some (Break, w1, e1 ++ [])
      | Some (false, w1, e1) =>
          match (update_application inp ;; render_application inp ;;
                 present hdc vsynch ;; ret Continue) w1 with
          | Some (c, w2, e2) => Some (c, w2, e1 ++ e2)
          | None => None
          end
      | None => None
      end.
Proof.
  intros. unfold loop_body, os_post.
  unfold bind at 1. unfold modify at 1. 
  unfold bind at 1. 
  destruct (process_window_events _) as [[[[|] w1] e1]|]; simpl; try reflexivity.
  match goal with
  | |- context [bind ?a ?k w1] => destruct (bind a k w1) as [[[c w2] e2]|]
  end; reflexivity.
Qed.

Lemma loop_body_quit :
  forall hdc vsynch inp w m rest,
    os_queue w ++ arrivals inp = m :: rest ->
    message m = WM_QUIT ->
    loop_body hdc vsynch inp w = Some (Break, after_peek (m :: rest) w, []).
Proof.
  intros * Hq Hm. rewrite loop_body_unfold, process_window_events_unfold.
  cbn [os_queue set_os_queue]. rewrite Hq, Hm. reflexivity.
Qed.

Lemma loop_body_continue :
  forall hdc vsynch inp w,
    (forall m rest, os_queue w ++ arrivals inp = m :: rest -> message m <> WM_QUIT) ->
    let w0 := after_peek (os_queue w ++ arrivals inp) w in
    exists w1 evs1 w' evsF,
      pump_effect w0 w1 evs1
      /\ (forall m,
            msg w0 = Stored m -> os_window w0 = Some (MSG_hwnd m) ->
            exists r,
              WndProc (MSG_hwnd m) (message m) (wParam m) (lParam m) w0 =
                Some (r, w1, evs1))
      /\ (update_application inp ;; render_application inp ;;
          present hdc vsynch ;; ret Continue) w1 = Some (Continue, w', evsF)
      /\ loop_body hdc vsynch inp w =
           Some (Continue, w',
                 Call_TranslateMessage (msg w0) :: Call_DispatchMessage (msg w0)
                   :: evs1 ++ evsF).
Proof.
  intros * Hq w0.
  destruct (translate_dispatch_spec w0) as (w1 & evs1 & Hrun & Heff & Hproc).
  exists w1, evs1.
  assert (Hpwe : process_window_events (set_os_queue (os_queue w ++ arrivals inp) w)
                 = Some (false, w1, Call_TranslateMessage (msg w0)
                                      :: Call_DispatchMessage (msg w0) :: evs1)).
  { rewrite process_window_events_unfold. cbn [os_queue set_os_queue].
    subst w0. destruct (os_queue w ++ arrivals inp) as [|m rest] eqn:E.
    - exact Hrun.
    - specialize (Hq m rest eq_refl). apply Z.eqb_neq in Hq. rewrite Hq.
      exact Hrun. }
  rewrite loop_body_unfold, Hpwe, frame_spec.
  destruct (gApplication w1 =? 0); eexists; eexists;
    (split; [exact Heff | split; [exact Hproc | split; reflexivity]]).
Qed.

(** *** The pass that finds the quit message *)

(** C2, as stated, fails: with the Application alive and WM_QUIT the
    oldest pending message, the pass that retrieves it leaves the loop
    without a single call; so it is not the case that every such pass
    still updates, renders and presents. *)
Lemma loop_body_quit_skips_frame :
  gApplication world_running <> 0
  /\ os_queue world_running ++ arrivals frame_quit = [quit0]
  /\ loop_body 5 1 frame_quit world_running =
       Some (Break, set_msg (Stored quit0) world_running, [])
  /\ ~ (forall hdc vsynch inp w m rest,
          os_queue w ++ arrivals inp = m :: rest ->
          message m = WM_QUIT ->
          gApplication w <> 0 ->
          exists c w' evs,
            loop_body hdc vsynch inp w = Some (c, w', evs)
            /\ (exists dt, In (App_Update (gApplication w) dt) evs)
            /\ (exists aspect, In (App_Render (gApplication w) aspect) evs)
            /\ In (Call_SwapBuffers hdc) evs).
Proof.
  split; [discriminate|]. split; [reflexivity|]. split; [reflexivity|].
  intro claim.
  destruct (claim 5 1 frame_quit world_running quit0 [] eq_refl eq_refl)
    as (c & w' & evs & Hrun & _ & _ & Hswap); [discriminate|].
  vm_compute in Hrun. inversion Hrun; subst. exact Hswap.
Qed.

(** C2, amended.  The loop is left in the very pass whose peek retrieves
    the quit message, at once: that pass makes no call (no translation,
    no dispatch, no Update, Render or SwapBuffers), [msg] holds the quit
    message, and the passes that would follow never run. *)
Theorem loop_exits_in_the_pass_that_finds_quit :
  forall hdc vsynch inp more w m rest,
    os_queue w ++ arrivals inp = m :: rest ->
    message m = WM_QUIT ->
    loop_body hdc vsynch inp w = Some (Break, after_peek (m :: rest) w, [])
    /\ game_loop hdc vsynch (inp :: more) w =
         Some (Some tt, after_peek (m :: rest) w, [])
    /\ msg (after_peek (m :: rest) w) = Stored m.
Proof.
  intros * Hq Hm.
  pose proof (loop_body_quit hdc vsynch inp w m rest Hq Hm) as Hrun.
  split; [exact Hrun|]. split; [|reflexivity].
  simpl. unfold bind. rewrite Hrun. reflexivity.
Qed.

Lemma loop_exits_in_the_pass_that_finds_quit_witness :
  loop_body 5 1 frame_quit world_running =
    Some (Break, after_peek [quit0] world_running, [])
  /\ game_loop 5 1 [frame_quit; frame_idle] world_running =
       Some (Some tt, after_peek [quit0] world_running, [])
  /\ msg (after_peek [quit0] world_running) = Stored quit0.
Proof.
  apply (loop_exits_in_the_pass_that_finds_quit
           5 1 frame_quit [frame_idle] world_running quit0 []);
    reflexivity.
Defined.

(** *** What one pass does to the queue *)

Lemma frame_keeps :
  forall hdc vsynch inp w c w' evs,
    (update_application inp ;; render_application inp ;;
     present hdc vsynch ;; ret Continue) w = Some (c, w', evs) ->
    c = Continue
    /\ os_queue w' = os_queue w
    /\ msg w' = msg w
    /\ gApplication w' = gApplication w
    /\ lastTick w' = GetTickCount_result inp
    /\ life_effect w w' evs.
Proof.
  intros * H. rewrite frame_spec in H. unfold life_effect.
  destruct (gApplication w =? 0) eqn:E; inversion H; subst; clear H; simpl;
    rewrite ?E; repeat split.
  destruct (vsynch =? 0); reflexivity.
Qed.

Lemma set_os_queue_same :
  forall w, os_queue w = [] -> set_os_queue [] w = w.
Proof. intros [] H; simpl in *; subst; reflexivity. Qed.

(** C6, as stated, fails: with two key strokes pending, one pass takes
    and dispatches the first and leaves the second in the queue,
    undispatched. *)
Lemma loop_body_leaves_second_message :
  (exists w' evs,
     loop_body 5 1 frame_idle world_two_keys = Some (Continue, w', evs)
     /\ os_queue w' = [msg_key_B]
     /\ In (Call_DispatchMessage (Stored msg_key_A)) evs
     /\ ~ In (Call_DispatchMessage (Stored msg_key_B)) evs)
  /\ ~ (forall hdc vsynch inp w w' evs,
          loop_body hdc vsynch inp w = Some (Continue, w', evs) ->
          forall m, In m (os_queue w ++ arrivals inp) ->
                    In (Call_DispatchMessage (Stored m)) evs).
Proof.
  assert (Hno : forall evs w',
             loop_body 5 1 frame_idle world_two_keys = Some (Continue, w', evs) ->
             ~ In (Call_DispatchMessage (Stored msg_key_B)) evs).
  { intros evs w' Hrun. vm_compute in Hrun. inversion Hrun; subst; clear Hrun.
    simpl. intuition discriminate. }
  split.
  - eexists; eexists. split; [vm_compute; reflexivity|].
    split; [reflexivity|]. split; [simpl; auto|].
    eapply Hno. vm_compute. reflexivity.
  - intro claim.
    assert (Hrun : exists w' evs,
               loop_body 5 1 frame_idle world_two_keys = Some (Continue, w', evs)).
    { eexists; eexists. vm_compute. reflexivity. }
    destruct Hrun as (w' & evs & Hrun).
    apply (Hno evs w' Hrun).
    apply (claim 5 1 frame_idle world_two_keys w' evs Hrun).
    simpl. auto.
Qed.

(** C6, amended.  Every pass returns, whether or not a message was
    pending, and its single non-blocking peek takes at most one message
    out of the queue, the oldest: all messages behind it are still
    pending afterwards (followed by what the handlers posted).  The
    message taken is in [msg]; unless it is the quit message it is
    passed to TranslateMessage and DispatchMessage, and reaches the
    window procedure when it names the window. *)
Theorem loop_body_takes_one_message :
  forall hdc vsynch inp w,
  exists c w' evs posted,
    loop_body hdc vsynch inp w = Some (c, w', evs)
    /\ os_queue w' = tl (os_queue w ++ arrivals inp) ++ posted
    /\ Forall (fun m => m = quit0) posted
    /\ (forall m rest,
          os_queue w ++ arrivals inp = m :: rest ->
          msg w' = Stored m
          /\ (message m <> WM_QUIT ->
              exists evs',
                evs = Call_TranslateMessage (Stored m)
                        :: Call_DispatchMessage (Stored m) :: evs'
                /\ (os_window w = Some (MSG_hwnd m) ->
                    exists r w1 evs1 evsF,
                      WndProc (MSG_hwnd m) (message m) (wParam m) (lParam m)
                        (after_peek (m :: rest) w) = Some (r, w1, evs1)
                      /\ evs' = evs1 ++ evsF))).
Proof.
  intros.
  destruct (os_queue w ++ arrivals inp) as [|m rest] eqn:Hq.
  - destruct (loop_body_continue hdc vsynch inp w)
      as (w1 & evs1 & w' & evsF & Heff & _ & Hframe & Hrun).
    { intros m rest E. rewrite Hq in E. discriminate. }
    rewrite Hq in *.
    destruct Heff as (_ & _ & (posted & Hposted & Hall) & _).
    apply frame_keeps in Hframe. destruct Hframe as (_ & Hqueue & _).
    exists Continue, w'. eexists. exists posted.
    split; [exact Hrun|]. split; [rewrite Hqueue, Hposted; reflexivity|].
    split; [exact Hall|]. intros; discriminate.
  - destruct (message m =? WM_QUIT) eqn:Hm.
    + apply Z.eqb_eq in Hm.
      exists Break, (after_peek (m :: rest) w), [], [].
      split; [apply loop_body_quit; assumption|].
      split; [simpl; rewrite app_nil_r; reflexivity|].
      split; [constructor|].
      intros m' rest' E; inversion E; subst. split; [reflexivity|].
      intro; contradiction.
    + apply Z.eqb_neq in Hm.
      destruct (loop_body_continue hdc vsynch inp w)
        as (w1 & evs1 & w' & evsF & Heff & Hproc & Hframe & Hrun).
      { intros m' rest' E. rewrite Hq in E. inversion E; subst. exact Hm. }
      rewrite Hq in *.
      destruct Heff as (_ & Hmsg & (posted & Hposted & Hall) & _).
      apply frame_keeps in Hframe. destruct Hframe as (_ & Hqueue & Hmsg' & _).
      exists Continue, w'. eexists. exists posted.
      split; [exact Hrun|]. split; [rewrite Hqueue, Hposted; reflexivity|].
      split; [exact Hall|].
      intros m' rest' E; inversion E; subst.
      split; [rewrite Hmsg', Hmsg; reflexivity|].
      intros _. eexists. split; [reflexivity|].
      intros Hwin. destruct (Hproc m' eq_refl Hwin) as (r & Hr).
      exists r, w1, evs1, evsF. split; [exact Hr | reflexivity].
Qed.

Lemma loop_body_takes_one_message_witness :
  exists c w' evs posted,
    loop_body 5 1 frame_idle world_two_keys = Some (c, w', evs)
    /\ os_queue w' = tl (os_queue world_two_keys ++ arrivals frame_idle) ++ posted
    /\ Forall (fun m => m = quit0) posted
    /\ (forall m rest,
          os_queue world_two_keys ++ arrivals frame_idle = m :: rest ->
          msg w' = Stored m
          /\ (message m <> WM_QUIT ->
              exists evs',
                evs = Call_TranslateMessage (Stored m)
                        :: Call_DispatchMessage (Stored m) :: evs'
                /\ (os_window world_two_keys = Some (MSG_hwnd m) ->
                    exists r w1 evs1 evsF,
                      WndProc (MSG_hwnd m) (message m) (wParam m) (lParam m)
                        (after_peek (m :: rest) world_two_keys) = Some (r, w1, evs1)
                      /\ evs' = evs1 ++ evsF))).
Proof.
  exact (loop_body_takes_one_message 5 1 frame_idle world_two_keys).
Defined.

(** *** A pass that finds the queue empty *)

Lemma WinMain_startup_spec :
  forall env,
    new_Application env <> 0 ->
    exists vsynch w0 evs0,
      WinMain_startup env boot =
        Some ((CreateWindowEx_result env, GetDC_result env, vsynch), w0, evs0)
      /\ gApplication w0 = new_Application env
      /\ gVertexArrayObject w0 = glGenVertexArrays_result env
      /\ lastTick w0 = GetTickCount_start env
      /\ msg w0 = Indeterminate
      /\ os_queue w0 = []
      /\ lifecycle false evs0 = Some false.
Proof.
  intros env Hnew. apply Z.eqb_neq in Hnew.
  unfold WinMain_startup, WinMain_CreateWindowEx_args. run_host.
  host_steps.
  all: eexists; eexists; eexists; repeat split.
Qed.

(** C9.  In a pass that finds no message pending, [msg] is not written,
    and TranslateMessage and DispatchMessage are called on it all the
    same: a message stored by an earlier pass is handed to the window
    procedure once more (when it names the window), and in a first pass
    after start-up the buffer handed over is still indeterminate. *)
Theorem loop_body_redispatches_stale_msg :
  (forall hdc vsynch inp w,
      os_queue w ++ arrivals inp = [] ->
      exists w' evs,
        loop_body hdc vsynch inp w =
          Some (Continue, w',
                Call_TranslateMessage (msg w) :: Call_DispatchMessage (msg w) :: evs)
        /\ msg w' = msg w
        /\ (forall m,
              msg w = Stored m -> os_window w = Some (MSG_hwnd m) ->
              exists r w1 evs1 evsF,
                WndProc (MSG_hwnd m) (message m) (wParam m) (lParam m) w =
                  Some (r, w1, evs1)
                /\ evs = evs1 ++ evsF))
  /\ (forall env inp,
        new_Application env <> 0 ->
        arrivals inp = [] ->
        exists started w0 evs0 w' evs,
          WinMain_startup env boot = Some (started, w0, evs0)
          /\ msg w0 = Indeterminate
          /\ loop_body (snd (fst started)) (snd started) inp w0 =
               Some (Continue, w',
                     Call_TranslateMessage Indeterminate
                       :: Call_DispatchMessage Indeterminate :: evs)).
Proof.
  assert (Hidle : forall hdc vsynch inp w,
             os_queue w ++ arrivals inp = [] ->
             exists w' evs,
               loop_body hdc vsynch inp w =
                 Some (Continue, w',
                       Call_TranslateMessage (msg w)
                         :: Call_DispatchMessage (msg w) :: evs)
               /\ msg w' = msg w
               /\ (forall m,
                     msg w = Stored m -> os_window w = Some (MSG_hwnd m) ->
                     exists r w1 evs1 evsF,
                       WndProc (MSG_hwnd m) (message m) (wParam m) (lParam m) w =
                         Some (r, w1, evs1)
                       /\ evs = evs1 ++ evsF)).
  { intros * Hq.
    destruct (loop_body_continue hdc vsynch inp w)
      as (w1 & evs1 & w' & evsF & Heff & Hproc & Hframe & Hrun).
    { intros m rest E. rewrite Hq in E. discriminate. }
    rewrite Hq in *.
    assert (Hw : after_peek [] w = w).
    { apply set_os_queue_same. destruct (os_queue w); [reflexivity | discriminate]. }
    rewrite Hw in *.
    destruct Heff as (_ & Hmsg & _).
    apply frame_keeps in Hframe. destruct Hframe as (_ & _ & Hmsg' & _).
    exists w', (evs1 ++ evsF). split; [exact Hrun|].
    split; [rewrite Hmsg', Hmsg; reflexivity|].
    intros m Hm Hwin. destruct (Hproc m Hm Hwin) as (r & Hr).
    exists r, w1, evs1, evsF. split; [exact Hr | reflexivity]. }
  split; [exact Hidle|].
  intros env inp Hnew Harr.
  destruct (WinMain_startup_spec env Hnew)
    as (vsynch & w0 & evs0 & Hstart & _ & _ & _ & Hmsg & Hqueue & _).
  destruct (Hidle (GetDC_result env) vsynch inp w0) as (w' & evs & Hrun & _).
  { rewrite Hqueue, Harr. reflexivity. }
  rewrite Hmsg in Hrun.
  eexists; exists w0, evs0, w', evs. split; [exact Hstart|].
  split; [exact Hmsg | exact Hrun].
Qed.

Lemma loop_body_redispatches_stale_msg_witness :
  (exists w' evs,
     loop_body 5 1 frame_idle world_after_key =
       Some (Continue, w',
             Call_TranslateMessage (Stored msg_key_A)
               :: Call_DispatchMessage (Stored msg_key_A) :: evs)
     /\ msg w' = Stored msg_key_A
     /\ (forall m,
           Stored msg_key_A = Stored m -> Some 77 = Some (MSG_hwnd m) ->
           exists r w1 evs1 evsF,
             WndProc (MSG_hwnd m) (message m) (wParam m) (lParam m) world_after_key =
               Some (r, w1, evs1)
             /\ evs = evs1 ++ evsF))
  /\ (exists started w0 evs0 w' evs,
        WinMain_startup sample_env boot = Some (started, w0, evs0)
        /\ msg w0 = Indeterminate
        /\ loop_body (snd (fst started)) (snd started) frame_idle w0 =
             Some (Continue, w',
                   Call_TranslateMessage Indeterminate
                     :: Call_DispatchMessage Indeterminate :: evs)).
Proof.
  split.
  - apply (proj1 loop_body_redispatches_stale_msg 5 1 frame_idle world_after_key).
    reflexivity.
  - apply (proj2 loop_body_redispatches_stale_msg sample_env frame_idle).
    + discriminate.
    + reflexivity.
Defined.

(** *** The frame: delta time and aspect ratio *)

Lemma loop_body_Continue_inv :
  forall hdc vsynch inp w w' evs,
    loop_body hdc vsynch inp w = Some (Continue, w', evs) ->
    exists w1 evs1 evsF,
      pump_effect (after_peek (os_queue w ++ arrivals inp) w) w1 evs1
      /\ (update_application inp ;; render_application inp ;;
          present hdc vsynch ;; ret Continue) w1 = Some (Continue, w', evsF)
      /\ evs = Call_TranslateMessage (msg (after_peek (os_queue w ++ arrivals inp) w))
                 :: Call_DispatchMessage (msg (after_peek (os_queue w ++ arrivals inp) w))
                 :: evs1 ++ evsF.
Proof.
  intros * Hrun.
  destruct (loop_body_continue hdc vsynch inp w)
    as (w1 & evs1 & w2 & evsF & Heff & _ & Hframe & Hrun').
  - intros m rest Hq Hm.
    rewrite (loop_body_quit hdc vsynch inp w m rest Hq Hm) in Hrun.
    discriminate.
  - rewrite Hrun' in Hrun. inversion Hrun; subst.
    exists w1, evs1, evsF. auto.
Qed.

Lemma after_peek_keeps :
  forall pending w,
    lastTick (after_peek pending w) = lastTick w
    /\ gApplication (after_peek pending w) = gApplication w.
Proof. intros [|m rest] w; split; reflexivity. Qed.

Lemma to_int32_small :
  forall z, - 2 ^ 31 <= z < 2 ^ 31 -> to_int32 z = z.
Proof.
  intros z Hz. unfold to_int32. rewrite Z.mod_small; lia.
Qed.

Ltac pick_event Hin :=
  simpl in Hin;
  repeat (destruct Hin as [Hin | Hin]; try discriminate);
  try contradiction.

Lemma frame_events :
  forall hdc vsynch inp w c w' evs,
    (update_application inp ;; render_application inp ;;
     present hdc vsynch ;; ret Continue) w = Some (c, w', evs) ->
    (forall this dt,
        In (App_Update this dt) evs ->
        dt = delta_time (GetTickCount_result inp) (lastTick w))
    /\ (forall this aspect,
          In (App_Render this aspect) evs ->
          aspect = FDiv (FOfInt (clientWidth w')) (FOfInt (clientHeight w')))
    /\ (gApplication w <> 0 ->
        clientWidth w' =
          to_int32 (RECT_right (GetClientRect_result inp)
                    - RECT_left (GetClientRect_result inp))
        /\ clientHeight w' =
             to_int32 (RECT_bottom (GetClientRect_result inp)
                       - RECT_top (GetClientRect_result inp))
        /\ In (App_Update (gApplication w)
                 (delta_time (GetTickCount_result inp) (lastTick w))) evs
        /\ In (Call_glViewport 0 0 (clientWidth w') (clientHeight w')) evs
        /\ In (App_Render (gApplication w)
                 (FDiv (FOfInt (clientWidth w')) (FOfInt (clientHeight w')))) evs).
Proof.
  intros * H. rewrite frame_spec in H.
  destruct (gApplication w =? 0) eqn:E; inversion H; subst; clear H.
  - split; [|split]; try (intros; contradiction).
    intro Hne. apply Z.eqb_neq in Hne. congruence.
  - split; [|split].
    + intros this dt Hin.
      destruct (vsynch =? 0); pick_event Hin; inversion Hin; reflexivity.
    + intros this aspect Hin.
      destruct (vsynch =? 0); pick_event Hin; inversion Hin; reflexivity.
    + intros _. simpl. intuition.
Qed.

(** C8.  In every pass that goes on to the frame, [lastTick] becomes the
    tick read in this pass, and the delta time handed to Update (handed
    over whenever the Application is alive, and nothing else ever is) is
    the product of the 32-bit unsigned difference of the two ticks,
    converted to float, with the literal 0.001f: read exactly,
    ((thisTick - lastTick) mod 2^32) / 1000, with no floor and no
    ceiling. *)
Theorem Update_receives_tick_delta :
  forall hdc vsynch inp w w' evs,
    loop_body hdc vsynch inp w = Some (Continue, w', evs) ->
    lastTick w' = GetTickCount_result inp
    /\ (gApplication w' <> 0 ->
        In (App_Update (gApplication w')
              (delta_time (GetTickCount_result inp) (lastTick w))) evs)
    /\ (forall this dt,
          In (App_Update this dt) evs ->
          dt = FMul (FOfDWORD ((GetTickCount_result inp - lastTick w) mod 2 ^ 32))
                    (FLit (1 # 1000)))
    /\ (exact (delta_time (GetTickCount_result inp) (lastTick w)) ==
        inject_Z ((GetTickCount_result inp - lastTick w) mod 2 ^ 32) * (1 # 1000))%Q.
Proof.
  intros * Hrun.
  destruct (loop_body_Continue_inv _ _ _ _ _ _ Hrun)
    as (w1 & evs1 & evsF & Heff & Hframe & ->).
  destruct Heff as (Htick & _ & _ & _ & Hquiet).
  destruct (after_peek_keeps (os_queue w ++ arrivals inp) w) as (Htick0 & _).
  rewrite Htick0 in Htick.
  pose proof (frame_keeps _ _ _ _ _ _ _ Hframe) as (_ & _ & _ & Happ & Hlast & _).
  destruct (frame_events _ _ _ _ _ _ _ Hframe) as (Hupd & _ & Halive).
  rewrite Htick in *.
  split; [exact Hlast|]. split; [|split; [|reflexivity]].
  - intro Hne. rewrite Happ in *.
    destruct (Halive Hne) as (_ & _ & Hin & _).
    right. right. apply in_or_app. right. exact Hin.
  - intros this dt Hin.
    destruct Hin as [Hin | [Hin | Hin]]; try discriminate.
    apply in_app_or in Hin. destruct Hin as [Hin | Hin].
    + rewrite Forall_forall in Hquiet. apply Hquiet in Hin. discriminate.
    + apply (Hupd this dt Hin).
Qed.

Lemma Update_receives_tick_delta_witness :
  exists w' evs,
    loop_body 5 1 frame_idle world_running = Some (Continue, w', evs)
    /\ lastTick w' = 1016
    /\ (gApplication w' <> 0 ->
        In (App_Update (gApplication w') (delta_time 1016 1000)) evs)
    /\ (forall this dt,
          In (App_Update this dt) evs ->
          dt = FMul (FOfDWORD ((1016 - 1000) mod 2 ^ 32)) (FLit (1 # 1000)))
    /\ (exact (delta_time 1016%Z 1000%Z) ==
        inject_Z ((1016 - 1000) mod 2 ^ 32) * (1 # 1000))%Q.
Proof.
  eexists; eexists. split; [reflexivity|].
  apply (Update_receives_tick_delta 5 1 frame_idle world_running).
  reflexivity.
Defined.

(** The subtraction wraps: 16 ms across the roll-over of the counter. *)
Example delta_time_across_rollover :
  delta_time 6 4294967286 = FMul (FOfDWORD 16) (FLit (1 # 1000)).
Proof. reflexivity. Qed.

(** C7.  In every pass in which the Application is alive when the frame
    is drawn, the client rectangle read in this pass gives [clientWidth]
    and [clientHeight], the viewport is set from them, and the aspect
    ratio handed to Render (and no other value is) is the float quotient
    of the two, each converted to float (not an integer quotient): read
    exactly, width / height, for all positive int widths and heights. *)
Theorem Render_receives_client_aspect :
  forall hdc vsynch inp w w' evs width height,
    loop_body hdc vsynch inp w = Some (Continue, w', evs) ->
    gApplication w' <> 0 ->
    RECT_right (GetClientRect_result inp) - RECT_left (GetClientRect_result inp)
      = width ->
    RECT_bottom (GetClientRect_result inp) - RECT_top (GetClientRect_result inp)
      = height ->
    0 < width < 2 ^ 31 ->
    0 < height < 2 ^ 31 ->
    clientWidth w' = width
    /\ clientHeight w' = height
    /\ In (Call_glViewport 0 0 width height) evs
    /\ In (App_Render (gApplication w') (FDiv (FOfInt width) (FOfInt height))) evs
    /\ (forall this aspect,
          In (App_Render this aspect) evs ->
          aspect = FDiv (FOfInt width) (FOfInt height))
    /\ (exact (FDiv (FOfInt width) (FOfInt height)) ==
        inject_Z width / inject_Z height)%Q.
Proof.
  intros * Hrun Hne Hw Hh Hwpos Hhpos.
  destruct (loop_body_Continue_inv _ _ _ _ _ _ Hrun)
    as (w1 & evs1 & evsF & Heff & Hframe & ->).
  destruct Heff as (_ & _ & _ & _ & Hquiet).
  pose proof (frame_keeps _ _ _ _ _ _ _ Hframe) as (_ & _ & _ & Happ & _).
  destruct (frame_events _ _ _ _ _ _ _ Hframe) as (_ & Hrender & Halive).
  rewrite Happ in Hne. destruct (Halive Hne) as (Hcw & Hch & _ & Hview & Hin).
  rewrite Hw, to_int32_small in Hcw by lia.
  rewrite Hh, to_int32_small in Hch by lia.
  rewrite Hcw, Hch in *. rewrite Happ.
  split; [reflexivity|]. split; [reflexivity|].
  split; [right; right; apply in_or_app; right; exact Hview|].
  split; [right; right; apply in_or_app; right; exact Hin|].
  split; [|reflexivity].
  intros this aspect Hin'.
  destruct Hin' as [Hin' | [Hin' | Hin']]; try discriminate.
  apply in_app_or in Hin'. destruct Hin' as [Hin' | Hin'].
  - rewrite Forall_forall in Hquiet. apply Hquiet in Hin'. discriminate.
  - apply (Hrender this aspect Hin').
Qed.

Lemma Render_receives_client_aspect_witness :
  exists w' evs,
    loop_body 5 1 frame_idle world_running = Some (Continue, w', evs)
    /\ clientWidth w' = 800
    /\ clientHeight w' = 600
    /\ In (Call_glViewport 0 0 800 600) evs
    /\ In (App_Render (gApplication w') (FDiv (FOfInt 800) (FOfInt 600))) evs
    /\ (forall this aspect,
          In (App_Render this aspect) evs ->
          aspect = FDiv (FOfInt 800) (FOfInt 600))
    /\ (exact (FDiv (FOfInt 800) (FOfInt 600)) == inject_Z 800 / inject_Z 600)%Q.
Proof.
  eexists; eexists. split; [reflexivity|].
  apply (Render_receives_client_aspect 5 1 frame_idle world_running);
    try reflexivity; try discriminate; lia.
Defined.

(** 800 x 600 gives 4/3 and 1920 x 1080 gives 16/9. *)
Example aspect_800x600 : (exact (FDiv (FOfInt 800) (FOfInt 600)) == 4 # 3)%Q.
Proof. reflexivity. Qed.
Example aspect_1920x1080 : (exact (FDiv (FOfInt 1920) (FOfInt 1080)) == 16 # 9)%Q.
Proof. reflexivity. Qed.

(** *** Whole runs *)

Lemma bind_inv :
  forall {A B} (c : Host A) (k : A -> Host B) w b w2 e,
    bind c k w = Some (b, w2, e) ->
    exists a w1 e1 e2,
      c w = Some (a, w1, e1) /\ k a w1 = Some (b, w2, e2) /\ e = e1 ++ e2.
Proof.
  unfold bind; intros * H.
  destruct (c w) as [[[a w1] e1]|]; [|discriminate].
  destruct (k a w1) as [[[b' w2'] e2]|] eqn:Hk; [|discriminate].
  inversion H; subst. exists a, w1, e1, e2. auto.
Qed.

Lemma loop_body_cases :
  forall hdc vsynch inp w,
    (exists m rest,
        os_queue w ++ arrivals inp = m :: rest
        /\ message m = WM_QUIT
        /\ loop_body hdc vsynch inp w = Some (Break, after_peek (m :: rest) w, []))
    \/ (exists w1 evs1 w' evsF,
          pump_effect (after_peek (os_queue w ++ arrivals inp) w) w1 evs1
          /\ (update_application inp ;; render_application inp ;;
              present hdc vsynch ;; ret Continue) w1 = Some (Continue, w', evsF)
          /\ loop_body hdc vsynch inp w =
               Some (Continue, w',
                     Call_TranslateMessage
                       (msg (after_peek (os_queue w ++ arrivals inp) w))
                       :: Call_DispatchMessage
                            (msg (after_peek (os_queue w ++ arrivals inp) w))
                       :: evs1 ++ evsF)).
Proof.
  intros.
  destruct (os_queue w ++ arrivals inp) as [|m rest] eqn:Hq.
  - right.
    destruct (loop_body_continue hdc vsynch inp w)
      as (w1 & evs1 & w' & evsF & Heff & _ & Hframe & Hrun).
    { intros m rest E. rewrite Hq in E. discriminate. }
    rewrite Hq in *. exists w1, evs1, w', evsF. auto.
  - destruct (message m =? WM_QUIT) eqn:Hm.
    + left. apply Z.eqb_eq in Hm. exists m, rest.
      split; [reflexivity|]. split; [exact Hm|].
      apply loop_body_quit; assumption.
    + right. apply Z.eqb_neq in Hm.
      destruct (loop_body_continue hdc vsynch inp w)
        as (w1 & evs1 & w' & evsF & Heff & _ & Hframe & Hrun).
      { intros m' rest' E. rewrite Hq in E. inversion E; subst. exact Hm. }
      rewrite Hq in *. exists w1, evs1, w', evsF. auto.
Qed.

Lemma loop_body_life :
  forall hdc vsynch inp w,
  exists c w' evs,
    loop_body hdc vsynch inp w = Some (c, w', evs)
    /\ life_effect w w' evs
    /\ (c = Break -> exists m, msg w' = Stored m).
Proof.
  intros.
  destruct (loop_body_cases hdc vsynch inp w)
    as [(m & rest & _ & _ & Hrun) | (w1 & evs1 & w' & evsF & Heff & Hframe & Hrun)].
  - eexists; eexists; eexists. split; [exact Hrun|].
    split; [reflexivity|]. intros _. exists m. reflexivity.
  - eexists; eexists; eexists. split; [exact Hrun|].
    split; [|discriminate].
    apply pump_effect_life in Heff.
    apply frame_keeps in Hframe. destruct Hframe as (_ & _ & _ & _ & _ & Hlife).
    pose proof (life_effect_trans _ _ _ _ _ Heff Hlife) as H.
    unfold life_effect in *.
    destruct (after_peek_keeps (os_queue w ++ arrivals inp) w) as (_ & Happ).
    rewrite Happ in H. simpl. exact H.
Qed.

Lemma game_loop_life :
  forall hdc vsynch inps w,
  exists r w' evs,
    game_loop hdc vsynch inps w = Some (r, w', evs)
    /\ life_effect w w' evs
    /\ (r = Some tt -> exists m, msg w' = Stored m).
Proof.
  induction inps as [|inp inps IH]; intro w; simpl.
  - exists None, w, []. split; [reflexivity|]. split; [reflexivity | discriminate].
  - destruct (loop_body_life hdc vsynch inp w) as (c & w1 & e1 & Hrun & Hlife & Hmsg).
    unfold bind. rewrite Hrun. destruct c.
    + exists (Some tt), w1, (e1 ++ []). split; [reflexivity|].
      rewrite app_nil_r. split; [exact Hlife | auto].
    + destruct (IH w1) as (r & w2 & e2 & Hrun2 & Hlife2 & Hmsg2).
      rewrite Hrun2. exists r, w2, (e1 ++ e2). split; [reflexivity|].
      split; [eapply life_effect_trans; eassumption | exact Hmsg2].
Qed.

(** C4.  No run of [WinMain] faults (no call goes through the null
    pointer), its trace holds at most one Shutdown, and nothing after a
    Shutdown is an Update, a Render or a Shutdown; with [gApplication]
    null, the update, render and present blocks and the close handler
    (whatever its default processing then does to the window) make no
    call on the Application and leave [gApplication] null. *)
Theorem WinMain_liveness :
  forall env inps,
    new_Application env <> 0 ->
    (exists r w evs,
        WinMain env inps boot = Some (r, w, evs)
        /\ (occurrences is_Shutdown evs <= 1)%nat
        /\ (forall pre e post,
              evs = pre ++ e :: post ->
              is_Shutdown e = true ->
              Forall (fun e' => is_Shutdown e' = false
                                /\ is_Update_or_Render e' = false) post))
    /\ (forall hdc vsynch inp w0,
          gApplication w0 = 0 ->
          update_application inp w0 =
            Some (tt, set_lastTick (GetTickCount_result inp) w0, [])
          /\ render_application inp w0 = Some (tt, w0, [])
          /\ present hdc vsynch w0 = Some (tt, w0, [])
          /\ (forall hwnd wp lp,
              exists w' rest,
                WndProc hwnd WM_CLOSE wp lp w0 =
                  Some (0, w',
                        cout ("Already shut down gApplication!" ++ endl)
                          :: Call_DefWindowProc hwnd WM_CLOSE wp lp :: rest)
                /\ gApplication w' = 0
                /\ Forall (fun e => is_Shutdown e = false
                                    /\ is_delete e = false
                                    /\ is_Update_or_Render e = false) rest)).
Proof.
  intros env inps Hnew. split.
  - destruct (WinMain_startup_spec env Hnew)
      as (vsynch & w0 & evs0 & Hstart & Happ & _ & _ & _ & _ & Hlife0).
    destruct (game_loop_life (GetDC_result env) vsynch inps w0)
      as (r & w1 & evs1 & Hloop & Hlife1 & Hmsg).
    assert (Hrun : exists r' w' evs2,
               WinMain env inps boot = Some (r', w', evs0 ++ evs1 ++ evs2)
               /\ lifecycle (gApplication w1 =? 0) evs2 <> None).
    { unfold WinMain. unfold bind at 1. rewrite Hstart.
      unfold bind at 1. rewrite Hloop.
      destruct r as [[]|].
      - destruct (Hmsg eq_refl) as (m & Hm).
        unfold WinMain_exit, read_msg. run_host.
        destruct (gApplication w1 =? 0) eqn:E; simpl; rewrite ?E; simpl;
          rewrite Hm; simpl;
          eexists; eexists; eexists; (split; [reflexivity|]);
          simpl; discriminate.
      - unfold ret. exists None, w1, []. split; [reflexivity|].
        simpl. discriminate. }
    destruct Hrun as (r' & w' & evs2 & Hrun & Hlife2).
    assert (Hlife : exists s, lifecycle false (evs0 ++ evs1 ++ evs2) = Some s).
    { rewrite lifecycle_app, Hlife0, lifecycle_app.
      unfold life_effect in Hlife1. rewrite Happ in Hlife1.
      apply Z.eqb_neq in Hnew. rewrite Hnew in Hlife1. rewrite Hlife1.
      destruct (lifecycle (gApplication w1 =? 0) evs2) as [s|]; [eauto | congruence]. }
    destruct Hlife as (s & Hlife).
    exists r', w', (evs0 ++ evs1 ++ evs2). split; [exact Hrun|]. split.
    + eapply lifecycle_at_most_one_Shutdown; eassumption.
    + intros pre e post Heq He.
      eapply lifecycle_nothing_after_Shutdown; eassumption.
  - intros hdc vsynch inp w0 H0.
    split; [|split; [|split]].
    + unfold update_application. run_host. rewrite H0. reflexivity.
    + unfold render_application. run_host. rewrite H0. reflexivity.
    + unfold present. run_host. rewrite H0. reflexivity.
    + intros hwnd wp lp. run_host. rewrite H0. host_steps.
      all: eexists; eexists; (split; [reflexivity|]); simpl.
      all: split; [exact H0 | repeat constructor].
Qed.

Lemma WinMain_liveness_witness :
  (exists r w evs,
      WinMain sample_env run_until_closed boot = Some (r, w, evs)
      /\ (occurrences is_Shutdown evs <= 1)%nat
      /\ (forall pre e post,
            evs = pre ++ e :: post ->
            is_Shutdown e = true ->
            Forall (fun e' => is_Shutdown e' = false
                              /\ is_Update_or_Render e' = false) post))
  /\ (forall hdc vsynch inp w0,
        gApplication w0 = 0 ->
        update_application inp w0 =
          Some (tt, set_lastTick (GetTickCount_result inp) w0, [])
        /\ render_application inp w0 = Some (tt, w0, [])
        /\ present hdc vsynch w0 = Some (tt, w0, [])
        /\ (forall hwnd wp lp,
            exists w' rest,
              WndProc hwnd WM_CLOSE wp lp w0 =
                Some (0, w',
                      cout ("Already shut down gApplication!" ++ endl)
                        :: Call_DefWindowProc hwnd WM_CLOSE wp lp :: rest)
              /\ gApplication w' = 0
              /\ Forall (fun e => is_Shutdown e = false
                                  /\ is_delete e = false
                                  /\ is_Update_or_Render e = false) rest)).
Proof.
  apply (WinMain_liveness sample_env run_until_closed). discriminate.
Defined.

(** The sample run shuts the Application down once and returns 0. *)
Example run_until_closed_returns_0 :
  exists w evs,
    WinMain sample_env run_until_closed boot = Some (Some 0, w, evs)
    /\ occurrences is_Shutdown evs = 1%nat
    /\ gApplication w = 0.
Proof.
  eexists; eexists. split; [vm_compute; reflexivity|]. split; reflexivity.
Qed.

(** The close command of the window menu (the close button, Alt+F4)
    is not handled by the procedure: it goes to DefWindowProc, whose
    default processing sends WM_CLOSE, and the run ends as with a close
    request. *)
Example run_closed_by_close_command :
  exists w evs,
    WinMain sample_env
      [frame_idle; mkFrameInput [msg_close_command] 1016 rect_800x600; frame_idle]
      boot = Some (Some 0, w, evs)
    /\ occurrences is_Shutdown evs = 1%nat
    /\ occurrences is_delete evs = 1%nat
    /\ gApplication w = 0
    /\ os_window w = None.
Proof.
  eexists; eexists. split; [vm_compute; reflexivity|]. repeat split.
Qed.

(** Destruction without a close request: the context is torn down, the
    frame of that pass is still drawn, the next pass finds the quit
    message, and the code after the loop deletes the Application. *)
Example run_destroyed_without_close :
  exists w evs,
    WinMain sample_env [frame_destroy; frame_idle] boot = Some (Some 0, w, evs)
    /\ occurrences is_Shutdown evs = 0%nat
    /\ occurrences is_delete evs = 1%nat
    /\ In (cout ("Expected application to be null on exit " ++ endl)) evs.
Proof.
  eexists; eexists. split; [vm_compute; reflexivity|].
  split; [reflexivity|]. split; [reflexivity|].
  simpl. tauto.
Qed.

(** *** The exit code *)

(** The payload of every PostQuitMessage, by following the code. *)
Section PostsOnly0.

Context {A B : Type}.

Lemma posts_only_0_ret : forall a : A, posts_only_0 (ret a).
Proof. intros a w a' w' evs H. inversion H. constructor. Qed.

Lemma posts_only_0_gets : forall f : World -> A, posts_only_0 (gets f).
Proof. intros f w a' w' evs H. inversion H. constructor. Qed.

Lemma posts_only_0_bind :
  forall (c : Host A) (k : A -> Host B),
    posts_only_0 c -> (forall a, posts_only_0 (k a)) -> posts_only_0 (bind c k).
Proof.
  intros c k Hc Hk w b w' evs H.
  apply bind_inv in H. destruct H as (a & w1 & e1 & e2 & H1 & H2 & ->).
  apply Forall_app. split; [eapply Hc | eapply Hk]; eassumption.
Qed.

End PostsOnly0.

Lemma posts_only_0_modify : forall f, posts_only_0 (modify f).
Proof. intros f w a' w' evs H. inversion H. constructor. Qed.

Lemma posts_only_0_emit : forall e, quit_payload_0 e -> posts_only_0 (emit e).
Proof. intros e He w a' w' evs H. inversion H. repeat constructor. exact He. Qed.

Lemma posts_only_0_call :
  forall m, (forall this, quit_payload_0 (m this)) -> posts_only_0 (call_gApplication m).
Proof.
  intros m Hm w a w' evs. unfold call_gApplication.
  destruct (gApplication w =? 0); intro H; inversion H. repeat constructor. apply Hm.
Qed.

Lemma posts_only_0_delete : posts_only_0 delete_gApplication.
Proof.
  intros w a w' evs. unfold delete_gApplication.
  destruct (gApplication w =? 0); intro H; inversion H; repeat constructor.
Qed.

Lemma posts_only_0_read_msg : posts_only_0 read_msg.
Proof.
  intros w a w' evs. unfold read_msg.
  destruct (msg w); intro H; inversion H; constructor.
Qed.

Ltac posts0 :=
  repeat match goal with
         | |- posts_only_0 (bind _ _) => apply posts_only_0_bind; [|intro]
         | |- posts_only_0 (ret _) => apply posts_only_0_ret
         | |- posts_only_0 (gets _) => apply posts_only_0_gets
         | |- posts_only_0 (modify _) => apply posts_only_0_modify
         | |- posts_only_0 (emit _) => apply posts_only_0_emit; simpl; auto
         | |- posts_only_0 (call_gApplication _) =>
             apply posts_only_0_call; intro; exact I
         | |- posts_only_0 delete_gApplication => apply posts_only_0_delete
         | |- posts_only_0 read_msg => apply posts_only_0_read_msg
         | |- posts_only_0 (if ?b then _ else _) => destruct b
         | |- posts_only_0 (match ?x with _ => _ end) => destruct x
         | H : _ |- _ => apply H
         end.

Section WndProcPostsOnly0.

Variable DestroyWindow' : HWND -> Host unit.
Variable DefWindowProc' : HWND -> UINT -> WPARAM -> LPARAM -> Host LRESULT.
Hypothesis DestroyWindow'_posts_only_0 : forall hwnd, posts_only_0 (DestroyWindow' hwnd).
Hypothesis DefWindowProc'_posts_only_0 :
  forall hwnd iMsg wp lp, posts_only_0 (DefWindowProc' hwnd iMsg wp lp).

Lemma WndProc_with_posts_only_0 :
  forall hwnd iMsg wp lp,
    posts_only_0 (WndProc_with DestroyWindow' DefWindowProc' hwnd iMsg wp lp).
Proof.
  intros.
  unfold WndProc_with, PostQuitMessage, GetDC, ReleaseDC,
    wglGetCurrentContext, wglMakeCurrent, wglDeleteContext,
    assign_gApplication, assign_gVertexArrayObject.
  posts0.
Qed.

End WndProcPostsOnly0.

Lemma DefWindowProc_with_posts_only_0 :
  forall (destroy close : HWND -> Host unit),
    (forall hwnd, posts_only_0 (destroy hwnd)) ->
    (forall hwnd, posts_only_0 (close hwnd)) ->
    forall hwnd iMsg wp lp,
      posts_only_0 (DefWindowProc_with destroy close hwnd iMsg wp lp).
Proof.
  intros destroy close Hd Hc hwnd iMsg wp lp. unfold DefWindowProc_with. posts0.
Qed.

Lemma os_nothing_posts_only_0 : forall hwnd, posts_only_0 (os_nothing hwnd).
Proof. intro hwnd. unfold os_nothing. posts0. Qed.

Lemma os_destroy_posts_only_0 : forall hwnd, posts_only_0 (os_destroy hwnd).
Proof.
  intro hwnd. unfold os_destroy, WndProc_destroying. posts0.
  apply WndProc_with_posts_only_0.
  - intro h'. unfold DestroyWindow_nested. posts0.
  - apply DefWindowProc_with_posts_only_0; apply os_nothing_posts_only_0.
Qed.

Lemma DestroyWindow_posts_only_0 : forall hwnd, posts_only_0 (DestroyWindow hwnd).
Proof.
  intro hwnd. unfold DestroyWindow. posts0. apply os_destroy_posts_only_0.
Qed.

Lemma os_send_WM_CLOSE_posts_only_0 :
  forall hwnd, posts_only_0 (os_send_WM_CLOSE hwnd).
Proof.
  intro hwnd. unfold os_send_WM_CLOSE, WndProc_closing. posts0.
  apply WndProc_with_posts_only_0.
  - apply DestroyWindow_posts_only_0.
  - apply DefWindowProc_with_posts_only_0;
      [apply os_destroy_posts_only_0 | apply os_nothing_posts_only_0].
Qed.

Lemma WndProc_posts_only_0 :
  forall hwnd iMsg wp lp, posts_only_0 (WndProc hwnd iMsg wp lp).
Proof.
  intros. apply WndProc_with_posts_only_0.
  - apply DestroyWindow_posts_only_0.
  - apply DefWindowProc_with_posts_only_0;
      [apply os_destroy_posts_only_0 | apply os_send_WM_CLOSE_posts_only_0].
Qed.

Lemma loop_body_posts_only_0 :
  forall hdc vsynch inp, posts_only_0 (loop_body hdc vsynch inp).
Proof.
  intros.
  unfold loop_body, os_post, process_window_events, PeekMessage,
    TranslateMessage, DispatchMessage, update_application, render_application,
    present.
  posts0. all: apply WndProc_posts_only_0.
Qed.

Lemma game_loop_posts_only_0 :
  forall hdc vsynch inps, posts_only_0 (game_loop hdc vsynch inps).
Proof.
  induction inps as [|inp inps IH]; simpl; posts0.
  apply loop_body_posts_only_0.
Qed.

Lemma WinMain_posts_only_0 :
  forall env inps, posts_only_0 (WinMain env inps).
Proof.
  intros.
  unfold WinMain, WinMain_startup, WinMain_exit, assign_gApplication, GetDC,
    wglMakeCurrent.
  posts0. apply game_loop_posts_only_0.
Qed.

Lemma WinMain_startup_queue :
  forall env started w0 evs0,
    WinMain_startup env boot = Some (started, w0, evs0) ->
    os_queue w0 = [].
Proof.
  intros env started w0 evs0.
  unfold WinMain_startup, WinMain_CreateWindowEx_args. run_host.
  host_steps; intro H; inversion H; reflexivity.
Qed.

Lemma quits_carry_0_app :
  forall q1 q2, quits_carry_0 q1 -> quits_carry_0 q2 -> quits_carry_0 (q1 ++ q2).
Proof. unfold quits_carry_0; intros. apply Forall_app; auto. Qed.

Lemma quits_carry_0_posted :
  forall posted, Forall (fun m => m = quit0) posted -> quits_carry_0 posted.
Proof.
  unfold quits_carry_0; intros posted H.
  eapply Forall_impl; [|exact H]. intros m -> _. reflexivity.
Qed.

Lemma quits_carry_0_arrivals :
  forall ms, forallb (fun m => negb (is_quit m)) ms = true -> quits_carry_0 ms.
Proof.
  unfold quits_carry_0; intros ms H. rewrite forallb_forall in H.
  apply Forall_forall. intros m Hin Hm. apply H in Hin.
  unfold is_quit in Hin. rewrite Hm in Hin. discriminate.
Qed.

Lemma loop_body_quits :
  forall hdc vsynch inp w c w' evs,
    quits_carry_0 (os_queue w) ->
    forallb (fun m => negb (is_quit m)) (arrivals inp) = true ->
    loop_body hdc vsynch inp w = Some (c, w', evs) ->
    quits_carry_0 (os_queue w')
    /\ (c = Break ->
        exists m, msg w' = Stored m /\ message m = WM_QUIT /\ wParam m = 0).
Proof.
  intros * Hq Harr Hrun.
  assert (Hpending : quits_carry_0 (os_queue w ++ arrivals inp)).
  { apply quits_carry_0_app; [exact Hq | apply quits_carry_0_arrivals, Harr]. }
  destruct (loop_body_cases hdc vsynch inp w)
    as [(m & rest & Hhead & Hm & Hrun')
       | (w1 & evs1 & w2 & evsF & Heff & Hframe & Hrun')];
    rewrite Hrun' in Hrun; inversion Hrun; subst; clear Hrun.
  - rewrite Hhead in Hpending. inversion Hpending; subst.
    split; [assumption|]. intros _. exists m. auto.
  - split; [|discriminate].
    destruct Heff as (_ & _ & (posted & Hposted & Hall) & _).
    apply frame_keeps in Hframe. destruct Hframe as (_ & Hqueue & _).
    rewrite Hqueue, Hposted.
    apply quits_carry_0_app; [|apply quits_carry_0_posted, Hall].
    destruct (os_queue w ++ arrivals inp) as [|m rest]; simpl.
    + constructor.
    + inversion Hpending; assumption.
Qed.

Lemma game_loop_quits :
  forall hdc vsynch inps w w' evs,
    quits_carry_0 (os_queue w) ->
    posts_no_quit inps = true ->
    game_loop hdc vsynch inps w = Some (Some tt, w', evs) ->
    exists m, msg w' = Stored m /\ message m = WM_QUIT /\ wParam m = 0.
Proof.
  induction inps as [|inp inps IH]; intros w w' evs Hq Hno Hrun; simpl in *.
  - discriminate.
  - apply andb_prop in Hno. destruct Hno as (Harr & Hno).
    apply bind_inv in Hrun.
    destruct Hrun as (c & w1 & e1 & e2 & Hbody & Hrest & _).
    destruct (loop_body_quits _ _ _ _ _ _ _ Hq Harr Hbody) as (Hq1 & Hbreak).
    destruct c.
    + inversion Hrest; subst. auto.
    + eapply IH; eassumption.
Qed.

(** C10.  Every PostQuitMessage call of a run passes 0; a run of
    [WinMain] that returns has left the loop on a WM_QUIT held in [msg];
    and when the environment posts no quit message of its own, so that
    the only quit messages are those the destroy handler posts, the
    value returned is 0. *)
Theorem WinMain_returns_0 :
  forall env inps code w evs,
    posts_no_quit inps = true ->
    WinMain env inps boot = Some (Some code, w, evs) ->
    code = 0
    /\ (exists m, msg w = Stored m /\ message m = WM_QUIT /\ wParam m = 0)
    /\ (forall n, In (Call_PostQuitMessage n) evs -> n = 0).
Proof.
  intros * Hno Hrun.
  assert (Hposts : forall n, In (Call_PostQuitMessage n) evs -> n = 0).
  { intros n Hin. pose proof (WinMain_posts_only_0 _ _ _ _ _ _ Hrun) as Hall.
    rewrite Forall_forall in Hall. exact (Hall _ Hin). }
  unfold WinMain in Hrun.
  apply bind_inv in Hrun.
  destruct Hrun as (started & w0 & e0 & e1 & Hstart & Hrun & _).
  pose proof (WinMain_startup_queue _ _ _ _ Hstart) as Hq0.
  destruct started as [[hwnd hdc] vsynch].
  apply bind_inv in Hrun.
  destruct Hrun as (r & w1 & e2 & e3 & Hloop & Hrun & _).
  destruct r as [[]|]; [|discriminate].
  assert (Hq : quits_carry_0 (os_queue w0)) by (rewrite Hq0; constructor).
  destruct (game_loop_quits _ _ _ _ _ _ Hq Hno Hloop) as (m & Hm & Hquit & Hwp).
  apply bind_inv in Hrun.
  destruct Hrun as (code' & w2 & e4 & e5 & Hexit & Hret & _).
  inversion Hret; subst; clear Hret.
  unfold WinMain_exit in Hexit. apply bind_inv in Hexit.
  destruct Hexit as (app & w3 & e6 & e7 & Happ & Hexit & _).
  inversion Happ; subst; clear Happ.
  apply bind_inv in Hexit.
  destruct Hexit as ([] & w4 & e8 & e9 & Hdel & Hexit & _).
  assert (Hmsg4 : msg w4 = msg w3).
  { revert Hdel. run_host. host_steps; intro H; inversion H; reflexivity. }
  apply bind_inv in Hexit.
  destruct Hexit as (m' & w5 & e10 & e11 & Hread & Hret & _).
  unfold read_msg in Hread. rewrite Hmsg4, Hm in Hread.
  inversion Hread; subst; clear Hread.
  inversion Hret; subst; clear Hret.
  split; [|split; [|exact Hposts]].
  - rewrite Hwp. reflexivity.
  - exists m'. rewrite Hmsg4. auto.
Qed.

Lemma WinMain_returns_0_witness :
  exists w evs,
    WinMain sample_env run_until_closed boot = Some (Some 0, w, evs)
    /\ 0 = 0
    /\ (exists m, msg w = Stored m /\ message m = WM_QUIT /\ wParam m = 0)
    /\ (forall n, In (Call_PostQuitMessage n) evs -> n = 0).
Proof.
  eexists; eexists. split; [vm_compute; reflexivity|].
  eapply (WinMain_returns_0 sample_env run_until_closed 0);
    vm_compute; reflexivity.
Defined.

(** *** Window creation *)

(** Whatever the display and the frame, the size handed to
    [CreateWindowEx] is the size of the screen; the position is that of
    the adjusted, centred 800 x 600 rectangle. *)
Lemma WinMain_CreateWindowEx_args_spec :
  forall env,
    WinMain_CreateWindowEx_args env =
      (SM_CXSCREEN env ÷ 2 - 400 - frame_left env,
       SM_CYSCREEN env ÷ 2 - 300 - frame_top env,
       SM_CXSCREEN env,
       SM_CYSCREEN env).
Proof. intro env. reflexivity. Qed.

(** The client area comes out as 800 x 600 only on a display that is
    exactly 800 x 600 plus the frame. *)
Lemma WinMain_client_800x600_iff :
  forall env x y nWidth nHeight,
    WinMain_CreateWindowEx_args env = (x, y, nWidth, nHeight) ->
    (client_size_of_window env nWidth nHeight = (800, 600) <->
     SM_CXSCREEN env = 800 + frame_left env + frame_right env
     /\ SM_CYSCREEN env = 600 + frame_top env + frame_bottom env).
Proof.
  intros env x y nWidth nHeight H. rewrite WinMain_CreateWindowEx_args_spec in H.
  inversion H; subst; clear H. unfold client_size_of_window. split.
  - intro E. inversion E. lia.
  - intros [Hx Hy]. f_equal; lia.
Qed.

(** C5, on a 1920 x 1080 display with a frame of 8, 31, 8, 8: the code
    computes the adjusted window rectangle of an 800 x 600 client area
    (816 x 639 at 552, 209), then calls [CreateWindowEx] with that
    position but with the size of the screen, 1920 x 1080, which gives a
    client area of 1904 x 1041. *)
Theorem WinMain_creates_window_at_screen_size :
  AdjustWindowRectEx sample_env (SetRect_windowRect 1920 1080 800 600) =
    mkRECT 552 209 1368 848
  /\ client_size_of_window sample_env (1368 - 552) (848 - 209) = (800, 600)
  /\ WinMain_CreateWindowEx_args sample_env = (552, 209, 1920, 1080)
  /\ client_size_of_window sample_env 1920 1080 = (1904, 1041)
  /\ (exists started w evs,
        WinMain_startup sample_env boot = Some (started, w, evs)
        /\ In (Call_CreateWindowEx 552 209 1920 1080) evs).
Proof.
  repeat split.
  eexists; eexists; eexists. split; [vm_compute; reflexivity|].
  simpl. auto.
Qed.

(** * Further properties of the code *)

(** ** One call of the window procedure, one dispatch, one pass *)

Lemma WndProc_summary :
  forall hwnd iMsg wp lp w,
  exists r w' evs,
    WndProc hwnd iMsg wp lp w = Some (r, w', evs)
    /\ handler_summary iMsg wp w w' evs.
Proof.
  intros. unfold handler_summary, closes, deleted, torn_down, occurrences.
  run_host. host_steps.
  all: eexists; eexists; eexists; split; [reflexivity|].
  all: simpl;
    repeat match goal with
           | H : (?x =? ?y) = _ |- context [?x =? ?y] => rewrite H
           | H : (?a && ?b) = _ |- context [?a && ?b] => rewrite H
           end; simpl.
  all: repeat match goal with
              | H : (_ =? _) = true |- _ => apply Z.eqb_eq in H
              | H : (_ =? _) = false |- _ => apply Z.eqb_neq in H
              end.
  all: repeat split; auto; try congruence; try discriminate;
    try (rewrite app_nil_r; reflexivity);
    try (intros p [Hp|Hp]; repeat constructor; unfold on_object; simpl; auto;
         congruence).
Qed.

Lemma DispatchMessage_run :
  forall w,
    DispatchMessage w =
      match reaches_WndProc w with
      | Some m =>
          match WndProc (MSG_hwnd m) (message m) (wParam m) (lParam m) w with
          | Some (_, w', evs) => Some (tt, w', Call_DispatchMessage (msg w) :: evs)
          | None => None
          end
      | None => Some (tt, w, [Call_DispatchMessage (msg w)])
      end.
Proof.
  intro w. unfold DispatchMessage, reaches_WndProc, bind, gets, emit, ret; simpl.
  destruct (msg w) as [|m]; [reflexivity|].
  destruct (os_window w) as [h|]; [|reflexivity].
  destruct (h =? MSG_hwnd m); [|reflexivity].
  destruct (WndProc _ _ _ _ w) as [[[r w'] evs]|]; simpl;
    rewrite ?app_nil_r; reflexivity.
Qed.

(** One pass in closed form: the peek, the call of the window procedure
    that the dispatch leads to (if any), and the frame. *)
Lemma loop_body_run :
  forall hdc vsynch inp w,
    loop_body hdc vsynch inp w =
      let w0 := after_peek (os_queue w ++ arrivals inp) w in
      if head_is_quit (os_queue w ++ arrivals inp) then Some (Break, w0, [])
      else
        match
          match reaches_WndProc w0 with
          | Some m => WndProc (MSG_hwnd m) (message m) (wParam m) (lParam m) w0
          | None => Some (0, w0, [])
          end
        with
        | Some (_, w1, evs1) =>
            match (update_application inp ;; render_application inp ;;
                   present hdc vsynch ;; ret Continue) w1 with
            | Some (c, w', evsF) =>
                Some (c, w',
                      Call_TranslateMessage (msg w0)
                        :: Call_DispatchMessage (msg w0) :: evs1 ++ evsF)
            | None => None
            end
        | None => None
        end.
Proof.
  intros. rewrite loop_body_unfold, process_window_events_unfold.
  cbn [os_queue set_os_queue]. cbv zeta.
  assert (Htd : forall w0,
             (TranslateMessage ;; DispatchMessage ;; ret false) w0 =
               match
                 match reaches_WndProc w0 with
                 | Some m => WndProc (MSG_hwnd m) (message m) (wParam m) (lParam m) w0
                 | None => Some (0, w0, [])
                 end
               with
               | Some (_, w1, evs1) =>
                   Some (false, w1,
                         Call_TranslateMessage (msg w0)
                           :: Call_DispatchMessage (msg w0) :: evs1)
               | None => None
               end).
  { intro w0. unfold TranslateMessage. unfold bind at 1 2 3. unfold gets, emit. simpl.
    rewrite DispatchMessage_run.
    destruct (reaches_WndProc w0) as [m|]; simpl.
    - destruct (WndProc _ _ _ _ w0) as [[[r w1] evs1]|]; simpl;
        rewrite ?app_nil_r; reflexivity.
    - reflexivity. }
  destruct (os_queue w ++ arrivals inp) as [|m rest] eqn:Hq; simpl.
  - rewrite Htd.
    destruct (match reaches_WndProc (set_os_queue [] w) with
              | Some m => _ | None => _ end) as [[[r w1] evs1]|]; reflexivity.
  - destruct (message m =? WM_QUIT); [reflexivity|].
    rewrite Htd.
    destruct (match reaches_WndProc (after_peek (m :: rest) w) with
              | Some m => _ | None => _ end) as [[[r w1] evs1]|]; reflexivity.
Qed.

(** ** From one pass to a run *)

(** A relation between the world before, the world after and the trace
    in between that holds of the peek, of the window procedure and of the
    frame, and that composes, holds of every pass and of every run of
    the loop. *)
Section RunEffect.

Variables (hdc : HDC) (vsynch : Z).
Variable Good : FrameInput -> Prop.
Variable T : World -> World -> list Event -> Prop.

Hypothesis T_trans :
  forall w w1 w2 e1 e2, T w w1 e1 -> T w1 w2 e2 -> T w w2 (e1 ++ e2).
Hypothesis T_peek :
  forall inp w, Good inp -> T w (after_peek (os_queue w ++ arrivals inp) w) [].
Hypothesis T_pump_calls :
  forall w, T w w [Call_TranslateMessage (msg w); Call_DispatchMessage (msg w)].
Hypothesis T_WndProc :
  forall w m r w' evs,
    reaches_WndProc w = Some m ->
    WndProc (MSG_hwnd m) (message m) (wParam m) (lParam m) w = Some (r, w', evs) ->
    T w w' evs.
Hypothesis T_idle : forall w, reaches_WndProc w = None -> T w w [].
Hypothesis T_frame :
  forall inp w c w' evs,
    Good inp ->
    (update_application inp ;; render_application inp ;;
     present hdc vsynch ;; ret Continue) w = Some (c, w', evs) ->
    T w w' evs.

Lemma loop_body_effect :
  forall inp w c w' evs,
    Good inp ->
    loop_body hdc vsynch inp w = Some (c, w', evs) ->
    T w w' evs.
Proof.
  intros inp w c w' evs Hgood Hrun. rewrite loop_body_run in Hrun. cbv zeta in Hrun.
  pose proof (T_peek inp w Hgood) as Hpeek.
  set (w0 := after_peek (os_queue w ++ arrivals inp) w) in *.
  destruct (head_is_quit (os_queue w ++ arrivals inp)).
  - inversion Hrun; subst. exact Hpeek.
  - assert (Hproc : forall r w1 evs1,
               match reaches_WndProc w0 with
               | Some m => WndProc (MSG_hwnd m) (message m) (wParam m) (lParam m) w0
               | None => Some (0, w0, [])
               end = Some (r, w1, evs1) -> T w0 w1 evs1).
    { intros r w1 evs1 H. destruct (reaches_WndProc w0) as [m|] eqn:E.
      - eapply T_WndProc; eassumption.
      - inversion H; subst. apply T_idle. exact E. }
    destruct (match reaches_WndProc w0 with Some m => _ | None => _ end)
      as [[[r w1] evs1]|]; [|discriminate].
    specialize (Hproc r w1 evs1 eq_refl).
    destruct ((update_application inp ;; render_application inp ;;
               present hdc vsynch ;; ret Continue) w1)
      as [[[c' w2] evsF]|] eqn:Hframe; [|discriminate].
    inversion Hrun; subst.
    apply (T_trans _ _ _ [] _ Hpeek).
    apply (T_trans _ _ _ [_; _] _ (T_pump_calls w0)).
    eapply T_trans; [exact Hproc|].
    eapply T_frame; eassumption.
Qed.

Lemma game_loop_effect :
  forall inps w r w' evs,
    (forall w0, T w0 w0 []) ->
    Forall Good inps ->
    game_loop hdc vsynch inps w = Some (r, w', evs) ->
    T w w' evs.
Proof.
  induction inps as [|inp inps IH]; intros w r w' evs Hrefl Hgood Hrun; simpl in Hrun.
  - inversion Hrun; subst. apply Hrefl.
  - inversion Hgood; subst.
    apply bind_inv in Hrun.
    destruct Hrun as (c & w1 & e1 & e2 & Hbody & Hrest & ->).
    eapply T_trans; [eapply loop_body_effect; eassumption|].
    destruct c.
    + inversion Hrest; subst. apply Hrefl.
    + eapply IH; eassumption.
Qed.

End RunEffect.

(** ** Start-up, the frame and the code after the loop, in detail *)

Lemma occurrences_app :
  forall p e1 e2,
    occurrences p (e1 ++ e2) = (occurrences p e1 + occurrences p e2)%nat.
Proof. intros. unfold occurrences. rewrite filter_app, length_app. reflexivity. Qed.

Lemma counts_trans :
  forall p measure w w1 w2 e1 e2,
    counts p measure w w1 e1 -> counts p measure w1 w2 e2 ->
    counts p measure w w2 (e1 ++ e2).
Proof. unfold counts; intros. rewrite occurrences_app. lia. Qed.

Lemma WinMain_startup_run :
  forall env started w0 e0,
    WinMain_startup env boot = Some (started, w0, e0) ->
    new_Application env <> 0
    /\ started = (CreateWindowEx_result env, GetDC_result env, negotiated_vsynch env)
    /\ gApplication w0 = new_Application env
    /\ gVertexArrayObject w0 = glGenVertexArrays_result env
    /\ lastTick w0 = GetTickCount_start env
    /\ msg w0 = Indeterminate
    /\ os_queue w0 = []
    /\ (exists pre,
          e0 = pre ++ [App_Initialize (new_Application env)]
          /\ Forall (fun e => app_this e = None) pre
          /\ occurrences is_PostQuit pre = 0%nat
          /\ occurrences is_glDeleteVertexArrays pre = 0%nat
          /\ dispatched pre = []
          /\ forallb startup_event pre = true).
Proof.
  intros env started w0 e0.
  unfold WinMain_startup, WinMain_CreateWindowEx_args, negotiated_vsynch. run_host.
  host_steps; intro H; inversion H; subst; clear H.
  all: repeat match goal with
              | H : (_ =? _) = true |- _ => apply Z.eqb_eq in H
              | H : (_ =? _) = false |- _ => apply Z.eqb_neq in H
              end.
  all: repeat (split; [solve [auto]|]).
  all: match goal with
       | |- exists pre, ?l = _ /\ _ => exists (removelast l)
       end; simpl.
  all: split; [reflexivity|]; split; [repeat constructor|]; repeat split.
Qed.

Lemma occurrences_other_kind :
  forall (kind p : Event -> bool) evs,
    forallb kind evs = true ->
    (forall e, kind e = true -> p e = false) ->
    occurrences p evs = 0%nat.
Proof.
  unfold occurrences. induction evs as [|e evs IH]; intros Hk Hp; [reflexivity|].
  simpl in *. apply andb_prop in Hk. destruct Hk as (He & Hk).
  rewrite (Hp e He). auto.
Qed.

Lemma frame_quiet :
  forall hdc vsynch inp w c w' evs,
    (update_application inp ;; render_application inp ;;
     present hdc vsynch ;; ret Continue) w = Some (c, w', evs) ->
    gVertexArrayObject w' = gVertexArrayObject w
    /\ os_window w' = os_window w
    /\ forallb frame_event evs = true
    /\ (forall p, gApplication w = p \/ gApplication w = 0 ->
                  Forall (on_object p) evs)
    /\ dispatched evs = []
    /\ Update_args evs =
         (if gApplication w =? 0 then []
          else [delta_time (GetTickCount_result inp) (lastTick w)])
    /\ occurrences is_Update evs = (1 - deleted w)%nat
    /\ occurrences is_Render evs = (1 - deleted w)%nat
    /\ occurrences is_SwapBuffers evs = (1 - deleted w)%nat
    /\ occurrences is_glFinish evs =
         (if vsynch =? 0 then 0%nat else (1 - deleted w)%nat).
Proof.
  intros * H. rewrite frame_spec in H. unfold deleted.
  destruct (gApplication w =? 0) eqn:E; destruct (vsynch =? 0) eqn:V;
    inversion H; subst; clear H; simpl.
  all: apply Z.eqb_eq in E || apply Z.eqb_neq in E.
  all: repeat (split;
               [solve [reflexivity
                      | intros p [Hp|Hp]; repeat constructor;
                        unfold on_object; simpl; auto; congruence]|]).
  all: reflexivity.
Qed.

Lemma WinMain_exit_run :
  forall w1 code w e2,
    WinMain_exit w1 = Some (code, w, e2) ->
    w = w1
    /\ e2 = (if gApplication w1 =? 0 then []
            else [cout ("Expected application to be null on exit " ++ endl);
                  App_delete (gApplication w1)])
    /\ exists m, msg w1 = Stored m /\ code = to_int32 (wParam m).
Proof.
  intros w1 code w e2. unfold WinMain_exit, read_msg. run_host.
  destruct (gApplication w1 =? 0) eqn:E; simpl; rewrite ?E; simpl;
    destruct (msg w1) as [|m]; simpl; intro H; inversion H; subst;
    (split; [reflexivity|]; split; [reflexivity|]; exists m; auto).
Qed.

(** A run of [WinMain], taken apart: start-up, the loop, the code after
    the loop. *)
Lemma WinMain_run :
  forall env inps r w evs,
    WinMain env inps boot = Some (r, w, evs) ->
    exists w0 e0 rl w1 e1 e2,
      WinMain_startup env boot =
        Some ((CreateWindowEx_result env, GetDC_result env, negotiated_vsynch env),
              w0, e0)
      /\ game_loop (GetDC_result env) (negotiated_vsynch env) inps w0 =
           Some (rl, w1, e1)
      /\ evs = e0 ++ e1 ++ e2
      /\ match rl with
         | None => r = None /\ w = w1 /\ e2 = []
         | Some _ => exists code, r = Some code /\ WinMain_exit w1 = Some (code, w, e2)
         end.
Proof.
  intros * Hrun. unfold WinMain in Hrun.
  apply bind_inv in Hrun.
  destruct Hrun as (started & w0 & e0 & e' & Hstart & Hrun & ->).
  destruct (WinMain_startup_run _ _ _ _ Hstart) as (_ & -> & _).
  apply bind_inv in Hrun.
  destruct Hrun as (rl & w1 & e1 & e2 & Hloop & Hrun & ->).
  exists w0, e0, rl, w1, e1, e2.
  split; [exact Hstart|]. split; [exact Hloop|]. split; [reflexivity|].
  destruct rl as [[]|].
  - apply bind_inv in Hrun.
    destruct Hrun as (code & w2 & e3 & e4 & Hexit & Hret & ->).
    inversion Hret; subst. rewrite app_nil_r. exists code. auto.
  - inversion Hrun; subst. auto.
Qed.

Lemma WndProc_summary_of :
  forall hwnd iMsg wp lp w r w' evs,
    WndProc hwnd iMsg wp lp w = Some (r, w', evs) ->
    handler_summary iMsg wp w w' evs.
Proof.
  intros * H.
  destruct (WndProc_summary hwnd iMsg wp lp w) as (r0 & w0 & e0 & Hrun & Hsum).
  rewrite Hrun in H. inversion H; subst. exact Hsum.
Qed.

Lemma occurrences_no_app_call :
  forall (p : Event -> bool) evs,
    Forall (fun e => app_this e = None) evs ->
    (forall e, app_this e = None -> p e = false) ->
    occurrences p evs = 0%nat.
Proof.
  unfold occurrences. induction 1 as [|e l He _ IH]; intro Hp; [reflexivity|].
  simpl. rewrite (Hp e He). auto.
Qed.

(** ** The Application object is deleted exactly once *)

Lemma game_loop_counts :
  forall (p : Event -> bool) (measure : World -> nat),
    (forall pending w, measure (after_peek pending w) = measure w) ->
    (forall w w',
        gApplication w' = gApplication w ->
        gVertexArrayObject w' = gVertexArrayObject w ->
        measure w' = measure w) ->
    (forall b, p (Call_TranslateMessage b) = false
               /\ p (Call_DispatchMessage b) = false) ->
    (forall e, frame_event e = true -> p e = false) ->
    (forall iMsg wp w w' evs,
        handler_summary iMsg wp w w' evs -> counts p measure w w' evs) ->
    forall hdc vsynch inps w r w' evs,
      game_loop hdc vsynch inps w = Some (r, w', evs) ->
      counts p measure w w' evs.
Proof.
  intros p measure Hpeek Hext Hpump Hframe Hproc * Hrun.
  apply (game_loop_effect hdc vsynch (fun _ => True) (counts p measure))
    with (inps := inps) (r := r); auto.
  - apply counts_trans.
  - intros inp w0 _. unfold counts. rewrite Hpeek. reflexivity.
  - intros w0. unfold counts, occurrences. simpl.
    destruct (Hpump (msg w0)) as (-> & ->). reflexivity.
  - intros w0 m r0 w1 e1 _ H. apply WndProc_summary_of in H. eapply Hproc, H.
  - reflexivity.
  - intros inp w0 c w1 e1 _ H. unfold counts.
    pose proof (frame_keeps _ _ _ _ _ _ _ H) as (_ & _ & _ & Happ & _).
    apply frame_quiet in H. destruct H as (Hvao & _ & Hkind & _).
    rewrite (occurrences_other_kind frame_event p e1 Hkind Hframe).
    rewrite (Hext w0 w1 Happ Hvao). reflexivity.
  - reflexivity.
  - apply Forall_forall. auto.
Qed.

Lemma game_loop_counts_delete :
  forall hdc vsynch inps w r w' evs,
    game_loop hdc vsynch inps w = Some (r, w', evs) ->
    counts is_delete deleted w w' evs.
Proof.
  apply game_loop_counts.
  - intros [|m rest] w; reflexivity.
  - unfold deleted. intros w w' -> _. reflexivity.
  - auto.
  - intros [] He; try discriminate; reflexivity.
  - intros iMsg wp w w' evs H. apply H.
Qed.

(** X1.  In every run of [WinMain] the Application object is deleted at
    most once; a run that has returned has deleted it exactly once (in
    the close handler or after the loop), and while the loop is still
    running it has been deleted exactly when [gApplication] is null. *)
Theorem WinMain_deletes_Application_once :
  forall env inps r w evs,
    WinMain env inps boot = Some (r, w, evs) ->
    (occurrences is_delete evs <= 1)%nat
    /\ (r <> None -> occurrences is_delete evs = 1%nat)
    /\ (r = None -> occurrences is_delete evs = deleted w).
Proof.
  intros * Hrun.
  destruct (WinMain_run _ _ _ _ _ Hrun)
    as (w0 & e0 & rl & w1 & e1 & e2 & Hstart & Hloop & -> & Hend).
  destruct (WinMain_startup_run _ _ _ _ Hstart)
    as (Hnew & _ & Happ & _ & _ & _ & _ & pre & -> & Hpre & _).
  apply game_loop_counts_delete in Hloop. unfold counts in Hloop.
  assert (H0 : occurrences is_delete (pre ++ [App_Initialize (new_Application env)]) = 0%nat).
  { rewrite occurrences_app, (occurrences_no_app_call is_delete pre Hpre);
      [reflexivity|].
    intros [] He; try discriminate; reflexivity. }
  assert (Hd0 : deleted w0 = 0%nat).
  { unfold deleted. rewrite Happ. apply Z.eqb_neq in Hnew. rewrite Hnew. reflexivity. }
  rewrite !occurrences_app, H0, Hd0 in *.
  destruct rl as [[]|].
  - destruct Hend as (code & -> & Hexit).
    apply WinMain_exit_run in Hexit. destruct Hexit as (-> & -> & _).
    unfold deleted, occurrences in *. destruct (gApplication w1 =? 0); simpl in *;
      repeat split; intros; try discriminate; lia.
  - destruct Hend as (-> & -> & ->).
    unfold deleted, occurrences in *. destruct (gApplication w1 =? 0); simpl in *;
      repeat split; intros; try contradiction; lia.
Qed.

Lemma WinMain_deletes_Application_once_witness :
  exists r w evs,
    WinMain sample_env run_until_closed boot = Some (r, w, evs)
    /\ (occurrences is_delete evs <= 1)%nat
    /\ (r <> None -> occurrences is_delete evs = 1%nat)
    /\ (r = None -> occurrences is_delete evs = deleted w).
Proof.
  eexists; eexists; eexists. split; [vm_compute; reflexivity|].
  eapply (WinMain_deletes_Application_once sample_env run_until_closed).
  vm_compute; reflexivity.
Defined.

(** ** The render surface is torn down at most once *)

Lemma game_loop_counts_PostQuit :
  forall hdc vsynch inps w r w' evs,
    game_loop hdc vsynch inps w = Some (r, w', evs) ->
    counts is_PostQuit torn_down w w' evs
    /\ counts is_glDeleteVertexArrays torn_down w w' evs.
Proof.
  intros * Hrun. split; revert Hrun; apply game_loop_counts.
  - intros [|m rest] w0; reflexivity.
  - unfold torn_down. intros w0 w1 _ ->. reflexivity.
  - auto.
  - intros [] He; try discriminate; reflexivity.
  - intros iMsg wp w0 w1 e H. apply H.
  - intros [|m rest] w0; reflexivity.
  - unfold torn_down. intros w0 w1 _ ->. reflexivity.
  - auto.
  - intros [] He; try discriminate; reflexivity.
  - intros iMsg wp w0 w1 e H. unfold counts.
    destruct H as (_ & _ & Hq & (_ & ->) & _). exact Hq.
Qed.

Lemma WinMain_teardown_count :
  forall env inps r w evs,
    WinMain env inps boot = Some (r, w, evs) ->
    (occurrences is_PostQuit evs <= 1)%nat
    /\ occurrences is_glDeleteVertexArrays evs = occurrences is_PostQuit evs
    /\ (glGenVertexArrays_result env <> 0 ->
        occurrences is_PostQuit evs = torn_down w)
    /\ (glGenVertexArrays_result env = 0 -> occurrences is_PostQuit evs = 0%nat).
Proof.
  intros * Hrun.
  destruct (WinMain_run _ _ _ _ _ Hrun)
    as (w0 & e0 & rl & w1 & e1 & e2 & Hstart & Hloop & -> & Hend).
  destruct (WinMain_startup_run _ _ _ _ Hstart)
    as (_ & _ & _ & Hvao & _ & _ & _ & pre & -> & _ & Hq0 & Hd0 & _).
  apply game_loop_counts_PostQuit in Hloop. destruct Hloop as (Hq & Hd).
  unfold counts in *.
  assert (He2 : occurrences is_PostQuit e2 = 0%nat
                /\ occurrences is_glDeleteVertexArrays e2 = 0%nat /\ w = w1).
  { destruct rl as [[]|].
    - destruct Hend as (code & _ & Hexit).
      apply WinMain_exit_run in Hexit. destruct Hexit as (-> & -> & _).
      destruct (gApplication w1 =? 0); repeat split.
    - destruct Hend as (_ & -> & ->). repeat split. }
  destruct He2 as (Hq2 & Hd2 & ->).
  rewrite !occurrences_app, Hq0, Hd0, Hq2, Hd2.
  change (occurrences is_PostQuit [App_Initialize (new_Application env)]) with 0%nat.
  change (occurrences is_glDeleteVertexArrays [App_Initialize (new_Application env)])
    with 0%nat.
  unfold torn_down in *. rewrite Hvao in *.
  destruct (glGenVertexArrays_result env =? 0) eqn:E;
    [apply Z.eqb_eq in E | apply Z.eqb_neq in E];
    destruct (gVertexArrayObject w1 =? 0);
    repeat split; intros; try contradiction; lia.
Qed.

(** X2.  In every run of [WinMain] the tear-down of the destroy handler
    runs at most once: at most one PostQuitMessage and as many
    glDeleteVertexArrays; it has run exactly when [gVertexArrayObject]
    has gone from non-zero to 0, and never runs when glGenVertexArrays
    left the handle 0. *)
Theorem WinMain_tears_down_at_most_once :
  forall env inps r w evs,
    WinMain env inps boot = Some (r, w, evs) ->
    (occurrences is_PostQuit evs <= 1)%nat
    /\ occurrences is_glDeleteVertexArrays evs = occurrences is_PostQuit evs
    /\ (glGenVertexArrays_result env <> 0 ->
        occurrences is_PostQuit evs = torn_down w)
    /\ (glGenVertexArrays_result env = 0 -> occurrences is_PostQuit evs = 0%nat).
Proof. exact WinMain_teardown_count. Qed.

Lemma WinMain_tears_down_at_most_once_witness :
  exists r w evs,
    WinMain sample_env run_until_closed boot = Some (r, w, evs)
    /\ (occurrences is_PostQuit evs <= 1)%nat
    /\ occurrences is_glDeleteVertexArrays evs = occurrences is_PostQuit evs
    /\ (glGenVertexArrays_result sample_env <> 0 ->
        occurrences is_PostQuit evs = torn_down w)
    /\ (glGenVertexArrays_result sample_env = 0 ->
        occurrences is_PostQuit evs = 0%nat).
Proof.
  eexists; eexists; eexists. split; [vm_compute; reflexivity|].
  eapply (WinMain_tears_down_at_most_once sample_env run_until_closed).
  vm_compute; reflexivity.
Defined.

(** ** Runs in which some kind of message never arrives *)

Lemma forallb_repeat :
  forall {A} (p : A -> bool) (x : A) n, p x = true -> forallb p (repeat x n) = true.
Proof. induction n; intro H; simpl; [reflexivity|]. rewrite H. auto. Qed.

Lemma occurrences_0_forallb :
  forall p evs,
    occurrences p evs = 0%nat -> forallb (fun e => negb (p e)) evs = true.
Proof.
  unfold occurrences. induction evs as [|e evs IH]; simpl; [reflexivity|].
  destruct (p e); simpl; [discriminate | exact IH].
Qed.

Lemma forallb_occurrences_0 :
  forall p evs,
    forallb (fun e => negb (p e)) evs = true -> occurrences p evs = 0%nat.
Proof.
  unfold occurrences. induction evs as [|e evs IH]; simpl; [reflexivity|].
  destruct (p e); simpl; [discriminate | exact IH].
Qed.

Lemma forallb_weaken :
  forall {A} (p q : A -> bool) l,
    (forall x, p x = true -> q x = true) ->
    forallb p l = true -> forallb q l = true.
Proof.
  induction l as [|x l IH]; intros Hpq H; [reflexivity|].
  simpl in *. apply andb_prop in H. destruct H as (Hx & Hl).
  rewrite (Hpq x Hx). auto.
Qed.

Section MessageFilter.

Variables (hdc : HDC) (vsynch : Z).
Variable ok : MSG -> bool.
Variable I : World -> Prop.
Variable E : Event -> bool.

Hypothesis I_ext :
  forall w w',
    gApplication w' = gApplication w ->
    gVertexArrayObject w' = gVertexArrayObject w ->
    I w -> I w'.
Hypothesis E_pump :
  forall b, E (Call_TranslateMessage b) = true /\ E (Call_DispatchMessage b) = true.
Hypothesis E_frame : forall e, frame_event e = true -> E e = true.
Hypothesis handler_ok :
  forall m w w' evs,
    I w -> ok m = true ->
    handler_summary (message m) (wParam m) w w' evs ->
    I w' /\ forallb E evs = true
    /\ (occurrences is_PostQuit evs = 0%nat \/ ok quit0 = true).

Lemma game_loop_filtered :
  forall inps w r w' evs,
    Forall (fun inp => forallb ok (arrivals inp) = true) inps ->
    filtered ok I w ->
    game_loop hdc vsynch inps w = Some (r, w', evs) ->
    filtered ok I w' /\ forallb E evs = true.
Proof.
  intros inps w r w' evs Hgood Hinv Hrun. revert Hinv.
  apply (game_loop_effect hdc vsynch
           (fun inp => forallb ok (arrivals inp) = true)
           (fun w w' evs => filtered ok I w -> filtered ok I w' /\ forallb E evs = true))
    with (inps := inps) (r := r); [ | | | | | | | exact Hgood | exact Hrun].
  - intros w0 w1 w2 e1 e2 H1 H2 H0.
    destruct (H1 H0) as (Hi1 & He1). destruct (H2 Hi1) as (Hi2 & He2).
    split; [exact Hi2|]. rewrite forallb_app, He1, He2. reflexivity.
  - intros inp w0 Harr (Hi & Hq & Hb). split; [|reflexivity].
    assert (Hp : forallb ok (os_queue w0 ++ arrivals inp) = true)
      by (rewrite forallb_app, Hq, Harr; reflexivity).
    destruct (os_queue w0 ++ arrivals inp) as [|m rest]; simpl in *.
    + split; [eapply I_ext; [| |exact Hi]; reflexivity|]. auto.
    + apply andb_prop in Hp. destruct Hp as (Hm & Hrest).
      split; [eapply I_ext; [| |exact Hi]; reflexivity|]. auto.
  - intros w0 H0. split; [exact H0|]. simpl.
    destruct (E_pump (msg w0)) as (-> & ->). reflexivity.
  - intros w0 m r0 w1 e1 Hreach Hproc (Hi & Hq & Hb).
    apply WndProc_summary_of in Hproc.
    assert (Hm : ok m = true).
    { unfold reaches_WndProc in Hreach.
      destruct (msg w0) as [|m0]; [discriminate|].
      destruct (os_window w0) as [h|]; [|discriminate].
      destruct (h =? MSG_hwnd m0); inversion Hreach; subst. exact Hb. }
    destruct (handler_ok m w0 w1 e1 Hi Hm Hproc) as (Hi1 & He1 & Hposted).
    destruct Hproc as (_ & _ & _ & _ & Hqueue & _ & _ & (Hmsg & _) & _).
    split; [|exact He1]. split; [exact Hi1|]. split.
    + rewrite Hqueue, forallb_app, Hq. simpl.
      destruct Hposted as [-> | Hquit]; [reflexivity|].
      apply forallb_repeat. exact Hquit.
    + rewrite Hmsg. exact Hb.
  - intros w0 _ H0. auto.
  - intros inp w0 c w1 e1 _ Hframe (Hi & Hq & Hb).
    pose proof (frame_keeps _ _ _ _ _ _ _ Hframe) as (_ & Hq1 & Hm1 & Happ & _).
    apply frame_quiet in Hframe. destruct Hframe as (Hvao & _ & Hkind & _).
    split.
    + split; [eapply I_ext; eassumption|]. rewrite Hq1, Hm1. auto.
    + eapply forallb_weaken; eassumption.
  - intros w0 H0. auto.
Qed.

End MessageFilter.

Lemma forallb_Forall_arrivals :
  forall (ok : MSG -> bool) inps,
    forallb (fun inp => forallb ok (arrivals inp)) inps = true ->
    Forall (fun inp => forallb ok (arrivals inp) = true) inps.
Proof.
  intros ok inps H. rewrite forallb_forall in H. apply Forall_forall. exact H.
Qed.

Lemma WinMain_total :
  forall env inps,
    new_Application env <> 0 ->
    exists r w evs, WinMain env inps boot = Some (r, w, evs).
Proof.
  intros env inps Hnew.
  destruct (WinMain_startup_spec env Hnew) as (vsynch & w0 & evs0 & Hstart & _).
  destruct (game_loop_life (GetDC_result env) vsynch inps w0)
    as (r & w1 & evs1 & Hloop & _ & Hmsg).
  unfold WinMain. unfold bind at 1. rewrite Hstart.
  unfold bind at 1. rewrite Hloop.
  destruct r as [[]|].
  - destruct (Hmsg eq_refl) as (m & Hm).
    unfold WinMain_exit, read_msg. run_host.
    destruct (gApplication w1 =? 0) eqn:E; simpl; rewrite ?E; simpl;
      rewrite Hm; simpl; eauto.
  - unfold ret. eauto.
Qed.

Lemma game_loop_exit_msg :
  forall hdc vsynch inps w w' evs,
    game_loop hdc vsynch inps w = Some (Some tt, w', evs) ->
    exists m, msg w' = Stored m /\ message m = WM_QUIT.
Proof.
  induction inps as [|inp inps IH]; intros w w' evs Hrun; simpl in Hrun.
  - discriminate.
  - apply bind_inv in Hrun.
    destruct Hrun as (c & w1 & e1 & e2 & Hbody & Hrest & _).
    destruct c; [|eapply IH; eassumption].
    inversion Hrest; subst.
    destruct (loop_body_cases hdc vsynch inp w)
      as [(m & rest & _ & Hm & Hrun) | (w2 & evs2 & w3 & evsF & _ & _ & Hrun)];
      rewrite Hrun in Hbody; inversion Hbody; subst.
    exists m. auto.
Qed.

(** X3.  When glGenVertexArrays left [gVertexArrayObject] 0 and the
    environment posts no quit message of its own, [WinMain] never
    returns: the destroy handler only writes its diagnostic, no quit
    message is ever posted, and the loop is still running after any
    number of passes. *)
Theorem WinMain_never_returns_without_vertex_array :
  forall env inps,
    new_Application env <> 0 ->
    glGenVertexArrays_result env = 0 ->
    posts_no_quit inps = true ->
    exists w evs,
      WinMain env inps boot = Some (None, w, evs)
      /\ occurrences is_PostQuit evs = 0%nat.
Proof.
  intros env inps Hnew Hgen Hno.
  destruct (WinMain_total env inps Hnew) as (r & w & evs & Hrun).
  pose proof (WinMain_teardown_count env inps r w evs Hrun) as Hcount.
  destruct (WinMain_run _ _ _ _ _ Hrun)
    as (w0 & e0 & rl & w1 & e1 & e2 & Hstart & Hloop & -> & Hend).
  destruct (WinMain_startup_run _ _ _ _ Hstart)
    as (_ & _ & _ & Hvao & _ & Hmsg0 & Hq0 & _).
  assert (Hinv : filtered (fun m => negb (is_quit m))
                   (fun w => gVertexArrayObject w = 0) w1).
  { apply (game_loop_filtered (GetDC_result env) (negotiated_vsynch env)
             (fun m => negb (is_quit m)) (fun w => gVertexArrayObject w = 0)
             (fun _ => true)) with (inps := inps) (w := w0) (r := rl) (evs := e1).
    - intros wa wb _ -> H; exact H.
    - auto.
    - auto.
    - intros m wa wb e Hi _ Hsum.
      destruct Hsum as (_ & _ & Hq & _).
      unfold torn_down in Hq. rewrite Hi in Hq. simpl in Hq.
      destruct (gVertexArrayObject wb =? 0) eqn:E; [|lia].
      apply Z.eqb_eq in E. split; [exact E|]. split; [|left; lia].
      clear. induction e; simpl; auto.
    - apply forallb_Forall_arrivals. exact Hno.
    - split; [rewrite Hvao; exact Hgen|]. rewrite Hq0, Hmsg0. auto.
    - exact Hloop. }
  destruct rl as [[]|].
  - exfalso. destruct (game_loop_exit_msg _ _ _ _ _ _ Hloop) as (m & Hm & Hquit).
    destruct Hinv as (_ & _ & Hb). rewrite Hm in Hb. simpl in Hb.
    unfold is_quit in Hb. rewrite Hquit in Hb. discriminate.
  - destruct Hend as (-> & -> & ->). eexists; eexists. split; [exact Hrun|].
    apply Hcount. exact Hgen.
Qed.

Lemma WinMain_never_returns_without_vertex_array_witness :
  exists w evs,
    WinMain sample_env_no_vertex_array run_destroyed boot = Some (None, w, evs)
    /\ occurrences is_PostQuit evs = 0%nat.
Proof.
  apply (WinMain_never_returns_without_vertex_array
           sample_env_no_vertex_array run_destroyed).
  - discriminate.
  - reflexivity.
  - reflexivity.
Defined.

(** ** Runs without a close request *)

Lemma never_closes_not_closes :
  forall m, never_closes m = true -> closes (message m) (wParam m) = false.
Proof.
  intros m H. unfold never_closes, closes, is_destroy, is_quit, is_paint_or_erase in *.
  repeat rewrite orb_true_iff in H.
  destruct H as [[H|H]|[H|H]]; apply Z.eqb_eq in H; rewrite H; reflexivity.
Qed.

(** X4.  When the only messages that arrive are destroy, quit, paint and
    erase-background messages (so that no close request can reach the
    procedure, from the queue or from default processing), Shutdown is
    never called and [gApplication] keeps pointing to the object; if
    such a run returns (the window was destroyed), the last things it
    does are the diagnostic line and the deletion of the object: the
    Application is deleted without having been shut down. *)
Theorem WinMain_without_close_skips_Shutdown :
  forall env inps r w evs,
    posts_only never_closes inps = true ->
    WinMain env inps boot = Some (r, w, evs) ->
    occurrences is_Shutdown evs = 0%nat
    /\ gApplication w = new_Application env
    /\ (r <> None ->
        exists pre,
          evs = pre ++ [cout ("Expected application to be null on exit " ++ endl);
                        App_delete (new_Application env)]).
Proof.
  intros * Hno Hrun.
  destruct (WinMain_run _ _ _ _ _ Hrun)
    as (w0 & e0 & rl & w1 & e1 & e2 & Hstart & Hloop & -> & Hend).
  destruct (WinMain_startup_run _ _ _ _ Hstart)
    as (Hnew & _ & Happ & _ & _ & Hmsg0 & Hq0 & pre & -> & Hpre & _).
  assert (Hinv : filtered never_closes
                   (fun w => gApplication w = new_Application env) w1
                 /\ forallb (fun e => negb (is_Shutdown e)) e1 = true).
  { apply (game_loop_filtered (GetDC_result env) (negotiated_vsynch env)
             never_closes
             (fun w => gApplication w = new_Application env)
             (fun e => negb (is_Shutdown e)))
      with (inps := inps) (w := w0) (r := rl).
    - intros wa wb -> _ H; exact H.
    - auto.
    - intros [] He; try discriminate; reflexivity.
    - intros m wa wb e Hi Hm Hsum.
      destruct Hsum as (_ & _ & _ & _ & _ & _ & _ & _ & Hnc & _).
      destruct (Hnc (never_closes_not_closes m Hm)) as (Ha & _ & Hs).
      split; [congruence|]. split; [apply occurrences_0_forallb, Hs|].
      right. reflexivity.
    - apply forallb_Forall_arrivals. exact Hno.
    - split; [exact Happ|]. rewrite Hq0, Hmsg0. auto.
    - exact Hloop. }
  destruct Hinv as ((Happ1 & _) & Hquiet).
  apply forallb_occurrences_0 in Hquiet.
  assert (Hstart0 : occurrences is_Shutdown (pre ++ [App_Initialize (new_Application env)])
                    = 0%nat).
  { rewrite occurrences_app, (occurrences_no_app_call is_Shutdown pre Hpre);
      [reflexivity|].
    intros [] He; try discriminate; reflexivity. }
  destruct rl as [[]|].
  - destruct Hend as (code & -> & Hexit).
    apply WinMain_exit_run in Hexit. destruct Hexit as (-> & -> & _).
    rewrite Happ1. apply Z.eqb_neq in Hnew. rewrite Hnew.
    split; [rewrite (occurrences_app _ (pre ++ _)), Hstart0,
             (occurrences_app _ e1), Hquiet; reflexivity|].
    split; [reflexivity|]. intros _.
    exists ((pre ++ [App_Initialize (new_Application env)]) ++ e1).
    rewrite (app_assoc _ e1). reflexivity.
  - destruct Hend as (-> & -> & ->).
    split; [rewrite (occurrences_app _ (pre ++ _)), Hstart0,
             (occurrences_app _ e1), Hquiet; reflexivity|].
    split; [exact Happ1|]. intro H; contradiction.
Qed.

Lemma WinMain_without_close_skips_Shutdown_witness :
  exists r w evs,
    WinMain sample_env run_destroyed boot = Some (r, w, evs)
    /\ occurrences is_Shutdown evs = 0%nat
    /\ gApplication w = new_Application sample_env
    /\ (r <> None ->
        exists pre,
          evs = pre ++ [cout ("Expected application to be null on exit " ++ endl);
                        App_delete (new_Application sample_env)]).
Proof.
  eexists; eexists; eexists. split; [vm_compute; reflexivity|].
  eapply (WinMain_without_close_skips_Shutdown sample_env run_destroyed).
  - reflexivity.
  - vm_compute; reflexivity.
Defined.

(** ** Runs in which only paint messages arrive *)

Lemma handler_events_projections :
  forall evs,
    forallb handler_event evs = true ->
    Update_args evs = [] /\ dispatched evs = [].
Proof.
  induction evs as [|e evs IH]; intro H; [split; reflexivity|].
  simpl in H. apply andb_prop in H. destruct H as (He & H).
  destruct (IH H) as (IHu & IHd).
  unfold Update_args, dispatched in *. simpl. rewrite IHu, IHd.
  destruct e; try discriminate; split; reflexivity.
Qed.

Lemma Update_args_no_app_call :
  forall evs, Forall (fun e => app_this e = None) evs -> Update_args evs = [].
Proof.
  induction 1 as [|e l He _ IH]; [reflexivity|].
  unfold Update_args in *. destruct e; try discriminate; simpl; exact IH.
Qed.

Lemma Update_args_app :
  forall e1 e2, Update_args (e1 ++ e2) = Update_args e1 ++ Update_args e2.
Proof. intros. apply flat_map_app. Qed.

(** WM_PAINT and WM_ERASEBKGND are swallowed: the procedure returns 0
    at once, without a call. *)
Lemma WndProc_swallows :
  forall hwnd m w,
    is_paint_or_erase m = true ->
    WndProc hwnd (message m) (wParam m) (lParam m) w = Some (0, w, []).
Proof.
  intros hwnd m w H. unfold is_paint_or_erase in H.
  assert (Hc : (message m =? WM_CLOSE) = false
               /\ (message m =? WM_DESTROY) = false).
  { apply orb_true_iff in H. destruct H as [H|H]; apply Z.eqb_eq in H;
      rewrite H; split; reflexivity. }
  destruct Hc as (Hc & Hd).
  unfold WndProc, WndProc_with. rewrite Hc, Hd, H. reflexivity.
Qed.

Lemma paint_pass :
  forall hdc vsynch inp p v w,
    p <> 0 ->
    filtered is_paint_or_erase
      (fun w => gApplication w = p /\ gVertexArrayObject w = v) w ->
    forallb is_paint_or_erase (arrivals inp) = true ->
    exists w' evs,
      loop_body hdc vsynch inp w = Some (Continue, w', evs)
      /\ filtered is_paint_or_erase
           (fun w => gApplication w = p /\ gVertexArrayObject w = v) w'
      /\ lastTick w' = GetTickCount_result inp
      /\ Update_args evs = [delta_time (GetTickCount_result inp) (lastTick w)]
      /\ occurrences is_Render evs = 1%nat
      /\ occurrences is_SwapBuffers evs = 1%nat
      /\ occurrences is_DefWindowProc evs = 0%nat.
Proof.
  intros * Hp ((Happ & Hvao) & Hq & Hb) Harr.
  assert (Hpending : forallb is_paint_or_erase (os_queue w ++ arrivals inp) = true)
    by (rewrite forallb_app, Hq, Harr; reflexivity).
  rewrite loop_body_run. cbv zeta.
  set (w0 := after_peek (os_queue w ++ arrivals inp) w).
  assert (H0 : gApplication w0 = p /\ gVertexArrayObject w0 = v
               /\ lastTick w0 = lastTick w
               /\ buffer_all is_paint_or_erase (msg w0) = true
               /\ forallb is_paint_or_erase (os_queue w0) = true
               /\ head_is_quit (os_queue w ++ arrivals inp) = false).
  { subst w0. destruct (os_queue w ++ arrivals inp) as [|m rest]; simpl in *.
    - repeat split; auto.
    - apply andb_prop in Hpending. destruct Hpending as (Hm & Hrest).
      repeat split; auto.
      unfold is_paint_or_erase in Hm. apply orb_true_iff in Hm.
      destruct Hm as [Hm|Hm]; apply Z.eqb_eq in Hm; rewrite Hm; reflexivity. }
  destruct H0 as (Happ0 & Hvao0 & Htick0 & Hb0 & Hq0 & ->).
  assert (Hproc : match reaches_WndProc w0 with
                  | Some m => WndProc (MSG_hwnd m) (message m) (wParam m) (lParam m) w0
                  | None => Some (0, w0, [])
                  end = Some (0, w0, [])).
  { destruct (reaches_WndProc w0) as [m|] eqn:Hreach; [|reflexivity].
    apply WndProc_swallows.
    unfold reaches_WndProc in Hreach.
    destruct (msg w0) as [|m0]; [discriminate|].
    destruct (os_window w0) as [h|]; [|discriminate].
    destruct (h =? MSG_hwnd m0); inversion Hreach; subst. exact Hb0. }
  rewrite Hproc, frame_spec. apply Z.eqb_neq in Hp. rewrite Happ0, Hp. cbv zeta.
  eexists; eexists. split; [reflexivity|].
  split; [repeat split; auto|]. split; [reflexivity|].
  rewrite Htick0. destruct (vsynch =? 0); repeat split.
Qed.

Lemma game_loop_paint :
  forall hdc vsynch p v inps w,
    p <> 0 ->
    filtered is_paint_or_erase
      (fun w => gApplication w = p /\ gVertexArrayObject w = v) w ->
    posts_only is_paint_or_erase inps = true ->
    exists w' evs,
      game_loop hdc vsynch inps w = Some (None, w', evs)
      /\ gApplication w' = p
      /\ gVertexArrayObject w' = v
      /\ Update_args evs = deltas (lastTick w) (map GetTickCount_result inps)
      /\ occurrences is_Render evs = List.length inps
      /\ occurrences is_SwapBuffers evs = List.length inps
      /\ occurrences is_DefWindowProc evs = 0%nat.
Proof.
  induction inps as [|inp inps IH]; intros w Hp Hinv Hno; simpl.
  - exists w, []. destruct Hinv as ((Ha & Hv) & _). repeat split; auto.
  - simpl in Hno. apply andb_prop in Hno. destruct Hno as (Harr & Hno).
    destruct (paint_pass hdc vsynch inp p v w Hp Hinv Harr)
      as (w1 & e1 & Hrun & Hinv1 & Htick & Hu & Hr & Hs & Hd).
    destruct (IH w1 Hp Hinv1 Hno)
      as (w2 & e2 & Hrun2 & Ha & Hv & Hu2 & Hr2 & Hs2 & Hd2).
    unfold bind. rewrite Hrun, Hrun2.
    exists w2, (e1 ++ e2). split; [reflexivity|].
    split; [exact Ha|]. split; [exact Hv|].
    rewrite Update_args_app, !occurrences_app, Hu, Hu2, Hr, Hr2, Hs, Hs2, Hd, Hd2,
      Htick.
    repeat split.
Qed.

(** The run of [WinMain] in which only paint messages arrive, taken
    apart. *)
Lemma WinMain_paint_run :
  forall env inps,
    new_Application env <> 0 ->
    posts_only is_paint_or_erase inps = true ->
    exists w evs,
      WinMain env inps boot = Some (None, w, evs)
      /\ gApplication w = new_Application env
      /\ gVertexArrayObject w = glGenVertexArrays_result env
      /\ Update_args evs =
           deltas (GetTickCount_start env) (map GetTickCount_result inps)
      /\ occurrences is_Render evs = List.length inps
      /\ occurrences is_SwapBuffers evs = List.length inps.
Proof.
  intros env inps Hnew Hno.
  destruct (WinMain_total env inps Hnew) as (r & w & evs & Hrun).
  destruct (WinMain_run _ _ _ _ _ Hrun)
    as (w0 & e0 & rl & w1 & e1 & e2 & Hstart & Hloop & -> & Hend).
  destruct (WinMain_startup_run _ _ _ _ Hstart)
    as (_ & _ & Happ & Hvao & Htick & Hmsg0 & Hq0 & pre & -> & Hpre & _ & _ & _ & Hkind).
  destruct (game_loop_paint (GetDC_result env) (negotiated_vsynch env)
              (new_Application env) (glGenVertexArrays_result env) inps w0 Hnew)
    as (w2 & e3 & Hloop' & Ha & Hv & Hu & Hr & Hs & _); [|exact Hno|].
  { split; [auto|]. rewrite Hq0, Hmsg0. auto. }
  rewrite Hloop' in Hloop. inversion Hloop; subst. clear Hloop.
  destruct Hend as (-> & -> & ->).
  exists w1. eexists. split; [exact Hrun|].
  split; [exact Ha|]. split; [exact Hv|].
  assert (Hstart_u : Update_args (pre ++ [App_Initialize (new_Application env)]) = []
                     /\ occurrences is_Render
                          (pre ++ [App_Initialize (new_Application env)]) = 0%nat
                     /\ occurrences is_SwapBuffers
                          (pre ++ [App_Initialize (new_Application env)]) = 0%nat).
  { rewrite Update_args_app, !occurrences_app.
    rewrite (occurrences_other_kind startup_event is_Render pre Hkind),
      (occurrences_other_kind startup_event is_SwapBuffers pre Hkind);
      try (intros [] He; try discriminate; reflexivity).
    rewrite (Update_args_no_app_call pre Hpre). repeat split. }
  destruct Hstart_u as (Hu0 & Hr0 & Hs0).
  rewrite Update_args_app, (occurrences_app _ (pre ++ _)),
    (occurrences_app is_SwapBuffers (pre ++ _)), Hu0, Hr0, Hs0.
  rewrite app_nil_r, Hu, Hr, Hs, Htick. repeat split.
Qed.

(** X5.  While the only messages that arrive are WM_PAINT and
    WM_ERASEBKGND (which the procedure swallows, so that neither default
    processing nor a handler runs), [WinMain] is still in the loop after
    any number of passes, with the Application and the vertex array as
    start-up left them; every pass has called Update once, Render once
    and SwapBuffers once, and the delta times handed to Update are, in
    order, those of the successive ticks, the first one measured from
    the tick read after Initialize. *)
Theorem WinMain_idle_run_updates_every_pass :
  forall env inps,
    new_Application env <> 0 ->
    posts_only is_paint_or_erase inps = true ->
    exists w evs,
      WinMain env inps boot = Some (None, w, evs)
      /\ gApplication w = new_Application env
      /\ gVertexArrayObject w = glGenVertexArrays_result env
      /\ Update_args evs =
           deltas (GetTickCount_start env) (map GetTickCount_result inps)
      /\ occurrences is_Render evs = List.length inps
      /\ occurrences is_SwapBuffers evs = List.length inps.
Proof. exact WinMain_paint_run. Qed.

Lemma WinMain_idle_run_updates_every_pass_witness :
  exists w evs,
    WinMain sample_env run_three_frames boot = Some (None, w, evs)
    /\ gApplication w = 4096
    /\ gVertexArrayObject w = 3
    /\ Update_args evs =
         [FMul (FOfDWORD 16) (FLit (1 # 1000));
          FMul (FOfDWORD 16) (FLit (1 # 1000));
          FMul (FOfDWORD 33) (FLit (1 # 1000))]
    /\ occurrences is_Render evs = 3%nat
    /\ occurrences is_SwapBuffers evs = 3%nat.
Proof.
  apply (WinMain_idle_run_updates_every_pass sample_env run_three_frames).
  - discriminate.
  - reflexivity.
Defined.

(** ** Vertical sync: from the negotiation to the presentation *)

Lemma game_loop_glFinish :
  forall hdc vsynch inps w r w' evs,
    game_loop hdc vsynch inps w = Some (r, w', evs) ->
    occurrences is_glFinish evs =
      (if vsynch =? 0 then 0%nat else occurrences is_SwapBuffers evs).
Proof.
  intros * Hrun.
  apply (game_loop_effect hdc vsynch (fun _ => True)
           (fun _ _ evs =>
              occurrences is_glFinish evs =
                (if vsynch =? 0 then 0%nat else occurrences is_SwapBuffers evs)))
    with (inps := inps) (w := w) (r := r) (w' := w');
    [ | | | | | | | apply Forall_forall; auto | exact Hrun].
  - intros _ _ _ e1 e2 H1 H2. rewrite !occurrences_app, H1, H2.
    destruct (vsynch =? 0); reflexivity.
  - intros. destruct (vsynch =? 0); reflexivity.
  - intros. destruct (vsynch =? 0); reflexivity.
  - intros w0 m r0 w1 e1 _ H. apply WndProc_summary_of in H.
    destruct H as (Hkind & _).
    rewrite (occurrences_other_kind handler_event is_glFinish e1 Hkind),
      (occurrences_other_kind handler_event is_SwapBuffers e1 Hkind);
      try (intros [] He; try discriminate; reflexivity).
    destruct (vsynch =? 0); reflexivity.
  - intros. destruct (vsynch =? 0); reflexivity.
  - intros inp w0 c w1 e1 _ H. apply frame_quiet in H.
    destruct H as (_ & _ & _ & _ & _ & _ & _ & _ & Hs & Hf).
    rewrite Hs, Hf. reflexivity.
  - intros. destruct (vsynch =? 0); reflexivity.
Qed.

Lemma present_order_app :
  forall vsynch e1 e2 due,
    present_order vsynch due (e1 ++ e2) =
      match present_order vsynch due e1 with
      | Some due' => present_order vsynch due' e2
      | None => None
      end.
Proof.
  induction e1 as [|e e1 IH]; intros e2 due; simpl; [reflexivity|].
  destruct (present_step vsynch due e); [apply IH|reflexivity].
Qed.

Lemma present_order_other_kind :
  forall vsynch (kind : Event -> bool) evs,
    forallb kind evs = true ->
    (forall e, kind e = true -> is_SwapBuffers e = false /\ is_glFinish e = false) ->
    present_order vsynch false evs = Some false.
Proof.
  induction evs as [|e evs IH]; intros Hk Hp; [reflexivity|].
  simpl in Hk. apply andb_prop in Hk. destruct Hk as (He & Hk).
  destruct (Hp e He) as (Hs & Hf). simpl.
  destruct e; try discriminate; simpl; apply IH; assumption.
Qed.

Lemma game_loop_present_order :
  forall hdc vsynch inps w r w' evs,
    game_loop hdc vsynch inps w = Some (r, w', evs) ->
    present_order vsynch false evs = Some false.
Proof.
  intros * Hrun.
  apply (game_loop_effect hdc vsynch (fun _ => True)
           (fun _ _ evs => present_order vsynch false evs = Some false))
    with (inps := inps) (w := w) (r := r) (w' := w');
    [ | | | | | | | apply Forall_forall; auto | exact Hrun].
  - intros _ _ _ e1 e2 H1 H2. rewrite present_order_app, H1. exact H2.
  - reflexivity.
  - reflexivity.
  - intros w0 m r0 w1 e1 _ H. apply WndProc_summary_of in H.
    destruct H as (Hkind & _).
    apply (present_order_other_kind vsynch handler_event e1 Hkind).
    intros [] He; try discriminate; split; reflexivity.
  - reflexivity.
  - intros inp w0 c w1 e1 _ H. rewrite frame_spec in H.
    destruct (gApplication w0 =? 0); inversion H; subst; clear H; [reflexivity|].
    simpl. destruct (vsynch =? 0); reflexivity.
  - reflexivity.
Qed.

(** X7.  In every run of [WinMain], when start-up left [vsynch]
    non-zero every SwapBuffers is followed at once by glFinish, and
    glFinish is called nowhere else; when it left [vsynch] zero glFinish
    is never called.  [vsynch] is non-zero exactly when the swap-control
    extension is listed, wglSwapIntervalEXT(1) succeeds and
    wglGetSwapIntervalEXT() returns a non-zero interval. *)
Theorem WinMain_glFinish_iff_vsynch :
  forall env inps r w evs,
    WinMain env inps boot = Some (r, w, evs) ->
    present_order (negotiated_vsynch env) false evs = Some false
    /\ occurrences is_glFinish evs =
         (if negotiated_vsynch env =? 0 then 0%nat
          else occurrences is_SwapBuffers evs)
    /\ (negotiated_vsynch env <> 0 <->
        swapControlSupported env = true
        /\ wglSwapIntervalEXT_result env = true
        /\ wglGetSwapIntervalEXT_result env <> 0).
Proof.
  intros * Hrun.
  destruct (WinMain_run _ _ _ _ _ Hrun)
    as (w0 & e0 & rl & w1 & e1 & e2 & Hstart & Hloop & -> & Hend).
  destruct (WinMain_startup_run _ _ _ _ Hstart)
    as (_ & _ & _ & _ & _ & _ & _ & pre & -> & _ & _ & _ & _ & Hkind).
  assert (He2 : e2 = [] \/ exists s p, e2 = [cout s; App_delete p]).
  { destruct rl as [[]|].
    - destruct Hend as (code & _ & Hexit).
      apply WinMain_exit_run in Hexit. destruct Hexit as (_ & -> & _).
      destruct (gApplication w1 =? 0); [left; reflexivity|right; eauto].
    - destruct Hend as (_ & _ & ->). left; reflexivity. }
  split; [|split].
  - pose proof (game_loop_present_order _ _ _ _ _ _ _ Hloop) as Hord.
    assert (Hpre : present_order (negotiated_vsynch env) false
                     (pre ++ [App_Initialize (new_Application env)]) = Some false).
    { rewrite present_order_app,
        (present_order_other_kind _ startup_event pre Hkind); [reflexivity|].
      intros [] He; try discriminate; split; reflexivity. }
    rewrite present_order_app, Hpre, present_order_app, Hord.
    destruct He2 as [-> | (s & p & ->)]; reflexivity.
  - apply game_loop_glFinish in Hloop.
    assert (Hq : occurrences is_glFinish e2 = 0%nat
                 /\ occurrences is_SwapBuffers e2 = 0%nat)
      by (destruct He2 as [-> | (s & p & ->)]; split; reflexivity).
    destruct Hq as (Hf2 & Hs2).
    rewrite !occurrences_app, Hloop, Hf2, Hs2.
    rewrite (occurrences_other_kind startup_event is_glFinish pre Hkind),
      (occurrences_other_kind startup_event is_SwapBuffers pre Hkind);
      try (intros [] He; try discriminate; reflexivity).
    unfold occurrences. simpl. destruct (negotiated_vsynch env =? 0); lia.
  - unfold negotiated_vsynch.
    destruct (swapControlSupported env); destruct (wglSwapIntervalEXT_result env);
      split; intros H; try (destruct H as (? & ? & ?)); try discriminate;
      try contradiction; auto.
Qed.

Lemma WinMain_glFinish_iff_vsynch_witness :
  exists r w evs,
    WinMain sample_env run_three_frames boot = Some (r, w, evs)
    /\ present_order (negotiated_vsynch sample_env) false evs = Some false
    /\ occurrences is_glFinish evs =
         (if negotiated_vsynch sample_env =? 0 then 0%nat
          else occurrences is_SwapBuffers evs)
    /\ (negotiated_vsynch sample_env <> 0 <->
        swapControlSupported sample_env = true
        /\ wglSwapIntervalEXT_result sample_env = true
        /\ wglGetSwapIntervalEXT_result sample_env <> 0).
Proof.
  eexists; eexists; eexists. split; [vm_compute; reflexivity|].
  eapply (WinMain_glFinish_iff_vsynch sample_env run_three_frames).
  vm_compute; reflexivity.
Defined.

(** ** The pass that handles the destruction, the pass that handles the close request *)

(** X8.  A pass that dispatches WM_DESTROY to the window while the
    vertex array and the Application are both alive (no close request
    came first) tears the render surface down and then still draws the
    frame: Update, the viewport and clear calls, Render and SwapBuffers
    all come after wglMakeCurrent(NULL, NULL) and wglDeleteContext, with
    vertex array 0 bound. *)
Theorem destroy_pass_still_draws :
  forall hdc vsynch inp w m rest,
    os_queue w ++ arrivals inp = m :: rest ->
    message m = WM_DESTROY ->
    os_window w = Some (MSG_hwnd m) ->
    gVertexArrayObject w <> 0 ->
    gApplication w <> 0 ->
    exists w',
      loop_body hdc vsynch inp w =
        Some (Continue, w',
              [Call_TranslateMessage (Stored m);
               Call_DispatchMessage (Stored m);
               Call_GetDC (MSG_hwnd m);
               Call_glBindVertexArray 0;
               Call_glDeleteVertexArrays 1 (gVertexArrayObject w);
               Store_gVertexArrayObject 0;
               Call_wglMakeCurrent 0 0;
               Call_wglDeleteContext (os_context w);
               Call_ReleaseDC (MSG_hwnd m) (os_dc w);
               Call_PostQuitMessage 0;
               Call_DefWindowProc (MSG_hwnd m) WM_DESTROY (wParam m) (lParam m);
               App_Update (gApplication w)
                 (delta_time (GetTickCount_result inp) (lastTick w));
               Call_glViewport 0 0
                 (to_int32 (RECT_right (GetClientRect_result inp)
                            - RECT_left (GetClientRect_result inp)))
                 (to_int32 (RECT_bottom (GetClientRect_result inp)
                            - RECT_top (GetClientRect_result inp)));
               Call_glEnable_DEPTH_TEST;
               Call_glEnable_CULL_FACE;
               Call_glPointSize (FLit 5);
               Call_glBindVertexArray 0;
               Call_glClearColor (FLit (5 # 10)) (FLit (6 # 10)) (FLit (7 # 10))
                 (FLit 1);
               Call_glClear_COLOR_DEPTH_STENCIL;
               App_Render (gApplication w)
                 (FDiv (FOfInt
                    (to_int32 (RECT_right (GetClientRect_result inp)
                            - RECT_left (GetClientRect_result inp))))
                    (FOfInt
                    (to_int32 (RECT_bottom (GetClientRect_result inp)
                            - RECT_top (GetClientRect_result inp)))));
               Call_SwapBuffers hdc]
              ++ (if vsynch =? 0 then [] else [Call_glFinish]))
      /\ gVertexArrayObject w' = 0
      /\ os_context w' = 0
      /\ gApplication w' = gApplication w
      /\ os_queue w' = rest ++ [quit0].
Proof.
  intros * Hq Hm Hwin Hvao Happ.
  apply Z.eqb_neq in Hvao, Happ.
  rewrite loop_body_run. cbv zeta. rewrite Hq.
  unfold head_is_quit, reaches_WndProc, after_peek. simpl.
  rewrite Hwin, Z.eqb_refl. simpl. rewrite !Hm. simpl.
  unfold update_application, render_application, present.
  run_host. host_steps.
  all: simpl; eexists; split; [reflexivity|]; repeat split.
Qed.

Lemma destroy_pass_still_draws_witness :
  exists w',
    loop_body 5 1 frame_destroy world_running =
      Some (Continue, w',
            [Call_TranslateMessage (Stored msg_destroy);
             Call_DispatchMessage (Stored msg_destroy);
             Call_GetDC 77;
             Call_glBindVertexArray 0;
             Call_glDeleteVertexArrays 1 3;
             Store_gVertexArrayObject 0;
             Call_wglMakeCurrent 0 0;
             Call_wglDeleteContext 9;
             Call_ReleaseDC 77 5;
             Call_PostQuitMessage 0;
             Call_DefWindowProc 77 WM_DESTROY 0 0;
             App_Update 4096 (delta_time 1016 1000);
             Call_glViewport 0 0 800 600;
             Call_glEnable_DEPTH_TEST;
             Call_glEnable_CULL_FACE;
             Call_glPointSize (FLit 5);
             Call_glBindVertexArray 0;
             Call_glClearColor (FLit (5 # 10)) (FLit (6 # 10)) (FLit (7 # 10))
               (FLit 1);
             Call_glClear_COLOR_DEPTH_STENCIL;
             App_Render 4096
               (FDiv (FOfInt 800) (FOfInt 600));
             Call_SwapBuffers 5]
            ++ (if 1 =? 0 then [] else [Call_glFinish]))
    /\ gVertexArrayObject w' = 0
    /\ os_context w' = 0
    /\ gApplication w' = 4096
    /\ os_queue w' = [] ++ [quit0].
Proof.
  apply (destroy_pass_still_draws 5 1 frame_destroy world_running msg_destroy []);
    try reflexivity; discriminate.
Defined.

Lemma WndProc_close_run :
  forall hwnd wp lp w,
    os_window w = Some hwnd ->
    gApplication w <> 0 ->
    gVertexArrayObject w <> 0 ->
    WndProc hwnd WM_CLOSE wp lp w =
      Some (0,
            set_os_window None
              (set_os_queue (os_queue w ++ [quit0])
                 (set_os_context 0
                    (set_gVertexArrayObject 0 (set_gApplication 0 w)))),
            [App_Shutdown (gApplication w);
             App_delete (gApplication w);
             Store_gApplication 0;
             Call_DestroyWindow hwnd;
             Call_GetDC hwnd;
             Call_glBindVertexArray 0;
             Call_glDeleteVertexArrays 1 (gVertexArrayObject w);
             Store_gVertexArrayObject 0;
             Call_wglMakeCurrent 0 0;
             Call_wglDeleteContext (os_context w);
             Call_ReleaseDC hwnd (os_dc w);
             Call_PostQuitMessage 0;
             Call_DefWindowProc hwnd WM_DESTROY 0 0;
             Call_DefWindowProc hwnd WM_CLOSE wp lp]).
Proof.
  intros * Hwin Happ Hvao. apply Z.eqb_neq in Happ, Hvao.
  run_host. host_steps.
  all: try match goal with
           | H : (?x =? ?x) = false |- _ => rewrite Z.eqb_refl in H; discriminate
           end.
  reflexivity.
Qed.

(** X9.  A close request that reaches the window while the Application
    and the vertex array are alive, with nothing else pending, ends the
    loop in the pass that follows: the pass that dispatches it shuts the
    Application down, deletes it, destroys the window, tears the render
    surface down and posts the quit message, draws no frame, and the
    next pass finds the quit message; the code after the loop then
    returns 0 without a diagnostic. *)
Theorem close_request_ends_the_loop :
  forall hdc vsynch inp1 inp2 more w m,
    os_queue w ++ arrivals inp1 = [m] ->
    message m = WM_CLOSE ->
    os_window w = Some (MSG_hwnd m) ->
    gApplication w <> 0 ->
    gVertexArrayObject w <> 0 ->
    arrivals inp2 = [] ->
    exists w',
      game_loop hdc vsynch (inp1 :: inp2 :: more) w =
        Some (Some tt, w',
              [Call_TranslateMessage (Stored m);
               Call_DispatchMessage (Stored m);
               App_Shutdown (gApplication w);
               App_delete (gApplication w);
               Store_gApplication 0;
               Call_DestroyWindow (MSG_hwnd m);
               Call_GetDC (MSG_hwnd m);
               Call_glBindVertexArray 0;
               Call_glDeleteVertexArrays 1 (gVertexArrayObject w);
               Store_gVertexArrayObject 0;
               Call_wglMakeCurrent 0 0;
               Call_wglDeleteContext (os_context w);
               Call_ReleaseDC (MSG_hwnd m) (os_dc w);
               Call_PostQuitMessage 0;
               Call_DefWindowProc (MSG_hwnd m) WM_DESTROY 0 0;
               Call_DefWindowProc (MSG_hwnd m) WM_CLOSE (wParam m) (lParam m)])
      /\ gApplication w' = 0
      /\ gVertexArrayObject w' = 0
      /\ os_window w' = None
      /\ os_queue w' = []
      /\ WinMain_exit w' = Some (0, w', []).
Proof.
  intros * Hq Hm Hwin Happ Hvao Harr.
  set (w1 := set_lastTick (GetTickCount_result inp1)
               (set_os_window None
                  (set_os_queue ([] ++ [quit0])
                     (set_os_context 0
                        (set_gVertexArrayObject 0
                           (set_gApplication 0 (after_peek [m] w))))))).
  assert (Hpass1 :
            loop_body hdc vsynch inp1 w =
              Some (Continue, w1,
                    Call_TranslateMessage (Stored m)
                      :: Call_DispatchMessage (Stored m)
                      :: [App_Shutdown (gApplication w);
                          App_delete (gApplication w);
                          Store_gApplication 0;
                          Call_DestroyWindow (MSG_hwnd m);
                          Call_GetDC (MSG_hwnd m);
                          Call_glBindVertexArray 0;
                          Call_glDeleteVertexArrays 1 (gVertexArrayObject w);
                          Store_gVertexArrayObject 0;
                          Call_wglMakeCurrent 0 0;
                          Call_wglDeleteContext (os_context w);
                          Call_ReleaseDC (MSG_hwnd m) (os_dc w);
                          Call_PostQuitMessage 0;
                          Call_DefWindowProc (MSG_hwnd m) WM_DESTROY 0 0;
                          Call_DefWindowProc (MSG_hwnd m) WM_CLOSE (wParam m)
                            (lParam m)] ++ [])).
  { rewrite loop_body_run. cbv zeta. rewrite Hq.
    assert (Hreach : reaches_WndProc (after_peek [m] w) = Some m).
    { unfold reaches_WndProc, after_peek. simpl. rewrite Hwin, Z.eqb_refl.
      reflexivity. }
    assert (Hhead : head_is_quit [m] = false).
    { unfold head_is_quit. rewrite Hm. reflexivity. }
    rewrite Hhead, Hreach, Hm.
    rewrite (WndProc_close_run (MSG_hwnd m) (wParam m) (lParam m) (after_peek [m] w)
               Hwin Happ Hvao).
    rewrite frame_spec. reflexivity. }
  assert (Hpass2 : loop_body hdc vsynch inp2 w1 =
                     Some (Break, after_peek [quit0] w1, [])).
  { apply loop_body_quit; [rewrite Harr; reflexivity | reflexivity]. }
  exists (after_peek [quit0] w1).
  split.
  - simpl game_loop. unfold bind. rewrite Hpass1, Hpass2. reflexivity.
  - repeat (split; [reflexivity|]).
    unfold WinMain_exit, read_msg, bind, gets, ret, delete_gApplication.
    reflexivity.
Qed.

Lemma close_request_ends_the_loop_witness :
  exists w',
    game_loop 5 1 [frame_close; frame_idle] world_running =
      Some (Some tt, w',
            [Call_TranslateMessage (Stored msg_close);
             Call_DispatchMessage (Stored msg_close);
             App_Shutdown 4096;
             App_delete 4096;
             Store_gApplication 0;
             Call_DestroyWindow 77;
             Call_GetDC 77;
             Call_glBindVertexArray 0;
             Call_glDeleteVertexArrays 1 3;
             Store_gVertexArrayObject 0;
             Call_wglMakeCurrent 0 0;
             Call_wglDeleteContext 9;
             Call_ReleaseDC 77 5;
             Call_PostQuitMessage 0;
             Call_DefWindowProc 77 WM_DESTROY 0 0;
             Call_DefWindowProc 77 WM_CLOSE 0 0])
    /\ gApplication w' = 0
    /\ gVertexArrayObject w' = 0
    /\ os_window w' = None
    /\ os_queue w' = []
    /\ WinMain_exit w' = Some (0, w', []).
Proof.
  apply (close_request_ends_the_loop 5 1 frame_close frame_idle [] world_running
           msg_close);
    try reflexivity; discriminate.
Defined.

(** ** Delta time and client rectangle: the edges *)

(** X10.  For ticks of the 32-bit millisecond counter, the value handed
    to Update is the float conversion of a whole number of milliseconds
    between 0 and 2^32 - 1, times 0.001f; that number, computed before
    any floating-point operation, is never negative: it is thisTick -
    lastTick when the counter has not rolled over, and thisTick -
    lastTick + 2^32 when it has rolled over once. *)
Theorem delta_time_bounds :
  forall thisTick lastTick,
    0 <= thisTick < 2 ^ 32 ->
    0 <= lastTick < 2 ^ 32 ->
    exists ms,
      delta_time thisTick lastTick = FMul (FOfDWORD ms) (FLit (1 # 1000))
      /\ 0 <= ms < 2 ^ 32
      /\ (lastTick <= thisTick -> ms = thisTick - lastTick)
      /\ (thisTick < lastTick -> ms = thisTick - lastTick + 2 ^ 32).
Proof.
  intros t l Ht Hl. exists ((t - l) mod 2 ^ 32).
  assert (Hms : 0 <= (t - l) mod 2 ^ 32 < 2 ^ 32) by (apply Z.mod_pos_bound; lia).
  split; [reflexivity|]. split; [exact Hms|]. split.
  - intro H. apply Z.mod_small. lia.
  - intro H. rewrite <- (Z.mod_add (t - l) 1 (2 ^ 32)) by lia.
    apply Z.mod_small. lia.
Qed.

Lemma delta_time_bounds_witness :
  exists ms,
    delta_time 6 4294967286 = FMul (FOfDWORD ms) (FLit (1 # 1000))
    /\ 0 <= ms < 2 ^ 32
    /\ (4294967286 <= 6 -> ms = 6 - 4294967286)
    /\ (6 < 4294967286 -> ms = 6 - 4294967286 + 2 ^ 32).
Proof.
  apply (delta_time_bounds 6 4294967286); lia.
Defined.

(** X11.  The frame is drawn whatever the client rectangle: when it has
    height 0 (a minimised window) and the Application is alive, the
    viewport is set with height 0 and Render receives the quotient of
    the width by (float)0; no guard skips the division or the call. *)
Theorem Render_called_with_zero_height :
  forall hdc vsynch inp w w' evs,
    loop_body hdc vsynch inp w = Some (Continue, w', evs) ->
    gApplication w' <> 0 ->
    RECT_bottom (GetClientRect_result inp) = RECT_top (GetClientRect_result inp) ->
    clientHeight w' = 0
    /\ In (Call_glViewport 0 0 (clientWidth w') 0) evs
    /\ In (App_Render (gApplication w')
             (FDiv (FOfInt (clientWidth w')) (FOfInt 0))) evs.
Proof.
  intros * Hrun Hne Hrect.
  destruct (loop_body_Continue_inv _ _ _ _ _ _ Hrun)
    as (w1 & evs1 & evsF & _ & Hframe & ->).
  pose proof (frame_keeps _ _ _ _ _ _ _ Hframe) as (_ & _ & _ & Happ & _).
  destruct (frame_events _ _ _ _ _ _ _ Hframe) as (_ & _ & Halive).
  rewrite Happ in Hne. destruct (Halive Hne) as (_ & Hch & _ & Hview & Hin).
  rewrite Hrect, Z.sub_diag in Hch. change (to_int32 0) with 0 in Hch.
  rewrite Hch in *. rewrite Happ.
  split; [reflexivity|].
  split; right; right; apply in_or_app; right; assumption.
Qed.

Lemma Render_called_with_zero_height_witness :
  exists w' evs,
    loop_body 5 1 frame_minimised world_running = Some (Continue, w', evs)
    /\ clientHeight w' = 0
    /\ In (Call_glViewport 0 0 (clientWidth w') 0) evs
    /\ In (App_Render (gApplication w')
             (FDiv (FOfInt (clientWidth w')) (FOfInt 0))) evs.
Proof.
  eexists; eexists. split; [reflexivity|].
  apply (Render_called_with_zero_height 5 1 frame_minimised world_running);
    try reflexivity; discriminate.
Defined.

(** ** The calls on the Application *)

Lemma game_loop_on_object :
  forall hdc vsynch p inps w r w' evs,
    game_loop hdc vsynch inps w = Some (r, w', evs) ->
    gApplication w = p \/ gApplication w = 0 ->
    (gApplication w' = p \/ gApplication w' = 0) /\ Forall (on_object p) evs.
Proof.
  intros * Hrun.
  apply (game_loop_effect hdc vsynch (fun _ => True)
           (fun w w' evs =>
              gApplication w = p \/ gApplication w = 0 ->
              (gApplication w' = p \/ gApplication w' = 0)
              /\ Forall (on_object p) evs))
    with (inps := inps) (r := r);
    [ | | | | | | | apply Forall_forall; auto | exact Hrun].
  - intros w0 w1 w2 e1 e2 H1 H2 H0.
    destruct (H1 H0) as (H1' & He1). destruct (H2 H1') as (H2' & He2).
    split; [exact H2'|]. apply Forall_app. auto.
  - intros inp w0 _ H0. split; [|constructor].
    destruct (after_peek_keeps (os_queue w0 ++ arrivals inp) w0) as (_ & ->).
    exact H0.
  - intros w0 H0. split; [exact H0|]. repeat constructor.
  - intros w0 m r0 w1 e1 _ H H0. apply WndProc_summary_of in H.
    destruct H as (_ & _ & _ & _ & _ & Hor & Hobj & _).
    split; [|apply Hobj; exact H0].
    destruct Hor as [-> | ->]; auto.
  - intros w0 _ H0. split; [exact H0 | constructor].
  - intros inp w0 c w1 e1 _ H H0.
    pose proof (frame_keeps _ _ _ _ _ _ _ H) as (_ & _ & _ & -> & _).
    apply frame_quiet in H. destruct H as (_ & _ & _ & Hobj & _).
    split; [exact H0 | apply Hobj; exact H0].
  - intros w0 H0. split; [exact H0 | constructor].
Qed.

Lemma game_loop_no_Initialize :
  forall hdc vsynch inps w r w' evs,
    game_loop hdc vsynch inps w = Some (r, w', evs) ->
    occurrences is_Initialize evs = 0%nat.
Proof.
  intros * Hrun.
  pose proof (game_loop_counts is_Initialize (fun _ => 0%nat)) as H.
  unfold counts in H. rewrite <- (Nat.add_0_r (occurrences _ _)).
  eapply H; eauto.
  - intros [] He; try discriminate; reflexivity.
  - intros iMsg wp w0 w1 e (Hkind & _).
    rewrite (occurrences_other_kind handler_event is_Initialize e Hkind);
      [reflexivity|].
    intros [] He; try discriminate; reflexivity.
Qed.

(** X12.  In every run of [WinMain], the first call made on an
    Application object is Initialize, on the object that new
    Application() returned; it is the only Initialize of the run, and
    every later Update, Render, Shutdown and delete is made on that same
    object. *)
Theorem WinMain_calls_one_object :
  forall env inps r w evs,
    WinMain env inps boot = Some (r, w, evs) ->
    exists pre post,
      evs = pre ++ App_Initialize (new_Application env) :: post
      /\ Forall (fun e => app_this e = None) pre
      /\ occurrences is_Initialize post = 0%nat
      /\ Forall (on_object (new_Application env)) post.
Proof.
  intros * Hrun.
  destruct (WinMain_run _ _ _ _ _ Hrun)
    as (w0 & e0 & rl & w1 & e1 & e2 & Hstart & Hloop & -> & Hend).
  destruct (WinMain_startup_run _ _ _ _ Hstart)
    as (_ & _ & Happ & _ & _ & _ & _ & pre & -> & Hpre & _).
  destruct (game_loop_on_object _ _ (new_Application env) _ _ _ _ _ Hloop)
    as (Happ1 & Hobj1); [left; exact Happ|].
  pose proof (game_loop_no_Initialize _ _ _ _ _ _ _ Hloop) as Hinit1.
  exists pre, (e1 ++ e2). split; [rewrite <- app_assoc; reflexivity|].
  split; [exact Hpre|].
  assert (He2 : occurrences is_Initialize e2 = 0%nat
                /\ Forall (on_object (new_Application env)) e2).
  { destruct rl as [[]|].
    - destruct Hend as (code & _ & Hexit).
      apply WinMain_exit_run in Hexit. destruct Hexit as (_ & -> & _).
      destruct (gApplication w1 =? 0) eqn:E; [split; [reflexivity | constructor]|].
      apply Z.eqb_neq in E. destruct Happ1 as [Hp | Hp]; [|contradiction].
      split; [reflexivity|]. repeat constructor. exact Hp.
    - destruct Hend as (_ & _ & ->). split; [reflexivity | constructor]. }
  destruct He2 as (Hinit2 & Hobj2).
  split; [rewrite occurrences_app, Hinit1, Hinit2; reflexivity|].
  apply Forall_app. auto.
Qed.

Lemma WinMain_calls_one_object_witness :
  exists r w evs,
    WinMain sample_env run_until_closed boot = Some (r, w, evs)
    /\ exists pre post,
         evs = pre ++ App_Initialize (new_Application sample_env) :: post
         /\ Forall (fun e => app_this e = None) pre
         /\ occurrences is_Initialize post = 0%nat
         /\ Forall (on_object (new_Application sample_env)) post.
Proof.
  eexists; eexists; eexists. split; [vm_compute; reflexivity|].
  eapply (WinMain_calls_one_object sample_env run_until_closed).
  vm_compute; reflexivity.
Defined.

(** ** The value returned *)

(** X13.  A run of [WinMain] that returns has left the loop on a quit
    message held in [msg], and returns the payload of that message cast
    to int: the payload itself when it fits, its 32-bit wrap-around
    otherwise. *)
Theorem WinMain_returns_quit_payload :
  forall env inps code w evs,
    WinMain env inps boot = Some (Some code, w, evs) ->
    exists m,
      msg w = Stored m
      /\ message m = WM_QUIT
      /\ code = to_int32 (wParam m)
      /\ - 2 ^ 31 <= code < 2 ^ 31
      /\ (- 2 ^ 31 <= wParam m < 2 ^ 31 -> code = wParam m).
Proof.
  intros * Hrun.
  destruct (WinMain_run _ _ _ _ _ Hrun)
    as (w0 & e0 & rl & w1 & e1 & e2 & _ & Hloop & _ & Hend).
  destruct rl as [[]|]; [|destruct Hend as (Hr & _); discriminate].
  destruct Hend as (code' & Hcode & Hexit). inversion Hcode; subst code'.
  apply WinMain_exit_run in Hexit. destruct Hexit as (-> & _ & m & Hm & ->).
  destruct (game_loop_exit_msg _ _ _ _ _ _ Hloop) as (m' & Hm' & Hquit).
  rewrite Hm in Hm'. inversion Hm'; subst m'.
  exists m. split; [exact Hm|]. split; [exact Hquit|]. split; [reflexivity|].
  split.
  - unfold to_int32.
    pose proof (Z.mod_pos_bound (wParam m + 2 ^ 31) (2 ^ 32)). lia.
  - apply to_int32_small.
Qed.

Lemma WinMain_returns_quit_payload_witness :
  exists w evs,
    WinMain sample_env run_quit_7 boot = Some (Some 7, w, evs)
    /\ exists m,
         msg w = Stored m
         /\ message m = WM_QUIT
         /\ 7 = to_int32 (wParam m)
         /\ - 2 ^ 31 <= 7 < 2 ^ 31
         /\ (- 2 ^ 31 <= wParam m < 2 ^ 31 -> 7 = wParam m).
Proof.
  eexists; eexists. split; [vm_compute; reflexivity|].
  eapply (WinMain_returns_quit_payload sample_env run_quit_7 7).
  vm_compute; reflexivity.
Defined.

(** ** Where the window is put *)

(** X15.  The position handed to [CreateWindowEx] is the top-left corner
    of the window rectangle that [AdjustWindowRectEx] computes around a
    client area of exactly 800 x 600 whose centre is the centre of the
    screen (both halves truncated).  A coordinate is negative exactly
    when half the screen, truncated, is less than half the client area
    plus the frame on that side; with a frame that is thicker at the top
    than at the bottom this also happens on a display that the framed
    window would fit on. *)
Theorem WinMain_window_position :
  forall env x y nWidth nHeight,
    WinMain_CreateWindowEx_args env = (x, y, nWidth, nHeight) ->
    x = RECT_left
          (AdjustWindowRectEx env
             (SetRect_windowRect (SM_CXSCREEN env) (SM_CYSCREEN env) 800 600))
    /\ y = RECT_top
            (AdjustWindowRectEx env
               (SetRect_windowRect (SM_CXSCREEN env) (SM_CYSCREEN env) 800 600))
    /\ client_size_of_window env
         (RECT_right
            (AdjustWindowRectEx env
               (SetRect_windowRect (SM_CXSCREEN env) (SM_CYSCREEN env) 800 600)) - x)
         (RECT_bottom
            (AdjustWindowRectEx env
               (SetRect_windowRect (SM_CXSCREEN env) (SM_CYSCREEN env) 800 600)) - y)
       = (800, 600)
    /\ (x + frame_left env) + 400 = SM_CXSCREEN env ÷ 2
    /\ (y + frame_top env) + 300 = SM_CYSCREEN env ÷ 2
    /\ (x < 0 <-> SM_CXSCREEN env ÷ 2 < 400 + frame_left env)
    /\ (y < 0 <-> SM_CYSCREEN env ÷ 2 < 300 + frame_top env).
Proof.
  intros env x y nWidth nHeight H.
  rewrite WinMain_CreateWindowEx_args_spec in H. inversion H; subst; clear H.
  unfold AdjustWindowRectEx, SetRect_windowRect, client_size_of_window.
  cbn [RECT_left RECT_top RECT_right RECT_bottom].
  change (800 ÷ 2) with 400. change (600 ÷ 2) with 300.
  generalize (SM_CXSCREEN env ÷ 2) (SM_CYSCREEN env ÷ 2). intros hx hy.
  repeat split; try lia; f_equal; lia.
Qed.

Lemma WinMain_window_position_witness :
  600 + frame_top sample_env_small + frame_bottom sample_env_small
    <= SM_CYSCREEN sample_env_small
  /\ 92 = RECT_left
            (AdjustWindowRectEx sample_env_small
               (SetRect_windowRect (SM_CXSCREEN sample_env_small)
                  (SM_CYSCREEN sample_env_small) 800 600))
  /\ -6 = RECT_top
            (AdjustWindowRectEx sample_env_small
               (SetRect_windowRect (SM_CXSCREEN sample_env_small)
                  (SM_CYSCREEN sample_env_small) 800 600))
  /\ client_size_of_window sample_env_small
       (RECT_right
          (AdjustWindowRectEx sample_env_small
             (SetRect_windowRect (SM_CXSCREEN sample_env_small)
                (SM_CYSCREEN sample_env_small) 800 600)) - 92)
       (RECT_bottom
          (AdjustWindowRectEx sample_env_small
             (SetRect_windowRect (SM_CXSCREEN sample_env_small)
                (SM_CYSCREEN sample_env_small) 800 600)) - -6)
     = (800, 600)
  /\ (92 + frame_left sample_env_small) + 400 = SM_CXSCREEN sample_env_small ÷ 2
  /\ (-6 + frame_top sample_env_small) + 300 = SM_CYSCREEN sample_env_small ÷ 2
  /\ (92 < 0 <->
      SM_CXSCREEN sample_env_small ÷ 2 < 400 + frame_left sample_env_small)
  /\ (-6 < 0 <->
      SM_CYSCREEN sample_env_small ÷ 2 < 300 + frame_top sample_env_small).
Proof.
  split; [vm_compute; discriminate|].
  apply (WinMain_window_position sample_env_small 92 (-6) 1000 650). reflexivity.
Defined.

(** ** The calls on the Application follow one protocol *)

Lemma protocol_app :
  forall e1 e2 s,
    protocol s (e1 ++ e2) =
      match protocol s e1 with
      | Some s' => protocol s' e2
      | None => None
      end.
Proof.
  induction e1 as [|e e1 IH]; intros e2 s; simpl; [reflexivity|].
  destruct (protocol_step s e); [apply IH|reflexivity].
Qed.

Lemma protocol_no_app_call :
  forall evs s, Forall (fun e => app_this e = None) evs -> protocol s evs = Some s.
Proof.
  induction evs as [|e evs IH]; intros s H; [reflexivity|].
  inversion H as [|? ? He Hrest]; subst. simpl.
  destruct e; try discriminate; simpl; apply IH; exact Hrest.
Qed.

Lemma follows_protocol_trans :
  forall w w1 w2 e1 e2,
    follows_protocol w w1 e1 -> follows_protocol w1 w2 e2 ->
    follows_protocol w w2 (e1 ++ e2).
Proof.
  intros * H1 H2 s Hs.
  destruct (H1 s Hs) as (s1 & Hp1 & Hs1).
  destruct (H2 s1 Hs1) as (s2 & Hp2 & Hs2).
  exists s2. rewrite protocol_app, Hp1. auto.
Qed.

Lemma WndProc_follows_protocol :
  forall hwnd iMsg wp lp w r w' evs,
    WndProc hwnd iMsg wp lp w = Some (r, w', evs) ->
    follows_protocol w w' evs.
Proof.
  intros hwnd iMsg wp lp w r w' evs. unfold follows_protocol, in_phase.
  run_host. host_steps; intro H; inversion H; subst; clear H.
  all: repeat match goal with
              | H : (_ =? _) = true |- _ => apply Z.eqb_eq in H
              | H : (_ =? _) = false |- _ => apply Z.eqb_neq in H
              end.
  all: intros s [(-> & Hs)|(-> & Hs)]; try congruence; simpl.
  all: eexists; (split; [reflexivity|]); simpl; auto.
Qed.

Lemma frame_follows_protocol :
  forall hdc vsynch inp w c w' evs,
    (update_application inp ;; render_application inp ;;
     present hdc vsynch ;; ret Continue) w = Some (c, w', evs) ->
    follows_protocol w w' evs.
Proof.
  intros * H. rewrite frame_spec in H. unfold follows_protocol, in_phase.
  destruct (gApplication w =? 0) eqn:E; inversion H; subst; clear H.
  all: apply Z.eqb_eq in E || apply Z.eqb_neq in E.
  all: intros s [(-> & Hs)|(-> & Hs)]; try congruence; simpl.
  all: destruct (vsynch =? 0); simpl; eexists; (split; [reflexivity|]); simpl; auto.
Qed.

Lemma game_loop_follows_protocol :
  forall hdc vsynch inps w r w' evs,
    game_loop hdc vsynch inps w = Some (r, w', evs) ->
    follows_protocol w w' evs.
Proof.
  intros * Hrun.
  apply (game_loop_effect hdc vsynch (fun _ => True) follows_protocol)
    with (inps := inps) (r := r);
    [ apply follows_protocol_trans | | | | | | | | exact Hrun].
  - intros inp w0 _ s Hs. exists s. split; [reflexivity|].
    unfold in_phase in *.
    destruct (after_peek_keeps (os_queue w0 ++ arrivals inp) w0) as (_ & ->).
    exact Hs.
  - intros w0 s Hs. exists s. split; [reflexivity|exact Hs].
  - intros w0 m r0 w1 e1 _ H. eapply WndProc_follows_protocol, H.
  - intros w0 _ s Hs. exists s. split; [reflexivity|exact Hs].
  - intros inp w0 c w1 e1 _ H. eapply frame_follows_protocol, H.
  - intros w0 s Hs. exists s. split; [reflexivity|exact Hs].
  - apply Forall_forall. auto.
Qed.

(** X16.  In every run of [WinMain] the calls on the Application follow
    one protocol: Initialize first; then frames, each an Update followed
    by the Render of the same pass, with no other call on the object
    between the two; Shutdown, if it is called, between two frames and
    followed by [delete] alone; [delete] last.  A run that has returned
    has deleted the object; a run still in the loop stands between two
    frames, with [gApplication] null exactly when the object is gone. *)
Theorem WinMain_follows_protocol :
  forall env inps r w evs,
    WinMain env inps boot = Some (r, w, evs) ->
    exists s,
      protocol Unborn evs = Some s
      /\ (r <> None -> s = Gone)
      /\ (r = None -> in_phase s w).
Proof.
  intros env inps r w evs Hrun.
  destruct (WinMain_run _ _ _ _ _ Hrun)
    as (w0 & e0 & rl & w1 & e1 & e2 & Hstart & Hloop & -> & Hend).
  destruct (WinMain_startup_run _ _ _ _ Hstart)
    as (Hnew & _ & Happ & _ & _ & _ & _ & pre & -> & Hpre & _).
  assert (H0 : protocol Unborn (pre ++ [App_Initialize (new_Application env)])
               = Some Idle).
  { rewrite protocol_app, (protocol_no_app_call pre Unborn Hpre). reflexivity. }
  destruct (game_loop_follows_protocol _ _ _ _ _ _ _ Hloop Idle) as (s1 & Hp1 & Hs1).
  { left. split; [reflexivity|]. rewrite Happ. exact Hnew. }
  rewrite protocol_app, H0, protocol_app, Hp1.
  destruct rl as [[]|].
  - destruct Hend as (code & -> & Hexit).
    apply WinMain_exit_run in Hexit. destruct Hexit as (-> & -> & _).
    exists Gone. split; [|split; [reflexivity|intro; discriminate]].
    destruct Hs1 as [(-> & Hs)|(-> & Hs)].
    + apply Z.eqb_neq in Hs. rewrite Hs. reflexivity.
    + apply Z.eqb_eq in Hs. rewrite Hs. reflexivity.
  - destruct Hend as (-> & -> & ->). exists s1.
    split; [reflexivity|]. split; [intro H; congruence|intros _; exact Hs1].
Qed.

Lemma WinMain_follows_protocol_witness :
  exists w evs,
    WinMain sample_env run_until_closed boot = Some (Some 0, w, evs)
    /\ exists s, protocol Unborn evs = Some s
                 /\ (Some 0 <> None -> s = Gone)
                 /\ (Some 0 = None -> in_phase s w).
Proof.
  eexists; eexists. split; [vm_compute; reflexivity|].
  eapply (WinMain_follows_protocol sample_env run_until_closed).
  vm_compute; reflexivity.
Defined.

(** ** The loop releases the rendering context it was given *)

Lemma deleted_contexts_app :
  forall e1 e2, deleted_contexts (e1 ++ e2) = deleted_contexts e1 ++ deleted_contexts e2.
Proof. intros. apply flat_map_app. Qed.

Lemma made_current_app :
  forall e1 e2, made_current (e1 ++ e2) = made_current e1 ++ made_current e2.
Proof. intros. apply flat_map_app. Qed.

Lemma releases_context_trans :
  forall w w1 w2 e1 e2,
    releases_context w w1 e1 -> releases_context w1 w2 e2 ->
    releases_context w w2 (e1 ++ e2).
Proof.
  unfold releases_context. intros * H1 H2.
  rewrite deleted_contexts_app, made_current_app.
  destruct H1 as [(Hv1 & Hd1 & Hm1 & Hc1)|(Hv1 & Hv1' & Hd1 & Hm1 & Hc1)];
    destruct H2 as [(Hv2 & Hd2 & Hm2 & Hc2)|(Hv2 & Hv2' & Hd2 & Hm2 & Hc2)];
    rewrite Hd1, Hd2, Hm1, Hm2; simpl.
  - left. repeat split; congruence.
  - right. repeat split; congruence.
  - right. repeat split; congruence.
  - contradiction.
Qed.

Lemma WndProc_releases_context :
  forall hwnd iMsg wp lp w r w' evs,
    WndProc hwnd iMsg wp lp w = Some (r, w', evs) ->
    releases_context w w' evs.
Proof.
  intros hwnd iMsg wp lp w r w' evs. unfold releases_context.
  run_host. host_steps; intro H; inversion H; subst; clear H.
  all: repeat match goal with
              | H : (_ =? _) = true |- _ => apply Z.eqb_eq in H
              | H : (_ =? _) = false |- _ => apply Z.eqb_neq in H
              end.
  all: simpl;
    first [ left; repeat split; solve [auto]
          | right; repeat split; solve [auto] ].
Qed.

Lemma frame_releases_context :
  forall hdc vsynch inp w c w' evs,
    (update_application inp ;; render_application inp ;;
     present hdc vsynch ;; ret Continue) w = Some (c, w', evs) ->
    releases_context w w' evs.
Proof.
  intros * H. rewrite frame_spec in H. unfold releases_context.
  destruct (gApplication w =? 0); inversion H; subst; clear H;
    destruct (vsynch =? 0); left; repeat split; auto.
Qed.

Lemma game_loop_releases_context :
  forall hdc vsynch inps w r w' evs,
    game_loop hdc vsynch inps w = Some (r, w', evs) ->
    releases_context w w' evs.
Proof.
  intros * Hrun.
  apply (game_loop_effect hdc vsynch (fun _ => True) releases_context)
    with (inps := inps) (r := r);
    [ apply releases_context_trans | | | | | | | | exact Hrun].
  - intros inp w0 _. left.
    destruct (os_queue w0 ++ arrivals inp); repeat split; auto.
  - intros w0. left. repeat split; auto.
  - intros w0 m r0 w1 e1 _ H. eapply WndProc_releases_context, H.
  - intros w0 _. left. repeat split; auto.
  - intros inp w0 c w1 e1 _ H. eapply frame_releases_context, H.
  - intros w0. left. repeat split; auto.
  - apply Forall_forall. auto.
Qed.

Lemma context_order_app :
  forall c e1 e2 s,
    context_order c s (e1 ++ e2) =
      match context_order c s e1 with
      | Some s' => context_order c s' e2
      | None => None
      end.
Proof.
  induction e1 as [|e e1 IH]; intros e2 s; simpl; [reflexivity|].
  destruct (context_step c s e); [apply IH|reflexivity].
Qed.

Lemma keeps_context_order_trans :
  forall c w w1 w2 e1 e2,
    keeps_context_order c w w1 e1 -> keeps_context_order c w1 w2 e2 ->
    keeps_context_order c w w2 (e1 ++ e2).
Proof.
  intros * H1 H2 s Hs.
  destruct (H1 s Hs) as (s1 & Hp1 & Hs1).
  destruct (H2 s1 Hs1) as (s2 & Hp2 & Hs2).
  exists s2. rewrite context_order_app, Hp1. auto.
Qed.

Lemma WndProc_keeps_context_order :
  forall c hwnd iMsg wp lp w r w' evs,
    WndProc hwnd iMsg wp lp w = Some (r, w', evs) ->
    keeps_context_order c w w' evs.
Proof.
  intros c hwnd iMsg wp lp w r w' evs. unfold keeps_context_order, in_context_phase.
  run_host. host_steps; intro H; inversion H; subst; clear H.
  all: repeat match goal with
              | H : (_ =? _) = true |- _ => apply Z.eqb_eq in H
              | H : (_ =? _) = false |- _ => apply Z.eqb_neq in H
              end.
  all: intros s [(-> & Hs)|(-> & Hs & Hv)]; try congruence; simpl;
    rewrite ?Hs, ?Z.eqb_refl; simpl.
  all: eexists; (split; [reflexivity|]); simpl; auto.
Qed.

Lemma frame_keeps_context_order :
  forall c hdc vsynch inp w k w' evs,
    (update_application inp ;; render_application inp ;;
     present hdc vsynch ;; ret Continue) w = Some (k, w', evs) ->
    keeps_context_order c w w' evs.
Proof.
  intros * H. rewrite frame_spec in H. unfold keeps_context_order, in_context_phase.
  destruct (gApplication w =? 0); inversion H; subst; clear H.
  all: intros s [(-> & Hs)|(-> & Hs & Hv)]; simpl.
  all: destruct (vsynch =? 0); simpl; eexists; (split; [reflexivity|]); simpl; auto.
Qed.

Lemma game_loop_keeps_context_order :
  forall c hdc vsynch inps w r w' evs,
    game_loop hdc vsynch inps w = Some (r, w', evs) ->
    keeps_context_order c w w' evs.
Proof.
  intros * Hrun.
  apply (game_loop_effect hdc vsynch (fun _ => True) (keeps_context_order c))
    with (inps := inps) (r := r);
    [ apply keeps_context_order_trans | | | | | | | | exact Hrun].
  - intros inp w0 _ s Hs. exists s. split; [reflexivity|].
    unfold in_context_phase in *.
    destruct (os_queue w0 ++ arrivals inp); exact Hs.
  - intros w0 s Hs. exists s. split; [|exact Hs].
    destruct Hs as [(-> & _)|(-> & _)]; reflexivity.
  - intros w0 m r0 w1 e1 _ H. eapply WndProc_keeps_context_order, H.
  - intros w0 _ s Hs. exists s. split; [reflexivity|exact Hs].
  - intros inp w0 k w1 e1 _ H. eapply frame_keeps_context_order, H.
  - intros w0 s Hs. exists s. split; [reflexivity|exact Hs].
  - apply Forall_forall. auto.
Qed.

Lemma context_order_Released :
  forall c evs s',
    context_order c Released evs = Some s' ->
    s' = Released /\ deleted_contexts evs = [].
Proof.
  induction evs as [|e evs IH]; intros s' H; simpl in H.
  - inversion H. auto.
  - destruct e; simpl in H; try discriminate; apply IH in H; exact H.
Qed.

Lemma context_order_Unbound :
  forall c evs s',
    context_order c Unbound evs = Some s' ->
    (evs = [] /\ s' = Unbound) \/ (s' = Released /\ deleted_contexts evs = [c]).
Proof.
  intros c [|e evs] s' H; simpl in H.
  - inversion H. auto.
  - right. destruct e; simpl in H; try discriminate.
    destruct (hglrc =? c) eqn:E; [|discriminate].
    apply Z.eqb_eq in E. subst hglrc.
    apply context_order_Released in H. destruct H as (-> & Hd).
    unfold deleted_contexts in *. simpl. rewrite Hd. auto.
Qed.

Lemma context_order_Bound :
  forall c evs s',
    context_order c Bound evs = Some s' ->
    (s' <> Released /\ deleted_contexts evs = [])
    \/ (s' = Released /\ deleted_contexts evs = [c]).
Proof.
  induction evs as [|e evs IH]; intros s' H; simpl in H.
  - inversion H. left. split; [discriminate | reflexivity].
  - destruct e; simpl in H; try discriminate; try (apply IH in H; exact H).
    destruct ((hdc =? 0) && (hglrc =? 0)); [|discriminate].
    apply context_order_Unbound in H.
    destruct H as [(-> & ->) | (-> & Hd)].
    + left. split; [discriminate | reflexivity].
    + right. split; [reflexivity | exact Hd].
Qed.

(** X17.  Whatever messages arrive, the loop makes no context current,
    and the only WGL calls it can make are wglMakeCurrent(NULL, NULL)
    followed at once by wglDeleteContext of the context that was current
    when the loop was entered, once: the context is deleted only after
    it has been unbound, and never twice.  This happens exactly in the
    runs that take [gVertexArrayObject] from non-zero to 0, after which
    no context is current; in every other run the context is left as it
    was, so a loop entered with [gVertexArrayObject] 0 never deletes
    the context. *)
Theorem game_loop_releases_its_context :
  forall hdc vsynch inps w r w' evs,
    game_loop hdc vsynch inps w = Some (r, w', evs) ->
    releases_context w w' evs
    /\ (gVertexArrayObject w = 0 ->
        deleted_contexts evs = [] /\ os_context w' = os_context w)
    /\ (exists s',
          context_order (os_context w) Bound evs = Some s'
          /\ (s' = Bound /\ deleted_contexts evs = []
              \/ s' = Released /\ deleted_contexts evs = [os_context w])).
Proof.
  intros * Hrun.
  pose proof (game_loop_releases_context _ _ _ _ _ _ _ Hrun) as H.
  split; [exact H|]. split.
  - intro Hv.
    destruct H as [(_ & Hd & _ & Hc)|(Hv' & _)]; [auto|contradiction].
  - destruct (game_loop_keeps_context_order (os_context w) _ _ _ _ _ _ _ Hrun Bound)
      as (s' & Hord & Hphase); [left; auto|].
    exists s'. split; [exact Hord|].
    destruct (context_order_Bound _ _ _ Hord) as [(Hne & Hd)|(-> & Hd)].
    + left. split; [|exact Hd].
      destruct Hphase as [(-> & _)|(-> & _)]; [reflexivity|contradiction].
    + right. auto.
Qed.

Lemma game_loop_releases_its_context_witness :
  exists r w' evs,
    game_loop 5 1 run_destroyed world_running = Some (r, w', evs)
    /\ deleted_contexts evs = [9]
    /\ releases_context world_running w' evs
    /\ (gVertexArrayObject world_running = 0 ->
        deleted_contexts evs = [] /\ os_context w' = os_context world_running)
    /\ (exists s',
          context_order (os_context world_running) Bound evs = Some s'
          /\ (s' = Bound /\ deleted_contexts evs = []
              \/ s' = Released
                 /\ deleted_contexts evs = [os_context world_running])).
Proof.
  eexists; eexists; eexists. split; [vm_compute; reflexivity|].
  split; [reflexivity|].
  apply (game_loop_releases_its_context 5 1 run_destroyed world_running (Some tt)).
  vm_compute; reflexivity.
Defined.

(** ** The tick differences add up to the time that has passed *)

Lemma last_cons :
  forall (A : Type) (l : list A) (a d : A), last (a :: l) d = last l a.
Proof.
  induction l as [|b l IH]; intros a d; [reflexivity|].
  change (last (a :: b :: l) d) with (last (b :: l) d).
  rewrite (IH b d), (IH b a). reflexivity.
Qed.

Lemma delta_time_of_times :
  forall t l,
    0 <= t - l < 2 ^ 32 ->
    delta_time (to_uint32 t) (to_uint32 l) = dt_of_ms (t - l).
Proof.
  intros t l H. unfold delta_time, dt_of_ms, to_uint32.
  rewrite <- Zminus_mod, Z.mod_small by exact H. reflexivity.
Qed.

Lemma deltas_of_times :
  forall times t0,
    steady t0 times = true ->
    deltas (to_uint32 t0) (map to_uint32 times) = map dt_of_ms (gaps t0 times)
    /\ Forall (fun ms => 0 <= ms < 2 ^ 32) (gaps t0 times).
Proof.
  induction times as [|t times IH]; intros t0 H; [split; [reflexivity|constructor]|].
  simpl in H. apply andb_prop in H. destruct H as (H & Hrest).
  apply andb_prop in H. destruct H as (Hle & Hlt).
  apply Z.leb_le in Hle. apply Z.ltb_lt in Hlt.
  destruct (IH t Hrest) as (IHd & IHb). simpl.
  rewrite IHd, delta_time_of_times by lia.
  split; [reflexivity|]. constructor; [lia | exact IHb].
Qed.

Lemma gaps_sum :
  forall times t0, fold_right Z.add 0 (gaps t0 times) = last times t0 - t0.
Proof.
  induction times as [|t times IH]; intro t0.
  - simpl. lia.
  - rewrite last_cons. simpl. rewrite IH. lia.
Qed.

(** X18.  While only paint messages arrive, the whole numbers of
    milliseconds whose float conversions, times 0.001f, are handed to
    Update are the differences of the successive true times, and they
    add up to the time that has passed since the tick read after
    Initialize, across any number of roll-overs of the 32-bit counter,
    provided no pass starts a full turn of the counter (about 49.7 days)
    or more after the one before: in the integer arithmetic of line 235
    no millisecond is counted twice and none is lost between two passes.
    (Nothing is said about the rounding of the float values.) *)
Theorem WinMain_update_time_adds_up :
  forall env inps t0 times,
    new_Application env <> 0 ->
    posts_only is_paint_or_erase inps = true ->
    GetTickCount_start env = to_uint32 t0 ->
    map GetTickCount_result inps = map to_uint32 times ->
    steady t0 times = true ->
    exists w evs,
      WinMain env inps boot = Some (None, w, evs)
      /\ Update_args evs = map dt_of_ms (gaps t0 times)
      /\ Forall (fun ms => 0 <= ms < 2 ^ 32) (gaps t0 times)
      /\ fold_right Z.add 0 (gaps t0 times) = last times t0 - t0.
Proof.
  intros env inps t0 times Hnew Hno Hstart0 Hticks Hsteady.
  destruct (WinMain_paint_run env inps Hnew Hno)
    as (w & evs & Hrun & _ & _ & Hu & _).
  destruct (deltas_of_times times t0 Hsteady) as (Hd & Hb).
  exists w, evs. split; [exact Hrun|].
  split; [rewrite Hu, Hstart0, Hticks; exact Hd|].
  split; [exact Hb | apply gaps_sum].
Qed.

Lemma WinMain_update_time_adds_up_witness :
  exists w evs,
    WinMain sample_env_late run_across_rollover boot = Some (None, w, evs)
    /\ Update_args evs = [dt_of_ms 10; dt_of_ms 16]
    /\ Forall (fun ms => 0 <= ms < 2 ^ 32) [10; 16]
    /\ fold_right Z.add 0 [10; 16] = 4294967306 - 4294967280.
Proof.
  apply (WinMain_update_time_adds_up sample_env_late run_across_rollover
           4294967280 [4294967290; 4294967306]);
    solve [discriminate | reflexivity].
Defined.

(** ** The report of the loader *)

(** X19.  The version line never shows the major version: what is
    written is the text [OpenGL Version:] without its first [major]
    characters, a dot, the minor version and a line feed; the text is
    whole only for major version 0, and a major version outside 0..15
    reads outside the literal.  The report changes nothing in the
    program's state. *)
Theorem gladLoadGL_report_drops_major :
  forall major minor w,
    (0 <= major <= 15 ->
     exists shown,
       gladLoadGL_report true major minor w =
         Some (tt, w, [cout (shown ++ "." ++ print_int minor ++ endl)])
       /\ (String.length shown + Z.to_nat major = 15)%nat
       /\ (prefix "OpenGL Version:" shown = true <-> major = 0)
       /\ ((Z.to_nat major <= 14)%nat ->
           substring (Z.to_nat major) 1 "OpenGL Version:" = substring 0 1 shown))
    /\ (major < 0 \/ 15 < major -> gladLoadGL_report true major minor w = None).
Proof.
  intros major minor w. split.
  - intros Hm. unfold gladLoadGL_report, literal_plus. simpl negb. cbv iota.
    change (Z.of_nat (String.length "OpenGL Version:")) with 15.
    replace ((0 <=? major) && (major <=? 15)) with true
      by (symmetry; apply andb_true_intro; split; apply Z.leb_le; lia).
    eexists. split; [reflexivity|].
    assert (Hn : (Z.to_nat major <= 15)%nat) by lia.
    assert (H0 : major = 0 <-> Z.to_nat major = 0%nat) by lia.
    revert Hn H0. generalize (Z.to_nat major). intros n Hn H0.
    do 16 (destruct n as [|n];
           [simpl; intuition (try discriminate; try reflexivity; lia)|]).
    lia.
  - intros Hm. unfold gladLoadGL_report, literal_plus. simpl negb. cbv iota.
    change (Z.of_nat (String.length "OpenGL Version:")) with 15.
    replace ((0 <=? major) && (major <=? 15)) with false; [reflexivity|].
    symmetry. apply andb_false_iff.
    destruct Hm; [left; apply Z.leb_gt|right; apply Z.leb_gt]; lia.
Qed.

Lemma gladLoadGL_report_drops_major_witness :
  (exists shown,
     gladLoadGL_report true 3 3 world_running =
       Some (tt, world_running, [cout (shown ++ "." ++ print_int 3 ++ endl)])
     /\ (String.length shown + Z.to_nat 3 = 15)%nat
     /\ (prefix "OpenGL Version:" shown = true <-> 3 = 0)
     /\ ((Z.to_nat 3 <= 14)%nat ->
         substring (Z.to_nat 3) 1 "OpenGL Version:" = substring 0 1 shown))
  /\ gladLoadGL_report true 3 3 world_running =
       Some (tt, world_running, [cout ("nGL Version:.3" ++ endl)])
  /\ gladLoadGL_report true 16 0 world_running = None.
Proof.
  split; [|split].
  - apply (gladLoadGL_report_drops_major 3 3 world_running). lia.
  - reflexivity.
  - apply (gladLoadGL_report_drops_major 16 0 world_running). lia.
Defined.
